(** * Session lifecycle and task dispatch of the WhatsApp bulk-send server

    A shallow embedding of [src/index.js].  The file holds two programs:
    the Baileys-backed server ([index.js], module [Server] below) and the
    stand-alone simulation server ([server.js], module [Sim]).

    Node runs every handler to its next [await] without interruption, so
    each handler (and each stretch of an async function between two
    awaits) is one atomic transition on the process state. Everything the
    outside world decides (the clock, the provider's answers, the random
    generator, uploaded files) is an input of the transition. *)

From Stdlib Require Import ZArith Lia Bool.
From Stdlib Require Import Ascii String.
From stdpp Require Import base option list strings pretty gmap.

Set Warnings "-register-all".

Local Open Scope string_scope.
Local Open Scope list_scope.
Local Open Scope Z_scope.

(** ** JavaScript [Map] with string keys

    A [Map] iterates in insertion order; [set] on a present key keeps the
    key's position, [set] on a new key appends. Both registries of the
    server are such maps and one handler depends on the order. *)
Module JsMap.
Section WithValues.
Context {V : Type}.

Fixpoint get (m : list (string * V)) (k : string) : option V :=
  match m with
  | [] => None
  | (k', v) :: m' => if String.eqb k' k then Some v else get m' k
  end.

Fixpoint set (m : list (string * V)) (k : string) (v : V) : list (string * V) :=
  match m with
  | [] => [(k, v)]
  | (k', v') :: m' =>
      if String.eqb k' k then (k, v) :: m' else (k', v') :: set m' k v
  end.

(** [delete] drops every binding of the key; on a map without duplicate
    keys (all a [Map] can hold) that is the single binding. *)
Fixpoint delete (m : list (string * V)) (k : string) : list (string * V) :=
  match m with
  | [] => []
  | (k', v') :: m' =>
      if String.eqb k' k then delete m' k else (k', v') :: delete m' k
  end.

Definition keys (m : list (string * V)) : list string := map fst m.

Definition size (m : list (string * V)) : Z := Z.of_nat (length m).
End WithValues.
End JsMap.

(** ** The Baileys-backed server ([index.js]) *)
Module Server.

(** [MAX_RETRIES] and [RECONNECT_INTERVAL] (milliseconds). *)
Definition MAX_RETRIES : Z := 1000.
Definition RECONNECT_INTERVAL : Z := 10000.

(** A [Date] is its epoch time. [lastConnected] is [null] at first
    registration, a [Date] after an open, and missing ([undefined]) in an
    entry rebuilt from [{}]. *)
Inductive lastConn :=
| LcUndefined
| LcNull
| LcDate (t : Z).

(** An entry of [activeClients]. A socket is known by its handle; the
    fields that an entry spread from [{}] lacks are options. *)
Record clientInfo := {
  client : option nat;
  number : option string;
  authPath : option string;
  connected : bool;
  lastConnected : lastConn;
  retryCount : Z
}.

(** An entry of [activeTasks]. *)
Record taskInfo := {
  id : string;
  sessionId : string;
  target : string;
  targetJid : string;
  targetType : string;
  prefix : string;
  totalMessages : Z;
  sentMessages : Z;
  isSending : bool;
  stopRequested : bool;
  startedAt : Z;
  lastSentAt : option Z;
  endedAt : option Z
}.

(** Where the async send loop of a task is suspended. [i] is the loop
    variable. *)
Inductive loopPc :=
| AwaitSend (i : nat)      (* inside [await waClient.sendMessage] of iteration i *)
| AwaitDelay (i : nat)     (* inside [await delay] of iteration i *)
| AwaitEviction            (* loop left, the five-minute timer is pending *)
| Evicted.                 (* the timer has fired *)

(** The variables the loop closes over. *)
Record sendLoop := {
  loopClient : nat;
  loopJid : string;
  loopPrefix : string;
  loopMessages : list string;
  loopFile : string;
  pc : loopPc
}.

(** One call of [waClient.sendMessage(targetJid, { text })]. *)
Record sendCall := {
  callTask : string;
  callIndex : nat;
  callClient : nat;
  callJid : string;
  callText : string
}.

(** Lines written with [console.log] / [console.error] that the
    properties below speak about. *)
Inductive logLine :=
| LogConnected (sid : string)
| LogReconnecting (sid : string) (attempt : Z)
| LogMaxRetries (sid : string)
| LogLoggedOut (sid : string)
| LogInitError (sid : string)
| LogRetryInit (sid : string)
| LogKeepAlive (sid : string)
| LogKeepAliveFailed (sid : string)
| LogTaskExit (tid : string)
| LogSent (tid : string) (n : Z)
| LogSendFailed (tid : string) (n : Z)
| LogTaskCompleted (tid : string) (sent : Z)
| LogStopRequested (tid : string).

(** The process state: the two registries, the pending reconnect timers
    (each holds the arguments of its [initializeClient] call), the
    suspended send loops by task id, what went out to the provider and to
    the console, oldest first, and the promises the program dropped that
    were rejected (by session). Nothing handles such a rejection: the
    program installs no [unhandledRejection] listener, and Node reports
    it, from version 15 on by ending the process. The runs below go on
    past it, so they cover what the process does when it stays up. *)
Record state := {
  activeClients : list (string * clientInfo);
  activeTasks : list (string * taskInfo);
  reconnectTimers : list (string * string);
  loops : gmap string sendLoop;
  outbox : list sendCall;
  presence : list string;
  console : list logLine;
  unhandled : list string
}.

Definition initial : state :=
  {| activeClients := []; activeTasks := []; reconnectTimers := [];
     loops := ∅; outbox := []; presence := []; console := [];
     unhandled := [] |}.

(** *** String helpers standing for the JavaScript built-ins used *)

Definition isDigit (c : ascii) : bool :=
  let n := N_of_ascii c in (48 <=? n)%N && (n <=? 57)%N.

(** [s.replace(/[^0-9]/g, "")] *)
Fixpoint keepDigits (s : string) : string :=
  match s with
  | EmptyString => EmptyString
  | String c r => if isDigit c then String c (keepDigits r) else keepDigits r
  end.

(** [s.includes(c)] for a one-character needle. *)
Fixpoint includesChar (c : ascii) (s : string) : bool :=
  match s with
  | EmptyString => false
  | String c' r => Ascii.eqb c' c || includesChar c r
  end.

(** A string is the UTF-8 bytes of the text. The white space that [trim]
    removes and [parseInt] skips is ECMAScript's WhiteSpace and
    LineTerminator, given here by the encodings of its code points. No
    encoding is the start of another, and none starts with a continuation
    byte, so to strip them from the bytes is to strip the characters.
    (Uploads are taken to be valid UTF-8; what the decoder puts in the
    place of invalid bytes is not modelled.) *)
Definition bytes (l : list N) : string :=
  string_of_list_ascii (map ascii_of_N l).

Definition whiteSpace : list string :=
  map bytes
    [ [9]; [10]; [11]; [12]; [13]; [32];     (* U+0009 .. U+000D, U+0020 *)
      [194; 160];                            (* U+00A0 *)
      [225; 154; 128];                       (* U+1680 *)
      [226; 128; 128]; [226; 128; 129]; [226; 128; 130]; [226; 128; 131];
      [226; 128; 132]; [226; 128; 133]; [226; 128; 134]; [226; 128; 135];
      [226; 128; 136]; [226; 128; 137]; [226; 128; 138];
                                             (* U+2000 .. U+200A *)
      [226; 128; 168]; [226; 128; 169];      (* U+2028, U+2029 *)
      [226; 128; 175];                       (* U+202F *)
      [226; 129; 159];                       (* U+205F *)
      [227; 128; 128];                       (* U+3000 *)
      [239; 187; 191] ]%N.                   (* U+FEFF *)

(** [s] without the prefix [w], when it starts with [w]. *)
Fixpoint stripPrefix (w s : string) : option string :=
  match w, s with
  | EmptyString, _ => Some s
  | String a w', String b s' =>
      if Ascii.eqb a b then stripPrefix w' s' else None
  | String _ _, EmptyString => None
  end.

Fixpoint stripAny (ws : list string) (s : string) : option string :=
  match ws with
  | [] => None
  | w :: ws' =>
      match stripPrefix w s with
      | Some r => Some r
      | None => stripAny ws' s
      end
  end.

(** [s] without its first character, when that is white space. *)
Definition leadingSpace (s : string) : option string :=
  stripAny whiteSpace s.

(** [s.trimStart()]; every round takes at least one byte off, so the
    length of the string is fuel enough. *)
Fixpoint dropLeading (fuel : nat) (s : string) : string :=
  match fuel with
  | O => s
  | S n =>
      match leadingSpace s with
      | Some r => dropLeading n r
      | None => s
      end
  end.

Definition trimStart (s : string) : string :=
  dropLeading (String.length s) s.

(** The text is white space from start to end. *)
Definition isBlank (s : string) : bool :=
  match trimStart s with
  | EmptyString => true
  | String _ _ => false
  end.

(** [s.trimEnd()]: cut where the rest is white space only. *)
Fixpoint trimEnd (s : string) : string :=
  match s with
  | EmptyString => EmptyString
  | String c r => if isBlank s then EmptyString else String c (trimEnd r)
  end.

Definition trim (s : string) : string := trimEnd (trimStart s).

(** [s.split(sep)] for a one-character separator: never empty. *)
Fixpoint splitOn (sep : ascii) (s : string) : list string :=
  match s with
  | EmptyString => [EmptyString]
  | String c r =>
      if Ascii.eqb c sep then EmptyString :: splitOn sep r
      else match splitOn sep r with
           | h :: t => String c h :: t
           | [] => [String c EmptyString]
           end
  end.

Definition nonEmpty (s : string) : bool :=
  match s with
  | EmptyString => false
  | String _ _ => true
  end.

(** Truthiness of a property that is a string when present. *)
Definition truthy (x : option string) : bool :=
  match x with
  | Some v => nonEmpty v
  | None => false
  end.

Definition toNumberJid (number : string) : string :=
  if includesChar "@"%char number then number
  else number +:+ "@s.whatsapp.net".

(** *** Field updates *)

Definition withClients (m : list (string * clientInfo)) (s : state) : state :=
  {| activeClients := m; activeTasks := activeTasks s;
     reconnectTimers := reconnectTimers s; loops := loops s;
     outbox := outbox s; presence := presence s; console := console s;
     unhandled := unhandled s |}.

Definition withTasks (m : list (string * taskInfo)) (s : state) : state :=
  {| activeClients := activeClients s; activeTasks := m;
     reconnectTimers := reconnectTimers s; loops := loops s;
     outbox := outbox s; presence := presence s; console := console s;
     unhandled := unhandled s |}.

Definition withTimers (l : list (string * string)) (s : state) : state :=
  {| activeClients := activeClients s; activeTasks := activeTasks s;
     reconnectTimers := l; loops := loops s;
     outbox := outbox s; presence := presence s; console := console s;
     unhandled := unhandled s |}.

Definition withLoops (m : gmap string sendLoop) (s : state) : state :=
  {| activeClients := activeClients s; activeTasks := activeTasks s;
     reconnectTimers := reconnectTimers s; loops := m;
     outbox := outbox s; presence := presence s; console := console s;
     unhandled := unhandled s |}.

Definition sendCalled (c : sendCall) (s : state) : state :=
  {| activeClients := activeClients s; activeTasks := activeTasks s;
     reconnectTimers := reconnectTimers s; loops := loops s;
     outbox := outbox s ++ [c]; presence := presence s; console := console s;
     unhandled := unhandled s |}.

Definition presenceCalled (sid : string) (s : state) : state :=
  {| activeClients := activeClients s; activeTasks := activeTasks s;
     reconnectTimers := reconnectTimers s; loops := loops s;
     outbox := outbox s; presence := presence s ++ [sid]; console := console s;
     unhandled := unhandled s |}.

Definition log (l : logLine) (s : state) : state :=
  {| activeClients := activeClients s; activeTasks := activeTasks s;
     reconnectTimers := reconnectTimers s; loops := loops s;
     outbox := outbox s; presence := presence s; console := console s ++ [l];
     unhandled := unhandled s |}.

Definition rejectionDropped (sid : string) (s : state) : state :=
  {| activeClients := activeClients s; activeTasks := activeTasks s;
     reconnectTimers := reconnectTimers s; loops := loops s;
     outbox := outbox s; presence := presence s; console := console s;
     unhandled := unhandled s ++ [sid] |}.

(** [setTimeout(() => initializeClient(sessionId, phoneNumber, true), RECONNECT_INTERVAL)] *)
Definition scheduleReconnect (sid phone : string) (s : state) : state :=
  withTimers (reconnectTimers s ++ [(sid, phone)]) s.

(** *** Session lifecycle: [initializeClient] and its [connection.update] handler *)

(** What the [connection.update] handler of one socket closes over. *)
Record socket := {
  sockSession : string;
  sockPhone : string;
  sockHandle : nat;
  sockReconnect : bool
}.

(** The [connection] field of an update; a close carries
    [lastDisconnect?.error?.output?.statusCode], which may be missing. *)
Inductive connection :=
| ConnOpen
| ConnClose (statusCode : option Z)
| ConnOther.

(** [x || 0] on a count that may be missing. *)
Definition orZero (x : option Z) : Z :=
  match x with
  | Some n => n
  | None => 0
  end.

(** [path.join("sessions", sessionId)] *)
Definition sessionPath (sid : string) : string := "sessions/" +:+ sid.

Section Lifecycle.
(** [DisconnectReason.loggedOut], a constant of the Baileys library. *)
Variable loggedOut : Z.

(** [statusCode !== DisconnectReason.loggedOut && statusCode !== 401] *)
Definition shouldReconnect (statusCode : option Z) : bool :=
  match statusCode with
  | None => true
  | Some c => negb (c =? loggedOut) && negb (c =? 401)
  end.

(** The handler registered with [waClient.ev.on("connection.update", ...)].
    The branch on [qr] only prints and is left out. *)
Definition onConnectionUpdate (sk : socket) (u : connection) (now : Z)
    (s : state) : state :=
  let sid := sockSession sk in
  match u with
  | ConnOpen =>
      let s := log (LogConnected sid) s in
      withClients
        (JsMap.set (activeClients s) sid
           {| client := Some (sockHandle sk);
              number := Some (sockPhone sk);
              authPath := Some (sessionPath sid);
              connected := true;
              lastConnected := LcDate now;
              retryCount := 0 |}) s
  | ConnClose statusCode =>
      if shouldReconnect statusCode then
        (* const clientInfo = activeClients.get(sessionId) || {} *)
        let clientInfo := JsMap.get (activeClients s) sid in
        let retries := orZero (retryCount <$> clientInfo) in
        if retries <? MAX_RETRIES then
          let s := log (LogReconnecting sid (retries + 1)) s in
          let s :=
            withClients
              (JsMap.set (activeClients s) sid
                 {| client := clientInfo ≫= client;
                    number := clientInfo ≫= number;
                    authPath := clientInfo ≫= authPath;
                    connected := false;
                    lastConnected :=
                      match clientInfo with
                      | Some c => lastConnected c
                      | None => LcUndefined
                      end;
                    retryCount := retries + 1 |}) s in
          scheduleReconnect sid (sockPhone sk) s
        else
          log (LogMaxRetries sid) s
      else
        let s := log (LogLoggedOut sid) s in
        withClients (JsMap.delete (activeClients s) sid) s
  | ConnOther => s
  end.
End Lifecycle.

(** How the [try] block of [initializeClient] ends: with a socket, or in
    the [catch]. *)
Inductive initOutcome :=
| InitOk (handle : nat)
| InitThrows.

Definition initializeClient (sid phone : string) (isReconnect : bool)
    (o : initOutcome) (s : state) : state :=
  match o with
  | InitOk h =>
      if isReconnect then s
      else
        withClients
          (JsMap.set (activeClients s) sid
             {| client := Some h;
                number := Some phone;
                authPath := Some (sessionPath sid);
                connected := false;
                lastConnected := LcNull;
                retryCount := 0 |}) s
  | InitThrows =>
      let s := log (LogInitError sid) s in
      match JsMap.get (activeClients s) sid with
      | Some clientInfo =>
          let retries := orZero (Some (retryCount clientInfo)) in
          if retries <? MAX_RETRIES then
            scheduleReconnect sid phone (log (LogRetryInit sid) s)
          else s
      | None => s
      end
  end.

(** *** Keep-alive ticker *)

(** How a call of [sendPresenceUpdate] ends. The provider's function is
    asynchronous: it hands back a promise, which is fulfilled or rejected
    later; the call itself throws only when it cannot be made at all. *)
Inductive pingOutcome :=
| PingResolves
| PingRejects
| PingThrows.

(** The body of the [forEach] callback. The call is not awaited and the
    promise is dropped on the spot: the [try] sees a throw of the call
    itself and nothing else. After a call that returns, the success line
    is printed whatever becomes of the promise, and a rejection is left
    to nobody. *)
Definition keepAlivePing (ping : string -> pingOutcome) (s : state)
    (entry : string * clientInfo) : state :=
  let '(sid, clientInfo) := entry in
  if connected clientInfo && bool_decide (is_Some (client clientInfo)) then
    let s := presenceCalled sid s in
    match ping sid with
    | PingThrows => log (LogKeepAliveFailed sid) s
    | PingResolves => log (LogKeepAlive sid) s
    | PingRejects => rejectionDropped sid (log (LogKeepAlive sid) s)
    end
  else s.

Definition keepAlive (ping : string -> pingOutcome) (s : state) : state :=
  fold_left (keepAlivePing ping) (activeClients s) s.

(** *** [GET /status] *)

Record sessionStatus := {
  stSessionId : string;
  stNumber : option string;
  stConnected : bool;
  stLastConnected : lastConn;
  stRetryCount : Z
}.

Record taskStatus := {
  stTaskId : string;
  stTarget : string;
  stTargetJid : string;
  stTotalMessages : Z;
  stSentMessages : Z;
  stIsSending : bool;
  stStopRequested : bool;
  stStartedAt : Z;
  stLastSentAt : option Z
}.

Definition statusSessions (s : state) : list sessionStatus :=
  map (fun '(k, v) =>
         {| stSessionId := k; stNumber := number v;
            stConnected := connected v;
            stLastConnected := lastConnected v;
            stRetryCount := retryCount v |})
      (activeClients s).

Definition statusTasks (s : state) : list taskStatus :=
  map (fun '(k, v) =>
         {| stTaskId := k; stTarget := target v; stTargetJid := targetJid v;
            stTotalMessages := totalMessages v;
            stSentMessages := sentMessages v;
            stIsSending := isSending v;
            stStopRequested := stopRequested v;
            stStartedAt := startedAt v;
            stLastSentAt := lastSentAt v |})
      (activeTasks s).

Definition status (s : state) : list sessionStatus * list taskStatus :=
  (statusSessions s, statusTasks s).

(** *** [GET /groups], up to the call into the provider *)

Inductive groupsStart :=
| GroupsNoSession                 (* 400, "No active WhatsApp session connected" *)
| GroupsFetch (waClient : nat).   (* goes on to [groupFetchAllParticipating] *)

Fixpoint firstConnected (m : list (string * clientInfo)) : option nat :=
  match m with
  | [] => None
  | (_, clientInfo) :: m' =>
      match client clientInfo with
      | Some h => if connected clientInfo then Some h else firstConnected m'
      | None => firstConnected m'
      end
  end.

Definition groupsHandler (s : state) : groupsStart :=
  match firstConnected (activeClients s) with
  | Some waClient => GroupsFetch waClient
  | None => GroupsNoSession
  end.

(** *** [GET /code] *)

(** What the handler reads of the socket it got: whether
    [authState?.creds?.registered] is truthy, and [requestPairingCode] when
    it is a function (its answer for a number, [None] when it rejects). *)
Record waSocket := {
  registered : bool;
  requestPairingCode : option (string -> option string)
}.

Inductive codeResponse :=
| CodeMissingNumber                          (* 400 *)
| CodePairing (code sessionId : string)
| CodeAlreadyConnected (sessionId : string)
| CodeError.

Definition SCAN_QR : string := "SCAN_QR_FROM_SERVER_LOGS".

(** The part after [await delay(2000)]. *)
Definition codeRespond (waClient : waSocket) (num sessionId : string)
    : codeResponse :=
  if negb (registered waClient) then
    match requestPairingCode waClient with
    | Some request =>
        match request num with
        | Some code => CodePairing code sessionId
        | None => CodeError
        end
    | None => CodePairing SCAN_QR sessionId
    end
  else CodeAlreadyConnected sessionId.

Definition newSessionId (num : string) (now : Z) : string :=
  "perm_" +:+ num +:+ "_" +:+ pretty now.

(** The whole handler: [o] is how [initializeClient] ends and [waClient]
    what the socket shows after the pause. *)
Definition codeHandler (number : option string) (now : Z) (o : initOutcome)
    (waClient : waSocket) (s : state) : state * codeResponse :=
  if negb (truthy number) then (s, CodeMissingNumber)
  else
    let num := keepDigits (default "" number) in
    let sid := newSessionId num now in
    let s := initializeClient sid num false o s in
    match o with
    | InitOk _ => (s, codeRespond waClient num sid)
    | InitThrows => (s, CodeError)
    end.

(** *** [POST /send-message] and the send loop *)

(** The form fields of the request and [req.file?.path]. *)
Record sendRequest := {
  reqTarget : option string;
  reqTargetType : option string;
  reqDelaySec : option string;
  reqPrefix : option string;
  reqFilePath : option string
}.

Inductive sendResponse :=
| NoActiveSession
| MissingFields
| NoMessages
| TaskStarted (taskId sessionId targetJid : string) (total : Z)
| SendError.

(** [fs.readFileSync(...).split("\n").map(m => m.trim()).filter(m => m.length > 0)] *)
Definition readMessages (content : string) : list string :=
  List.filter nonEmpty (map trim (splitOn "010"%char content)).

(** [prefix ? `${prefix} ${messages[i]}` : messages[i]] *)
Definition textToSend (prefix message : string) : string :=
  if nonEmpty prefix then prefix +:+ " " +:+ message else message.

Definition setPc (taskId : string) (lp : sendLoop) (p : loopPc) (s : state)
    : state :=
  withLoops
    (<[taskId := {| loopClient := loopClient lp; loopJid := loopJid lp;
                    loopPrefix := loopPrefix lp;
                    loopMessages := loopMessages lp;
                    loopFile := loopFile lp; pc := p |}]> (loops s)) s.

(** After the [for]: mark the task finished, print, remove the upload and
    arm the eviction timer. *)
Definition finishLoop (taskId : string) (lp : sendLoop) (now : Z) (s : state)
    : state :=
  let finishedTask := JsMap.get (activeTasks s) taskId in
  let s :=
    match finishedTask with
    | Some t =>
        withTasks
          (JsMap.set (activeTasks s) taskId
             {| id := id t; sessionId := sessionId t; target := target t;
                targetJid := targetJid t; targetType := targetType t;
                prefix := prefix t; totalMessages := totalMessages t;
                sentMessages := sentMessages t;
                isSending := false;
                stopRequested := stopRequested t;
                startedAt := startedAt t; lastSentAt := lastSentAt t;
                endedAt := Some now |}) s
    | None => s
    end in
  let s := log (LogTaskCompleted taskId (orZero (sentMessages <$> finishedTask))) s in
  setPc taskId lp AwaitEviction s.

(** The head of the [for] at loop variable [i], up to the next [await]:
    the bound test, the stop checkpoint, and the call of [sendMessage]. *)
Definition enterIteration (taskId : string) (lp : sendLoop) (i : nat)
    (now : Z) (s : state) : state :=
  match loopMessages lp !! i with
  | Some message =>
      match JsMap.get (activeTasks s) taskId with
      | Some currentTask =>
          if stopRequested currentTask then
            finishLoop taskId lp now (log (LogTaskExit taskId) s)
          else
            let s :=
              sendCalled
                {| callTask := taskId; callIndex := i;
                   callClient := loopClient lp; callJid := loopJid lp;
                   callText := textToSend (loopPrefix lp) message |} s in
            setPc taskId lp (AwaitSend i) s
      | None => finishLoop taskId lp now (log (LogTaskExit taskId) s)
      end
  | None => finishLoop taskId lp now s
  end.

(** [sendMessage] has settled: count the message when it resolved, print
    when it rejected, then sleep. *)
Definition afterSend (taskId : string) (lp : sendLoop) (i : nat) (ok : bool)
    (now : Z) (s : state) : state :=
  let s :=
    if ok then
      let s :=
        match JsMap.get (activeTasks s) taskId with
        | Some t =>
            withTasks
              (JsMap.set (activeTasks s) taskId
                 {| id := id t; sessionId := sessionId t; target := target t;
                    targetJid := targetJid t; targetType := targetType t;
                    prefix := prefix t; totalMessages := totalMessages t;
                    sentMessages := sentMessages t + 1;
                    isSending := isSending t;
                    stopRequested := stopRequested t;
                    startedAt := startedAt t; lastSentAt := Some now;
                    endedAt := endedAt t |}) s
        | None => s
        end in
      log (LogSent taskId (Z.of_nat i + 1)) s
    else log (LogSendFailed taskId (Z.of_nat i + 1)) s in
  setPc taskId lp (AwaitDelay i) s.

(** The handler. [taskId] is the identifier it generated, [file] the
    content of the upload ([None] when reading throws). On success the
    loop runs on to its first [await] inside the same turn. [parsedDelay]
    only sets how long the loop sleeps; when a sleep ends is an event of
    its own below. *)
Definition sendMessageHandler (req : sendRequest) (taskId : string) (now : Z)
    (file : option string) (s : state) : state * sendResponse :=
  let prefix' := default "" (reqPrefix req) in
  (* for (const [key, value] of activeClients.entries()) { ...; break; } *)
  let first := head (activeClients s) in
  let sessionId' := fst <$> first in
  let clientInfo := snd <$> first in
  match sessionId', clientInfo ≫= client with
  | Some sid, Some waClient =>
      if negb (nonEmpty sid) then (s, NoActiveSession)
      else if negb (truthy (reqTarget req)) || negb (truthy (reqFilePath req))
              || negb (truthy (reqTargetType req))
              || negb (truthy (reqDelaySec req))
      then (s, MissingFields)
      else
        match file with
        | None => (s, SendError)
        | Some content =>
            let messages := readMessages content in
            if (length messages =? 0)%nat then (s, NoMessages)
            else
              let target' := default "" (reqTarget req) in
              let targetType' := default "" (reqTargetType req) in
              let jid :=
                if String.eqb targetType' "number"
                then toNumberJid (keepDigits target')
                else target' in
              let taskInfo' :=
                {| id := taskId; sessionId := sid; target := target';
                   targetJid := jid; targetType := targetType';
                   prefix := prefix';
                   totalMessages := Z.of_nat (length messages);
                   sentMessages := 0; isSending := true;
                   stopRequested := false; startedAt := now;
                   lastSentAt := None; endedAt := None |} in
              let s := withTasks (JsMap.set (activeTasks s) taskId taskInfo') s in
              let lp :=
                {| loopClient := waClient; loopJid := jid;
                   loopPrefix := prefix'; loopMessages := messages;
                   loopFile := default "" (reqFilePath req);
                   pc := AwaitSend 0 |} in
              (enterIteration taskId lp 0 now s,
               TaskStarted taskId sid jid (Z.of_nat (length messages)))
        end
  | _, _ => (s, NoActiveSession)
  end.

(** *** [POST /stop-task] *)

Inductive stopResponse :=
| MissingTaskId
| TaskNotFound
| StopAccepted (taskId : string).

Definition stopTaskHandler (taskId : option string) (s : state)
    : state * stopResponse :=
  match taskId with
  | Some tid =>
      if negb (nonEmpty tid) then (s, MissingTaskId)
      else
        match JsMap.get (activeTasks s) tid with
        | Some task =>
            let s :=
              withTasks
                (JsMap.set (activeTasks s) tid
                   {| id := id task; sessionId := sessionId task;
                      target := target task; targetJid := targetJid task;
                      targetType := targetType task; prefix := prefix task;
                      totalMessages := totalMessages task;
                      sentMessages := sentMessages task;
                      isSending := false;
                      stopRequested := true;
                      startedAt := startedAt task;
                      lastSentAt := lastSentAt task;
                      endedAt := endedAt task |}) s in
            (log (LogStopRequested tid) s, StopAccepted tid)
        | None => (s, TaskNotFound)
        end
  | None => (s, MissingTaskId)
  end.

(** *** The server as a transition system *)

(** One event is one turn of the Node event loop: a request handler, a
    provider callback, a timer, or the resumption of a suspended loop. *)
Inductive event :=
| ECode (number : option string) (now : Z) (o : initOutcome) (waClient : waSocket)
| EConnectionUpdate (sk : socket) (u : connection) (now : Z)
| EReconnectTimer (sid phone : string) (o : initOutcome)
| EKeepAlive (ping : string -> pingOutcome)
| ESendMessage (req : sendRequest) (taskId : string) (now : Z)
    (file : option string)
| ESendSettled (taskId : string) (ok : bool) (now : Z)
| EDelayElapsed (taskId : string) (now : Z)
| EEvictionTimer (taskId : string)
| EStopTask (taskId : option string).

(** Take one pending timer off the list, if it is there. *)
Fixpoint takeTimer (t : string * string) (l : list (string * string))
    : option (list (string * string)) :=
  match l with
  | [] => None
  | t' :: l' =>
      if String.eqb (fst t') (fst t) && String.eqb (snd t') (snd t)
      then Some l'
      else cons t' <$> takeTimer t l'
  end.

(** [step] is [None] when the event cannot happen in the state: a timer
    that is not pending, a loop that is not suspended where the event
    resumes it, or a task identifier that was handed out before
    ([`task_${Date.now()}_${random}`] is taken to be new each time). *)
Definition step (loggedOut : Z) (s : state) (e : event) : option state :=
  match e with
  | ECode number now o waClient =>
      Some (fst (codeHandler number now o waClient s))
  | EConnectionUpdate sk u now =>
      Some (onConnectionUpdate loggedOut sk u now s)
  | EReconnectTimer sid phone o =>
      l ← takeTimer (sid, phone) (reconnectTimers s);
      Some (initializeClient sid phone true o (withTimers l s))
  | EKeepAlive ping => Some (keepAlive ping s)
  | ESendMessage req taskId now file =>
      match loops s !! taskId, JsMap.get (activeTasks s) taskId with
      | None, None => Some (fst (sendMessageHandler req taskId now file s))
      | _, _ => None
      end
  | ESendSettled taskId ok now =>
      lp ← loops s !! taskId;
      match pc lp with
      | AwaitSend i => Some (afterSend taskId lp i ok now s)
      | _ => None
      end
  | EDelayElapsed taskId now =>
      lp ← loops s !! taskId;
      match pc lp with
      | AwaitDelay i => Some (enterIteration taskId lp (S i) now s)
      | _ => None
      end
  | EEvictionTimer taskId =>
      lp ← loops s !! taskId;
      match pc lp with
      | AwaitEviction =>
          Some (setPc taskId lp Evicted
                  (withTasks (JsMap.delete (activeTasks s) taskId) s))
      | _ => None
      end
  | EStopTask taskId => Some (fst (stopTaskHandler taskId s))
  end.

Fixpoint run (loggedOut : Z) (s : state) (es : list event) : option state :=
  match es with
  | [] => Some s
  | e :: es' => s' ← step loggedOut s e; run loggedOut s' es'
  end.

End Server.

(** ** The simulation server ([server.js]) *)
Module Sim.

(** *** Values and their persisted form

    The values the program keeps in memory. Numbers are the integers the
    program computes with, plus [NaN], which [parseInt] can return. *)
Inductive value :=
| VNull
| VBool (b : bool)
| VNum (n : Z)
| VNaN
| VStr (s : string)
| VArr (items : list value)
| VObj (fields : list (string * value)).

(** [JSON.parse(JSON.stringify(v))]: what a value reads back as once it
    has been written to a file. [NaN] is written as [null]; everything
    else the program stores is written as it is. *)
Fixpoint persisted (v : value) : value :=
  match v with
  | VNaN => VNull
  | VArr items => VArr (map persisted items)
  | VObj fields => VObj (map (fun kv => (fst kv, persisted (snd kv))) fields)
  | _ => v
  end.

(** A file is read back as the value last written to it; [None] is a
    file that is missing or does not parse. *)
Definition loadJson (file : option value) (defaultValue : value) : value :=
  match file with
  | Some v => v
  | None => defaultValue
  end.

(** [writeOk] tells whether [fs.writeFileSync] returns; when it throws
    the error is printed and the file stays as it was. *)
Definition saveJson (writeOk : bool) (file : option value) (obj : value)
    : option value :=
  if writeOk then Some (persisted obj) else file.

(** *** The [simulation] object *)
Record simulation := {
  running : bool;
  targetType : string;
  targetValue : string;
  delay : value;
  prefix : string;
  sessionId : string;
  uptime : Z;
  filePath : option string;
  totalLines : Z;
  currentIndex : Z;
  linesPreview : list string;
  lastSentAt : option string;
  number : option string
}.

Definition optStr (x : option string) : value :=
  match x with
  | Some s => VStr s
  | None => VNull
  end.

(** The object as a value, keys in the order of the literal that creates
    it. *)
Definition simulationValue (m : simulation) : value :=
  VObj [ ("running", VBool (running m));
         ("targetType", VStr (targetType m));
         ("targetValue", VStr (targetValue m));
         ("delay", delay m);
         ("prefix", VStr (prefix m));
         ("sessionId", VStr (sessionId m));
         ("uptime", VNum (uptime m));
         ("filePath", optStr (filePath m));
         ("totalLines", VNum (totalLines m));
         ("currentIndex", VNum (currentIndex m));
         ("linesPreview", VArr (map VStr (linesPreview m)));
         ("lastSentAt", optStr (lastSentAt m));
         ("number", optStr (number m)) ].

Definition asBool (v : value) : option bool :=
  match v with VBool b => Some b | _ => None end.
Definition asNum (v : value) : option Z :=
  match v with VNum n => Some n | _ => None end.
Definition asStr (v : value) : option string :=
  match v with VStr s => Some s | _ => None end.
Definition asOptStr (v : value) : option (option string) :=
  match v with VStr s => Some (Some s) | VNull => Some None | _ => None end.
Definition asStrings (v : value) : option (list string) :=
  match v with VArr items => mapM asStr items | _ => None end.

(** Reading the properties of a loaded object back into the record. A
    file of another shape (one this program did not write) is outside
    the model: [None]. *)
Definition readSimulation (v : value) : option simulation :=
  match v with
  | VObj f =>
      running' ← JsMap.get f "running" ≫= asBool;
      targetType' ← JsMap.get f "targetType" ≫= asStr;
      targetValue' ← JsMap.get f "targetValue" ≫= asStr;
      delay' ← JsMap.get f "delay";
      prefix' ← JsMap.get f "prefix" ≫= asStr;
      sessionId' ← JsMap.get f "sessionId" ≫= asStr;
      uptime' ← JsMap.get f "uptime" ≫= asNum;
      filePath' ← JsMap.get f "filePath" ≫= asOptStr;
      totalLines' ← JsMap.get f "totalLines" ≫= asNum;
      currentIndex' ← JsMap.get f "currentIndex" ≫= asNum;
      linesPreview' ← JsMap.get f "linesPreview" ≫= asStrings;
      lastSentAt' ← JsMap.get f "lastSentAt" ≫= asOptStr;
      number' ← JsMap.get f "number" ≫= asOptStr;
      Some {| running := running'; targetType := targetType';
              targetValue := targetValue'; delay := delay';
              prefix := prefix'; sessionId := sessionId';
              uptime := uptime'; filePath := filePath';
              totalLines := totalLines'; currentIndex := currentIndex';
              linesPreview := linesPreview'; lastSentAt := lastSentAt';
              number := number' |}
  | _ => None
  end.

(** The default state; [randomId] is
    [Math.random().toString(36).substring(2, 10)]. *)
Definition defaultSimulation (randomId : string) : simulation :=
  {| running := false; targetType := ""; targetValue := ""; delay := VNum 10;
     prefix := ""; sessionId := randomId; uptime := 0; filePath := None;
     totalLines := 0; currentIndex := 0; linesPreview := [];
     lastSentAt := None; number := None |}.

(** *** Process state *)

(** A log entry is an object. *)
Definition logEntry : Type := list (string * value).

Record state := {
  sim : simulation;
  logs : list logEntry;
  loopTimer : option Z;          (* the period of the interval, if one runs *)
  sessionsFile : option value;   (* sessions.json *)
  logsFile : option value        (* logs.json *)
}.

Definition withSim (m : simulation) (s : state) : state :=
  {| sim := m; logs := logs s; loopTimer := loopTimer s;
     sessionsFile := sessionsFile s; logsFile := logsFile s |}.

Definition withLoopTimer (t : option Z) (s : state) : state :=
  {| sim := sim s; logs := logs s; loopTimer := t;
     sessionsFile := sessionsFile s; logsFile := logsFile s |}.

(** [saveJson(SESSIONS_FILE, simulation)] *)
Definition saveSessions (writeOk : bool) (s : state) : state :=
  {| sim := sim s; logs := logs s; loopTimer := loopTimer s;
     sessionsFile := saveJson writeOk (sessionsFile s) (simulationValue (sim s));
     logsFile := logsFile s |}.

(** *** The log *)

Definition LOG_CAP : nat := 2000.

(** [{ ...a, ...b }]: the keys of [b] overwrite or extend [a]. *)
Definition spread (a b : list (string * value)) : list (string * value) :=
  fold_left (fun o kv => JsMap.set o (fst kv) (snd kv)) b a.

(** [logs.push(obj); if (logs.length > 2000) logs = logs.slice(logs.length - 2000)] *)
Definition pushCapped (l : list logEntry) (obj : logEntry) : list logEntry :=
  let l := (l ++ [obj])%list in
  if (LOG_CAP <? length l)%nat then drop (length l - LOG_CAP) l else l.

(** [now] is [new Date().toISOString()]. *)
Definition appendLog (now : string) (writeOk : bool) (entry : logEntry)
    (s : state) : state :=
  let obj := spread [("time", VStr now)] entry in
  let l := pushCapped (logs s) obj in
  {| sim := sim s; logs := l; loopTimer := loopTimer s;
     sessionsFile := sessionsFile s;
     logsFile := saveJson writeOk (logsFile s) (VArr (map VObj l)) |}.

(** *** Reading the upload *)

(** [raw.split(/\r?\n/)]: a line feed separates, and a carriage return
    right before it belongs to the separator. *)
Fixpoint splitLines (s : string) : list string :=
  match s with
  | EmptyString => [EmptyString]
  | String c r =>
      if Ascii.eqb c "010"%char then EmptyString :: splitLines r
      else if Ascii.eqb c "013"%char
                && match r with
                   | String c' _ => Ascii.eqb c' "010"%char
                   | EmptyString => false
                   end
      then splitLines r
      else match splitLines r with
           | h :: t => String c h :: t
           | [] => [String c EmptyString]
           end
  end.

Definition readLinesFromFile (raw : string) : list string :=
  List.filter Server.nonEmpty (map Server.trim (splitLines raw)).

(** *** [parseInt], [Math.max], [Math.min] with [NaN] as [None] *)

Definition digitValue (c : ascii) : option Z :=
  let n := Z.of_N (N_of_ascii c) in
  if (48 <=? n) && (n <=? 57) then Some (n - 48)
  else if (97 <=? n) && (n <=? 122) then Some (n - 87)
  else if (65 <=? n) && (n <=? 90) then Some (n - 55)
  else None.

Fixpoint parseDigits (radix : Z) (s : string) (acc : option Z) : option Z :=
  match s with
  | EmptyString => acc
  | String c r =>
      match digitValue c with
      | Some d =>
          if d <? radix
          then parseDigits radix r (Some (Server.orZero acc * radix + d))
          else acc
      | None => acc
      end
  end.

(** [parseInt(s)] or [parseInt(s, 10)] on a string: white space, a sign,
    an [0x] prefix when no radix is given, then digits. *)
Definition parseIntString (radix10 : bool) (s : string) : option Z :=
  let s := Server.trimStart s in
  let '(negative, s) :=
    match s with
    | String "-"%char r => (true, r)
    | String "+"%char r => (false, r)
    | _ => (false, s)
    end in
  let '(radix, s) :=
    match s with
    | String "0"%char (String x r) =>
        if negb radix10 && (Ascii.eqb x "x"%char || Ascii.eqb x "X"%char)
        then (16, r) else (10, s)
    | _ => (10, s)
    end in
  (fun n => if negative : bool then - n else n) <$> parseDigits radix s None.

(** [parseInt] on a stored value: an integer reads back as itself, a
    string is parsed, [NaN], [null] and booleans give [NaN] (arrays and
    objects are never passed). *)
Definition parseIntValue (radix10 : bool) (v : value) : option Z :=
  match v with
  | VNum n => Some n
  | VStr s => parseIntString radix10 s
  | _ => None
  end.

Definition mathMax (a : Z) (x : option Z) : option Z := Z.max a <$> x.
Definition mathMin (a : Z) (x : option Z) : option Z := Z.min a <$> x.

Definition numValue (x : option Z) : value :=
  match x with
  | Some n => VNum n
  | None => VNaN
  end.

(** [x || 10] on a number. *)
Definition orTen (x : option Z) : Z :=
  match x with
  | Some 0 | None => 10
  | Some n => n
  end.

(** [Math.max(1000, (parseInt(simulation.delay, 10) || 10) * 1000)] *)
Definition delayMs (m : simulation) : Z :=
  Z.max 1000 (orTen (parseIntValue true (delay m)) * 1000).

(** *** The loop *)

Definition startLoop (s : state) : state :=
  if negb (Server.truthy (filePath (sim s))) then s
  else withLoopTimer (Some (delayMs (sim s))) s.

(** What reading the upload gives: its text, or the error thrown. *)
Inductive readResult :=
| ReadOk (raw : string)
| ReadFails (error : string).

(** [lines[i]] inside a string concatenation: a miss prints as
    "undefined". *)
Definition lineAt (lines : list string) (i : Z) : string :=
  if i <? 0 then "undefined"
  else default "undefined" (lines !! Z.to_nat i).

(** One firing of the interval. [logTime] and [sentTime] are the two
    clock readings, [wSessions] and [wLogs] whether the two files can be
    written. *)
Definition tick (logTime sentTime : string) (wSessions wLogs : bool)
    (file : readResult) (s : state) : state :=
  if negb (running (sim s)) then s
  else
    match file with
    | ReadFails e =>
        appendLog logTime wLogs
          [("type", VStr "error");
           ("message", VStr "Failed reading upload file");
           ("error", VStr e)] s
    | ReadOk raw =>
        let lines := readLinesFromFile raw in
        let n := Z.of_nat (length lines) in
        if n =? 0 then s
        else
          let m := sim s in
          let index := if n <=? currentIndex m then 0 else currentIndex m in
          let textToSend :=
            (if Server.nonEmpty (prefix m) then prefix m +:+ " " else "")
            +:+ lineAt lines index in
          let s :=
            appendLog logTime wLogs
              [("action", VStr "simulated-send");
               ("targetType", VStr (targetType m));
               ("targetValue", VStr (targetValue m));
               ("message", VStr textToSend);
               ("index", VNum index)] s in
          let next := if n <=? index + 1 then 0 else index + 1 in
          saveSessions wSessions
            (withSim
               {| running := running m; targetType := targetType m;
                  targetValue := targetValue m; delay := delay m;
                  prefix := prefix m; sessionId := sessionId m;
                  uptime := uptime m; filePath := filePath m;
                  totalLines := n; currentIndex := next;
                  linesPreview := linesPreview m;
                  lastSentAt := Some sentTime; number := number m |} s)
    end.

(** The one-second interval: [if (simulation.running) simulation.uptime += 1]. *)
Definition uptimeTick (s : state) : state :=
  let m := sim s in
  if running m then
    withSim
      {| running := running m; targetType := targetType m;
         targetValue := targetValue m; delay := delay m;
         prefix := prefix m; sessionId := sessionId m;
         uptime := uptime m + 1; filePath := filePath m;
         totalLines := totalLines m; currentIndex := currentIndex m;
         linesPreview := linesPreview m; lastSentAt := lastSentAt m;
         number := number m |} s
  else s.

(** *** [POST /pair] *)

(** Doubles that are whole multiples of [2^-53] are counted in that unit.
    [roundDouble n] is [n] units rounded to the nearest double, ties to
    even, as every IEEE 754 operation rounds its exact result: [n] keeps
    its 53 leading bits. (All values below are far from the ends of the
    exponent range.) *)
Definition roundDouble (n : Z) : Z :=
  let sh := Z.log2 n - 52 in
  if sh <=? 0 then n
  else
    let q := n / 2 ^ sh in
    let r := n mod 2 ^ sh in
    let half := 2 ^ (sh - 1) in
    (if (half <? r) || ((r =? half) && Z.odd q) then q + 1 else q) * 2 ^ sh.

(** [Math.floor(100000 + Math.random() * 900000)], the draw being the
    double [k / 2^53] with [0 <= k < 2^53]: the product is [k * 900000]
    units, rounded; the sum adds the [100000 * 2^53] units of 100000 and
    is rounded again; [Math.floor] drops the fraction. *)
Definition randomCode (k : Z) : Z :=
  roundDouble (100000 * 2 ^ 53 + roundDouble (k * 900000)) / 2 ^ 53.

(** The handler; the second component is the [pairingCode] of the
    response. *)
Definition pairHandler (number' : option string) (k : Z) (now : string)
    (wSessions wLogs : bool) (s : state) : state * value :=
  let code := randomCode k in
  let m := sim s in
  let number'' := if Server.truthy number' then number' else number m in
  let s :=
    saveSessions wSessions
      (withSim
         {| running := running m; targetType := targetType m;
            targetValue := targetValue m; delay := delay m;
            prefix := prefix m; sessionId := sessionId m;
            uptime := uptime m; filePath := filePath m;
            totalLines := totalLines m; currentIndex := currentIndex m;
            linesPreview := linesPreview m; lastSentAt := lastSentAt m;
            number := number'' |} s) in
  (appendLog now wLogs
     [("type", VStr "pair"); ("number", optStr number'');
      ("pairingCode", VNum code)] s,
   VNum code).

(** *** [POST /upload], [POST /start], [POST /stop] *)

Record upload := {
  path : string;
  originalname : string
}.

Inductive uploadResponse :=
| UploadMissing                  (* 400 *)
| UploadUnreadable               (* 500 *)
| UploadSaved (totalLines : Z).

Definition uploadHandler (file : option upload) (content : readResult)
    (now : string) (wSessions wLogs : bool) (s : state)
    : state * uploadResponse :=
  match file with
  | None => (s, UploadMissing)
  | Some f =>
      let m := sim s in
      match content with
      | ReadFails _ =>
          (withSim
             {| running := running m; targetType := targetType m;
                targetValue := targetValue m; delay := delay m;
                prefix := prefix m; sessionId := sessionId m;
                uptime := uptime m; filePath := Some (path f);
                totalLines := totalLines m; currentIndex := currentIndex m;
                linesPreview := linesPreview m; lastSentAt := lastSentAt m;
                number := number m |} s,
           UploadUnreadable)
      | ReadOk raw =>
          let lines := readLinesFromFile raw in
          let n := Z.of_nat (length lines) in
          let s :=
            saveSessions wSessions
              (withSim
                 {| running := running m; targetType := targetType m;
                    targetValue := targetValue m; delay := delay m;
                    prefix := prefix m; sessionId := sessionId m;
                    uptime := uptime m; filePath := Some (path f);
                    totalLines := n; currentIndex := 0;
                    linesPreview := take 20 lines;
                    lastSentAt := lastSentAt m; number := number m |} s) in
          let s :=
            appendLog now wLogs
              [("type", VStr "upload"); ("filename", VStr (originalname f));
               ("totalLines", VNum n)] s in
          (if running (sim s) then startLoop s else s, UploadSaved n)
      end
  end.

(** [x || y] on a form field (a string when present) and a stored
    string. *)
Definition orString (x : option string) (y : string) : string :=
  match x with
  | Some v => if Server.nonEmpty v then v else y
  | None => y
  end.

Definition startHandler (targetType' targetValue' delay' prefix' : option string)
    (now : string) (wSessions wLogs : bool) (s : state) : state :=
  let m := sim s in
  let delayArg :=
    match delay' with
    | Some d => if Server.nonEmpty d then VStr d else delay m
    | None => delay m
    end in
  let m' :=
    {| running := true;
       targetType := orString targetType' (targetType m);
       targetValue := orString targetValue' (targetValue m);
       delay := numValue (mathMin 60 (mathMax 1 (parseIntValue false delayArg)));
       prefix := orString prefix' (prefix m);
       sessionId := sessionId m; uptime := 0; filePath := filePath m;
       totalLines := totalLines m; currentIndex := currentIndex m;
       linesPreview := linesPreview m; lastSentAt := lastSentAt m;
       number := number m |} in
  let s := saveSessions wSessions (withSim m' s) in
  let s :=
    appendLog now wLogs
      [("type", VStr "start"); ("targetType", VStr (targetType m'));
       ("targetValue", VStr (targetValue m')); ("delay", delay m')] s in
  if Server.truthy (filePath m') then startLoop s else s.

Definition stopHandler (now : string) (wSessions wLogs : bool) (s : state)
    : state :=
  let m := sim s in
  let s :=
    withLoopTimer None
      (withSim
         {| running := false; targetType := targetType m;
            targetValue := targetValue m; delay := delay m;
            prefix := prefix m; sessionId := sessionId m;
            uptime := uptime m; filePath := filePath m;
            totalLines := totalLines m; currentIndex := currentIndex m;
            linesPreview := linesPreview m; lastSentAt := lastSentAt m;
            number := number m |} s) in
  appendLog now wLogs [("type", VStr "stop")] (saveSessions wSessions s).

(** *** Start of the process *)

Definition asObject (v : value) : option logEntry :=
  match v with VObj f => Some f | _ => None end.
Definition asObjects (v : value) : option (list logEntry) :=
  match v with VArr items => mapM asObject items | _ => None end.

(** The module body and the [app.listen] callback: both files are
    loaded, and the loop starts again when the loaded state says it ran
    and names a file. *)
Definition boot (sessionsJson logsJson : option value) (randomId : string)
    : option state :=
  m ← readSimulation
        (loadJson sessionsJson (simulationValue (defaultSimulation randomId)));
  l ← asObjects (loadJson logsJson (VArr []));
  let s :=
    {| sim := m; logs := l; loopTimer := None;
       sessionsFile := sessionsJson; logsFile := logsJson |} in
  Some (if running m && Server.truthy (filePath m) then startLoop s else s).

(** *** [GET /logs] *)

(** [logs.slice(start)], [start] being [NaN] ([None], read as 0) or a
    number that is not negative. *)
Definition sliceFrom {A} (start : option Z) (l : list A) : list A :=
  match start with
  | Some k => drop (Z.to_nat k) l
  | None => l
  end.

(** The handler answers [{ count, logs }]; [n'] is [req.query.n]. The
    value is what [res.json] writes. *)
Definition logsHandler (n' : option string) (s : state) : value :=
  let n :=
    mathMin 2000
      (mathMax 1
         (parseIntString false
            (match n' with
             | Some v => if Server.nonEmpty v then v else "200"
             | None => "200"
             end))) in
  let len := Z.of_nat (length (logs s)) in
  let start := Z.max 0 <$> ((fun n => len - n) <$> n) in
  persisted
    (VObj [("count", VNum len);
           ("logs", VArr (map VObj (sliceFrom start (logs s))))]).

(** *** The simulation as a transition system *)

Inductive event :=
| EUptime
| ETick (logTime sentTime : string) (wSessions wLogs : bool) (file : readResult)
| EPair (number' : option string) (k : Z) (now : string) (wSessions wLogs : bool)
| EUpload (file : option upload) (content : readResult) (now : string)
    (wSessions wLogs : bool)
| EStart (targetType' targetValue' delay' prefix' : option string)
    (now : string) (wSessions wLogs : bool)
| EStop (now : string) (wSessions wLogs : bool).

(** The interval fires only while it is set. *)
Definition step (s : state) (e : event) : option state :=
  match e with
  | EUptime => Some (uptimeTick s)
  | ETick logTime sentTime wS wL file =>
      match loopTimer s with
      | Some _ => Some (tick logTime sentTime wS wL file s)
      | None => None
      end
  | EPair number' k now wS wL => Some (fst (pairHandler number' k now wS wL s))
  | EUpload file content now wS wL =>
      Some (fst (uploadHandler file content now wS wL s))
  | EStart targetType' targetValue' delay' prefix' now wS wL =>
      Some (startHandler targetType' targetValue' delay' prefix' now wS wL s)
  | EStop now wS wL => Some (stopHandler now wS wL s)
  end.

Fixpoint run (s : state) (es : list event) : option state :=
  match es with
  | [] => Some s
  | e :: es' => s' ← step s e; run s' es'
  end.

End Sim.

(** ** Vocabulary of the properties *)

(** The sessions the keep-alive ticker addresses, in registry order. *)
Definition pinged (m : list (string * Server.clientInfo)) : list string :=
  map fst
    (List.filter
       (fun e => Server.connected (snd e)
                 && bool_decide (is_Some (Server.client (snd e)))) m).

(** The line the ticker prints for a session. *)
Definition keepAliveLine (ping : string -> Server.pingOutcome) (sid : string)
    : Server.logLine :=
  match ping sid with
  | Server.PingThrows => Server.LogKeepAliveFailed sid
  | _ => Server.LogKeepAlive sid
  end.

(** The pings of a tick whose promise is rejected. *)
Definition rejectedPings (ping : string -> Server.pingOutcome)
    (m : list (string * Server.clientInfo)) : list string :=
  List.filter
    (fun sid => match ping sid with Server.PingRejects => true | _ => false end)
    (pinged m).

(** Every registered session has a retry count within the bound. *)
Definition retriesBounded (s : Server.state) : Prop :=
  Forall (fun e => 0 <= Server.retryCount (snd e) <= Server.MAX_RETRIES)
         (Server.activeClients s).

(** The part of the state the session lifecycle owns, and the part the
    task engine owns. *)
Definition sessionPart (s : Server.state) :=
  (Server.activeClients s, Server.reconnectTimers s, Server.presence s).
Definition taskPart (s : Server.state) :=
  (Server.activeTasks s, Server.loops s, Server.outbox s).

Definition isSessionEvent (e : Server.event) : bool :=
  match e with
  | Server.ECode _ _ _ _ | Server.EConnectionUpdate _ _ _
  | Server.EReconnectTimer _ _ _ | Server.EKeepAlive _ => true
  | _ => false
  end.

(** The calls of [sendMessage] made for one task, oldest first. *)
Definition sendsOf (tid : string) (s : Server.state) : list Server.sendCall :=
  List.filter (fun c => String.eqb (Server.callTask c) tid) (Server.outbox s).

(** All that concerns one task: its registry entry, its loop, its sends. *)
Definition taskView (tid : string) (s : Server.state) :=
  (JsMap.get (Server.activeTasks s) tid, Server.loops s !! tid, sendsOf tid s).

(** The loop of the task will not call [sendMessage] again: it sleeps with
    the stop flag up (or the entry gone), or it has left the [for]. *)
Definition loopParked (tid : string) (s : Server.state) : Prop :=
  match Server.loops s !! tid with
  | Some lp =>
      match Server.pc lp with
      | Server.AwaitDelay _ =>
          match JsMap.get (Server.activeTasks s) tid with
          | Some t => Server.stopRequested t = true
          | None => True
          end
      | Server.AwaitEviction | Server.Evicted => True
      | Server.AwaitSend _ => False
      end
  | None => False
  end.

(** What ties a registered task to its loop: the total is the number of
    messages the loop holds, the count follows the loop variable, and the
    task has its end date exactly when the loop has left the [for]. *)
Definition taskCounted (t : Server.taskInfo) (lp : Server.sendLoop) : Prop :=
  Server.totalMessages t = Z.of_nat (length (Server.loopMessages lp))
  ∧ 0 <= Server.sentMessages t
  ∧ match Server.pc lp with
    | Server.AwaitSend i =>
        Server.sentMessages t <= Z.of_nat i
        ∧ (i < length (Server.loopMessages lp))%nat
        ∧ Server.endedAt t = None
    | Server.AwaitDelay i =>
        Server.sentMessages t <= Z.of_nat i + 1
        ∧ (i < length (Server.loopMessages lp))%nat
        ∧ Server.endedAt t = None
    | Server.AwaitEviction =>
        Server.sentMessages t <= Server.totalMessages t
        ∧ is_Some (Server.endedAt t)
    | Server.Evicted => False
    end.

Definition tasksCounted (s : Server.state) : Prop :=
  ∀ tid t, JsMap.get (Server.activeTasks s) tid = Some t →
    ∃ lp, Server.loops s !! tid = Some lp ∧ taskCounted t lp.

(** The task an event is about, if any. *)
Definition eventTask (e : Server.event) : option string :=
  match e with
  | Server.ESendMessage _ taskId _ _ | Server.ESendSettled taskId _ _
  | Server.EDelayElapsed taskId _ | Server.EEvictionTimer taskId => Some taskId
  | Server.EStopTask taskId => taskId
  | _ => None
  end.

(** One step seen from a task that is registered before and after it:
    the total is fixed, the count does not go down, and once the task has
    its end date it keeps it and the count stays put. *)
Definition countAdvances (t t' : Server.taskInfo) : Prop :=
  Server.totalMessages t' = Server.totalMessages t
  ∧ Server.sentMessages t <= Server.sentMessages t'
  ∧ (is_Some (Server.endedAt t) →
       Server.sentMessages t' = Server.sentMessages t
       ∧ is_Some (Server.endedAt t')).

(** The entry of the status report for a task. *)
Definition reportedTask (tid : string) (s : Server.state)
    : option Server.taskStatus :=
  List.find (fun st => String.eqb (Server.stTaskId st) tid)
            (snd (Server.status s)).

(** The request carries all four form fields and an upload. *)
Definition requestComplete (req : Server.sendRequest) : Prop :=
  Server.truthy (Server.reqTarget req) = true
  ∧ Server.truthy (Server.reqFilePath req) = true
  ∧ Server.truthy (Server.reqTargetType req) = true
  ∧ Server.truthy (Server.reqDelaySec req) = true.

(** The last [n] elements of a list, in their order. *)
Definition lastN {A} (n : nat) (l : list A) : list A :=
  drop (length l - n) l.

(** The object [appendLog] stores for an entry. *)
Definition logObject (now : string) (entry : Sim.logEntry) : Sim.logEntry :=
  Sim.spread [("time", Sim.VStr now)] entry.

(** A series of [appendLog] calls: clock reading, write outcome, entry. *)
Definition appendAll (calls : list (string * bool * Sim.logEntry))
    (s : Sim.state) : Sim.state :=
  fold_left (fun s c => Sim.appendLog (fst (fst c)) (snd (fst c)) (snd c) s)
            calls s.

(** The object a sending firing of the loop logs, before the time stamp
    is added. *)
Definition sendEntry (m : Sim.simulation) (lines : list string) (index : Z)
    : Sim.logEntry :=
  [("action", Sim.VStr "simulated-send");
   ("targetType", Sim.VStr (Sim.targetType m));
   ("targetValue", Sim.VStr (Sim.targetValue m));
   ("message",
    Sim.VStr ((if Server.nonEmpty (Sim.prefix m) then Sim.prefix m +:+ " " else "")
              +:+ Sim.lineAt lines index));
   ("index", Sim.VNum index)].

(** A [simulation] as it reads back from its own snapshot. *)
Definition reloaded (m : Sim.simulation) : Sim.simulation :=
  {| Sim.running := Sim.running m; Sim.targetType := Sim.targetType m;
     Sim.targetValue := Sim.targetValue m;
     Sim.delay := Sim.persisted (Sim.delay m);
     Sim.prefix := Sim.prefix m; Sim.sessionId := Sim.sessionId m;
     Sim.uptime := Sim.uptime m; Sim.filePath := Sim.filePath m;
     Sim.totalLines := Sim.totalLines m;
     Sim.currentIndex := Sim.currentIndex m;
     Sim.linesPreview := Sim.linesPreview m;
     Sim.lastSentAt := Sim.lastSentAt m; Sim.number := Sim.number m |}.

(** A loop with its program counter moved. *)
Definition withPc (lp : Server.sendLoop) (p : Server.loopPc) : Server.sendLoop :=
  {| Server.loopClient := Server.loopClient lp;
     Server.loopJid := Server.loopJid lp;
     Server.loopPrefix := Server.loopPrefix lp;
     Server.loopMessages := Server.loopMessages lp;
     Server.loopFile := Server.loopFile lp;
     Server.pc := p |}.

(** The call the loop makes for message [m] at index [i]. *)
Definition callOf (tid : string) (lp : Server.sendLoop) (i : nat) (m : string)
    : Server.sendCall :=
  {| Server.callTask := tid; Server.callIndex := i;
     Server.callClient := Server.loopClient lp;
     Server.callJid := Server.loopJid lp;
     Server.callText := Server.textToSend (Server.loopPrefix lp) m |}.

(** The calls for the first [n] messages of a loop, in order. *)
Definition expectedCalls (tid : string) (lp : Server.sendLoop) (n : nat)
    : list Server.sendCall :=
  imap (callOf tid lp) (take n (Server.loopMessages lp)).

(** The address [/send-message] sends to for a request: for a target of
    type "number" its digits followed by [@s.whatsapp.net], for any other
    type the target as typed. *)
Definition requestJid (req : Server.sendRequest) : string :=
  let target := default "" (Server.reqTarget req) in
  if String.eqb (default "" (Server.reqTargetType req)) "number"
  then Server.keepDigits target +:+ "@s.whatsapp.net"
  else target.

(** The call for line [i] of the upload of a request: on the client the
    task was started with, to the address of the request, with its
    prefix. *)
Definition uploadCall (tid : string) (h : nat) (req : Server.sendRequest)
    (i : nat) (m : string) : Server.sendCall :=
  {| Server.callTask := tid; Server.callIndex := i; Server.callClient := h;
     Server.callJid := requestJid req;
     Server.callText :=
       Server.textToSend (default "" (Server.reqPrefix req)) m |}.

(** The sends of every task are the calls for an initial stretch of its
    messages; while the loop is inside iteration [i] the stretch ends at
    [i]. A task identifier without a loop has no sends. *)
Definition sendsInOrder (s : Server.state) : Prop :=
  ∀ tid,
    match Server.loops s !! tid with
    | Some lp =>
        ∃ n, (n ≤ length (Server.loopMessages lp))%nat
          ∧ sendsOf tid s = expectedCalls tid lp n
          ∧ match Server.pc lp with
            | Server.AwaitSend i | Server.AwaitDelay i => n = S i
            | _ => True
            end
    | None => sendsOf tid s = []
    end.

(** The events of a loop that is left alone: each send settles (with the
    given outcome, at the given time) and each sleep ends. *)
Definition schedule (tid : string) (outcomes : list (bool * Z * Z))
    : list Server.event :=
  flat_map (fun o => [Server.ESendSettled tid (fst (fst o)) (snd (fst o));
                      Server.EDelayElapsed tid (snd o)]) outcomes.

(** How many sends resolved. *)
Definition resolved (outcomes : list (bool * Z * Z)) : Z :=
  Z.of_nat (length (List.filter (fun o => fst (fst o)) outcomes)).

(** The eviction timer of the task has fired and its entry is gone. *)
Definition taskGone (tid : string) (s : Server.state) : Prop :=
  (∃ lp, Server.loops s !! tid = Some lp ∧ Server.pc lp = Server.Evicted)
  ∧ JsMap.get (Server.activeTasks s) tid = None.

(** A series of close events on one socket, each with its status code
    and time. *)
Definition closes (loggedOut : Z) (sk : Server.socket)
    (cs : list (option Z * Z)) (s : Server.state) : Server.state :=
  fold_left
    (fun s c => Server.onConnectionUpdate loggedOut sk
                  (Server.ConnClose (fst c)) (snd c) s)
    cs s.

(** The retry count the close handler reads for a session. *)
Definition retriesOf (sid : string) (s : Server.state) : Z :=
  Server.orZero (Server.retryCount <$> JsMap.get (Server.activeClients s) sid).

(** An entry the keep-alive ticker and [/groups] skip. *)
Definition unusable (e : string * Server.clientInfo) : Prop :=
  Server.connected (snd e) = false ∨ Server.client (snd e) = None.

(** Every connection event in the list comes from a socket whose session
    identifier is not empty. *)
Definition socketsNamed (es : list Server.event) : Prop :=
  Forall (fun e => match e with
                   | Server.EConnectionUpdate sk _ _ =>
                       Server.sockSession sk ≠ ""
                   | _ => True
                   end) es.

(** A delay the simulation can hold: what [/start] stores (a number from
    1 to 60, or [NaN]) and what a [NaN] reads back as. *)
Definition delayStored (d : Sim.value) : Prop :=
  d = Sim.VNaN ∨ d = Sim.VNull ∨ ∃ n, d = Sim.VNum n ∧ 1 <= n <= 60.

(** What the handlers of the simulation keep true. *)
Definition simOk (s : Sim.state) : Prop :=
  let m := Sim.sim s in
  0 <= Sim.currentIndex m
  ∧ (Sim.currentIndex m < Sim.totalLines m ∨ Sim.currentIndex m = 0)
  ∧ (length (Sim.linesPreview m) ≤ 20)%nat
  ∧ delayStored (Sim.delay m)
  ∧ match Sim.loopTimer s with
    | Some period => Sim.running m = true ∧ 1000 <= period <= 60000
    | None => True
    end.

Definition isStart (e : Sim.event) : bool :=
  match e with Sim.EStart _ _ _ _ _ _ _ => true | _ => false end.

Definition isTick (e : Sim.event) : bool :=
  match e with Sim.ETick _ _ _ _ _ => true | _ => false end.

(** Two [simulation] objects that differ at most in [uptime]. *)
Definition agreeButUptime (m m' : Sim.simulation) : Prop :=
  Sim.running m = Sim.running m'
  ∧ Sim.targetType m = Sim.targetType m'
  ∧ Sim.targetValue m = Sim.targetValue m'
  ∧ Sim.delay m = Sim.delay m'
  ∧ Sim.prefix m = Sim.prefix m'
  ∧ Sim.sessionId m = Sim.sessionId m'
  ∧ Sim.filePath m = Sim.filePath m'
  ∧ Sim.totalLines m = Sim.totalLines m'
  ∧ Sim.currentIndex m = Sim.currentIndex m'
  ∧ Sim.linesPreview m = Sim.linesPreview m'
  ∧ Sim.lastSentAt m = Sim.lastSentAt m'
  ∧ Sim.number m = Sim.number m'.

(** [sessions.json] holds a snapshot of the simulation as it is now, up
    to [uptime]. *)
Definition synced (s : Sim.state) : Prop :=
  ∃ m, Sim.sessionsFile s = Some (Sim.persisted (Sim.simulationValue m))
       ∧ agreeButUptime m (Sim.sim s).

(** The event writes [sessions.json] when it tries to, and is not an
    upload that cannot be read. *)
Definition savesState (e : Sim.event) : bool :=
  match e with
  | Sim.EUptime => true
  | Sim.ETick _ _ wS _ _ => wS
  | Sim.EPair _ _ _ wS _ => wS
  | Sim.EUpload f c _ wS _ =>
      match f, c with
      | Some _, Sim.ReadFails _ => false
      | _, _ => wS
      end
  | Sim.EStart _ _ _ _ _ wS _ => wS
  | Sim.EStop _ wS _ => wS
  end.

(** Both files are missing or hold what this program writes. *)
Definition filesOwn (s : Sim.state) : Prop :=
  (∀ v, Sim.sessionsFile s = Some v →
     ∃ m, v = Sim.persisted (Sim.simulationValue m))
  ∧ (∀ v, Sim.logsFile s = Some v →
     ∃ l : list Sim.logEntry, v = Sim.persisted (Sim.VArr (map Sim.VObj l))).

(** Firings of the loop that all read the same upload; each has its two
    clock readings and its two write outcomes. *)
Definition firings (raw : string) (ps : list (string * string * bool * bool))
    : list Sim.event :=
  map (fun p => Sim.ETick (fst (fst (fst p))) (snd (fst (fst p)))
                  (snd (fst p)) (snd p) (Sim.ReadOk raw)) ps.

(** What such firings log when they start at index [start]: one line
    after the other, going round the file. *)
Definition firingLogs (m : Sim.simulation) (lines : list string) (start : Z)
    (ps : list (string * string * bool * bool)) : list Sim.logEntry :=
  imap (fun j p =>
          logObject (fst (fst (fst p)))
            (sendEntry m lines
               ((start + Z.of_nat j) mod Z.of_nat (length lines)))) ps.

(** How many entries [/logs] answers for a query [n]. *)
Definition logsAsked (n' : option string) (s : Sim.state) : nat :=
  match Sim.parseIntString false
          (match n' with
           | Some v => if Server.nonEmpty v then v else "200"
           | None => "200"
           end) with
  | Some n => Z.to_nat (Z.min 2000 (Z.max 1 n))
  | None => length (Sim.logs s)
  end.

(** The text is made of white-space characters only. *)
Inductive blank : string -> Prop :=
| blank_empty : blank ""
| blank_space (w s : string) :
    In w Server.whiteSpace -> blank s -> blank (w +:+ s).

(** The text holds ASCII characters only. *)
Definition withinAscii (s : string) : Prop :=
  Forall (fun c => (N_of_ascii c < 128)%N) (list_ascii_of_string s).

(** The pieces of a split put together again around the separator. *)
Fixpoint joinWith (sep : string) (l : list string) : string :=
  match l with
  | [] => ""
  | [x] => x
  | x :: l' => x +:+ sep +:+ joinWith sep l'
  end.

(** A piece cut at a line feed against the same piece cut at an optional
    carriage return and a line feed: equal, or one carriage return
    longer. *)
Definition sameLine (p q : string) : Prop :=
  q = p ∨ q = p +:+ String "013"%char EmptyString.

(** ** Sample runs *)

Definition sampleSocket : Server.socket :=
  {| Server.sockSession := "perm_9779800000_1700000000000";
     Server.sockPhone := "9779800000";
     Server.sockHandle := 1%nat;
     Server.sockReconnect := false |}.

Definition sampleWaSocket : Server.waSocket :=
  {| Server.registered := false; Server.requestPairingCode := None |}.

(** A session paired at time 1700000000000 and opened a little later. *)
Definition connectedTrace : list Server.event :=
  [ Server.ECode (Some "+977 98-00000") 1700000000000 (Server.InitOk 1%nat)
      sampleWaSocket;
    Server.EConnectionUpdate sampleSocket Server.ConnOpen 1700000003000 ].

Definition connectedState : Server.state :=
  default Server.initial (Server.run 401 Server.initial connectedTrace).

(** The session of [connectedTrace] loses its connection (code 428) and
    the reconnect that follows fails inside [initializeClient]. *)
Definition droppedTrace : list Server.event :=
  connectedTrace
  ++ [ Server.EConnectionUpdate sampleSocket (Server.ConnClose (Some 428))
         1700000100000 ].

Definition failedReinit : Server.event :=
  Server.EReconnectTimer "perm_9779800000_1700000000000" "9779800000"
    Server.InitThrows.

(** A keep-alive tick at which the provider rejects every presence
    update. *)
Definition rejectedTick : Server.event :=
  Server.EKeepAlive (fun _ => Server.PingRejects).

(** A task of five messages started on the session of [connectedTrace];
    its first send has resolved and the loop sleeps before the second. *)
Definition lineFeed : string := String "010"%char EmptyString.

Definition fiveMessages : string :=
  "one" +:+ lineFeed +:+ "two" +:+ lineFeed +:+ "three" +:+ lineFeed
  +:+ "four" +:+ lineFeed +:+ "five" +:+ lineFeed.

Definition sampleRequest : Server.sendRequest :=
  {| Server.reqTarget := Some "+91 98765 43210";
     Server.reqTargetType := Some "number";
     Server.reqDelaySec := Some "1";
     Server.reqPrefix := None;
     Server.reqFilePath := Some "uploads/3f2a" |}.

Definition firstSentTrace : list Server.event :=
  connectedTrace
  ++ [ Server.ESendMessage sampleRequest "task_1700000200000_k3x9a"
         1700000200000 (Some fiveMessages);
       Server.ESendSettled "task_1700000200000_k3x9a" true 1700000200400 ].

Definition firstSentState : Server.state :=
  default Server.initial (Server.run 401 Server.initial firstSentTrace).

(** What follows a stop issued in that state: the sleep ends, later the
    eviction timer fires. *)
Definition afterStopTrace : list Server.event :=
  [ Server.EDelayElapsed "task_1700000200000_k3x9a" 1700000201400;
    Server.EKeepAlive (fun _ => Server.PingResolves);
    Server.EEvictionTimer "task_1700000200000_k3x9a" ].

(** The same task right after its start: the first send is in flight. *)
Definition startedTrace : list Server.event :=
  connectedTrace
  ++ [ Server.ESendMessage sampleRequest "task_1700000200000_k3x9a"
         1700000200000 (Some fiveMessages) ].

Definition startedState : Server.state :=
  default Server.initial (Server.run 401 Server.initial startedTrace).

(** A session that was paired but whose connection never opened. *)
Definition pairedState : Server.state :=
  default Server.initial
    (Server.run 401 Server.initial
       [ Server.ECode (Some "+977 98-00000") 1700000000000
           (Server.InitOk 1%nat) sampleWaSocket ]).

(** The simulation started on an empty disk. *)
Definition freshSim : Sim.state :=
  {| Sim.sim := Sim.defaultSimulation "k3j9x2ab"; Sim.logs := [];
     Sim.loopTimer := None; Sim.sessionsFile := None; Sim.logsFile := None |}.

Definition threeLines : string :=
  "alpha" +:+ lineFeed +:+ "beta" +:+ lineFeed +:+ "gamma" +:+ lineFeed.

(** An upload of three lines, a start with a delay that is not a number,
    and two firings of the loop. *)
Definition simTrace : list Sim.event :=
  [ Sim.EUpload (Some {| Sim.path := "uploads/9c1e"; Sim.originalname := "lines.txt" |})
      (Sim.ReadOk threeLines) "2024-05-01T10:00:00.000Z" true true;
    Sim.EStart (Some "group") (Some "120363000000000000@g.us") (Some "soon")
      (Some "hello") "2024-05-01T10:00:05.000Z" true true;
    Sim.ETick "2024-05-01T10:00:15.000Z" "2024-05-01T10:00:15.001Z" true true
      (Sim.ReadOk threeLines);
    Sim.ETick "2024-05-01T10:00:25.000Z" "2024-05-01T10:00:25.001Z" true true
      (Sim.ReadOk threeLines) ].

Definition simState : Sim.state :=
  default freshSim (Sim.run freshSim simTrace).

(** A provider whose socket can request pairing codes. *)
Definition pairingWaSocket : Server.waSocket :=
  {| Server.registered := false;
     Server.requestPairingCode := Some (fun _ => Some "K7QM2XDP") |}.

(** A whole task of three messages, each send resolving. *)
Definition threeMessages : string :=
  "a" +:+ lineFeed +:+ "b" +:+ lineFeed +:+ "c".

Definition wholeTaskTrace : list Server.event :=
  connectedTrace
  ++ [ Server.ESendMessage
         {| Server.reqTarget := Some "120363000000000000@g.us";
            Server.reqTargetType := Some "group";
            Server.reqDelaySec := Some "1";
            Server.reqPrefix := None;
            Server.reqFilePath := Some "uploads/77aa" |}
         "task_1700000300000_p2m4z" 1700000300000 (Some threeMessages);
       Server.ESendSettled "task_1700000300000_p2m4z" true 1700000300300;
       Server.EDelayElapsed "task_1700000300000_p2m4z" 1700000301300;
       Server.ESendSettled "task_1700000300000_p2m4z" true 1700000301600;
       Server.EDelayElapsed "task_1700000300000_p2m4z" 1700000302600;
       Server.ESendSettled "task_1700000300000_p2m4z" true 1700000302900;
       Server.EDelayElapsed "task_1700000300000_p2m4z" 1700000303900 ].

(** The state [wholeTaskTrace] ends in: the task is finished and waits
    for its eviction. *)
Definition finishedState : Server.state :=
  default Server.initial (Server.run 401 Server.initial wholeTaskTrace).

(** Outcomes for the five sends of [startedTrace]: the third is rejected. *)
Definition fiveOutcomes : list (bool * Z * Z) :=
  [ (true, 1700000200400, 1700000201400);
    (true, 1700000201800, 1700000202800);
    (false, 1700000203200, 1700000204200);
    (true, 1700000204600, 1700000205600);
    (true, 1700000206000, 1700000207000) ].

(** What follows the start of [startedTrace]: two sends resolve, the
    third is rejected and the loop sleeps. *)
Definition threeSendsTrace : list Server.event :=
  [ Server.ESendSettled "task_1700000200000_k3x9a" true 1700000200400;
    Server.EDelayElapsed "task_1700000200000_k3x9a" 1700000201400;
    Server.ESendSettled "task_1700000200000_k3x9a" true 1700000201800;
    Server.EKeepAlive (fun _ => Server.PingResolves);
    Server.EDelayElapsed "task_1700000200000_k3x9a" 1700000202800;
    Server.ESendSettled "task_1700000200000_k3x9a" false 1700000203200 ].

Definition threeSendsState : Server.state :=
  default Server.initial (Server.run 401 startedState threeSendsTrace).

(** Three losses of connection in a row. *)
Definition threeCloses : list (option Z * Z) :=
  [ (Some 428, 1700000100000); (None, 1700000105500);
    (Some 515, 1700000111000) ].

(** What may follow a stop of the simulation: the clock, a pairing, a new
    upload. *)
Definition quietTrace : list Sim.event :=
  [ Sim.EUptime;
    Sim.EPair (Some "9779800000") 482913 "2024-05-01T10:01:00.000Z" true true;
    Sim.EUpload
      (Some {| Sim.path := "uploads/51bd"; Sim.originalname := "more.txt" |})
      (Sim.ReadOk threeLines) "2024-05-01T10:02:00.000Z" true false ].

(** The clock ticks and the loop fires once more after [simTrace]. *)
Definition laterTrace : list Sim.event :=
  [ Sim.EUptime;
    Sim.ETick "2024-05-01T10:00:35.000Z" "2024-05-01T10:00:35.001Z" true false
      (Sim.ReadOk threeLines);
    Sim.EUptime ].

(** Four firings of the loop. *)
Definition fourFirings : list (string * string * bool * bool) :=
  [ ("2024-05-01T10:00:35.000Z", "2024-05-01T10:00:35.001Z", true, true);
    ("2024-05-01T10:00:45.000Z", "2024-05-01T10:00:45.001Z", false, true);
    ("2024-05-01T10:00:55.000Z", "2024-05-01T10:00:55.001Z", true, false);
    ("2024-05-01T10:01:05.000Z", "2024-05-01T10:01:05.001Z", true, true) ].

(** An upload of spaces, a tab and line ends. *)
Definition blankUpload : string :=
  "  " +:+ lineFeed +:+ String "009"%char (String "013"%char lineFeed).

(** * Properties *)

(** ** Facts about [JsMap] *)
Section JsMapFacts.
Context {V : Type}.
Implicit Types (m : list (string * V)) (k : string) (v : V).

Lemma get_set_eq m k v : JsMap.get (JsMap.set m k v) k = Some v.
Proof.
  induction m as [|[k' v'] m IH]; simpl.
  - by rewrite String.eqb_refl.
  - destruct (String.eqb k' k) eqn:E; simpl.
    + by rewrite String.eqb_refl.
    + by rewrite E.
Qed.

Lemma get_set_ne m k k' v :
  k ≠ k' → JsMap.get (JsMap.set m k v) k' = JsMap.get m k'.
Proof.
  intros Hne. induction m as [|[k0 v0] m IH]; simpl.
  - destruct (String.eqb k k') eqn:E; [|done].
    apply String.eqb_eq in E. done.
  - destruct (String.eqb k0 k) eqn:E; simpl.
    + apply String.eqb_eq in E. subst k0.
      destruct (String.eqb k k') eqn:E'; [|done].
      apply String.eqb_eq in E'. done.
    + by rewrite IH.
Qed.

Lemma get_delete_eq m k : JsMap.get (JsMap.delete m k) k = None.
Proof.
  induction m as [|[k' v'] m IH]; simpl; [done|].
  destruct (String.eqb k' k) eqn:E; simpl; [done|]. by rewrite E.
Qed.

Lemma get_delete_ne m k k' :
  k ≠ k' → JsMap.get (JsMap.delete m k) k' = JsMap.get m k'.
Proof.
  intros Hne. induction m as [|[k0 v0] m IH]; simpl; [done|].
  destruct (String.eqb k0 k) eqn:E; simpl.
  - apply String.eqb_eq in E. subst k0.
    destruct (String.eqb k k') eqn:E'; [|done].
    apply String.eqb_eq in E'. done.
  - by rewrite IH.
Qed.

Lemma get_None_keys m k : JsMap.get m k = None ↔ k ∉ JsMap.keys m.
Proof.
  unfold JsMap.keys. induction m as [|[k' v'] m IH]; simpl.
  - split; [intros _; apply not_elem_of_nil | done].
  - rewrite not_elem_of_cons.
    destruct (String.eqb k' k) eqn:E.
    + apply String.eqb_eq in E. subst. split; [done | intros [? _]; done].
    + apply String.eqb_neq in E. rewrite IH. split; [intros; split; congruence | tauto].
Qed.

Lemma get_Some_elem m k v : JsMap.get m k = Some v → (k, v) ∈ m.
Proof.
  induction m as [|[k' v'] m IH]; simpl; [done|].
  destruct (String.eqb k' k) eqn:E.
  - apply String.eqb_eq in E. intros [= ->]. subst. apply list_elem_of_here.
  - intros H. apply list_elem_of_further. auto.
Qed.

Lemma set_Forall (P : string * V → Prop) m k v :
  Forall P m → P (k, v) → Forall P (JsMap.set m k v).
Proof.
  intros Hm Hv. induction Hm as [|[k' v'] m Hx Hm IH]; simpl.
  - by constructor.
  - destruct (String.eqb k' k); constructor; auto.
Qed.

Lemma delete_Forall (P : string * V → Prop) m k :
  Forall P m → Forall P (JsMap.delete m k).
Proof.
  intros Hm. induction Hm as [|[k' v'] m Hx Hm IH]; simpl; [done|].
  destruct (String.eqb k' k); [done | by constructor].
Qed.

Lemma delete_keys m k : k ∉ JsMap.keys (JsMap.delete m k).
Proof. apply get_None_keys, get_delete_eq. Qed.
End JsMapFacts.

(** ** White space and lines *)
Section WhiteSpace.
Import Server.

Local Abbreviation CR := (String "013"%char EmptyString).
Local Abbreviation LF := (String "010"%char EmptyString).

Lemma append_cons c (a b : string) : String c a +:+ b = String c (a +:+ b).
Proof. reflexivity. Qed.

Lemma append_nil_l (a : string) : "" +:+ a = a.
Proof. reflexivity. Qed.

Lemma append_nil_r (a : string) : a +:+ "" = a.
Proof.
  induction a as [|x a IH]; [done|]. by rewrite append_cons, IH.
Qed.

Lemma append_assoc (a b c : string) : (a +:+ b) +:+ c = a +:+ (b +:+ c).
Proof.
  induction a as [|x a IH]; [done|]. by rewrite !append_cons, IH.
Qed.

Lemma append_length (a b : string) :
  String.length (a +:+ b) = (String.length a + String.length b)%nat.
Proof.
  induction a as [|x a IH]; [done|]. rewrite append_cons. simpl. by rewrite IH.
Qed.

Lemma stripPrefix_Some w s r : stripPrefix w s = Some r ↔ s = w +:+ r.
Proof.
  revert s. induction w as [|a w IH]; intros s; simpl.
  - rewrite append_nil_l. split; congruence.
  - rewrite append_cons. destruct s as [|b s]; [done|].
    destruct (Ascii.eqb a b) eqn:E.
    + apply Ascii.eqb_eq in E as ->. rewrite IH. split; congruence.
    + apply Ascii.eqb_neq in E. split; [done | congruence].
Qed.

Lemma stripAny_Some ws s r :
  stripAny ws s = Some r → ∃ w, In w ws ∧ s = w +:+ r.
Proof.
  induction ws as [|w ws IH]; simpl; [done|].
  destruct (stripPrefix w s) as [r'|] eqn:E.
  - intros [= ->]. apply stripPrefix_Some in E. eauto.
  - intros (w' & ? & ?)%IH. eauto.
Qed.

Lemma leadingSpace_Some s r :
  leadingSpace s = Some r → ∃ w, In w whiteSpace ∧ s = w +:+ r.
Proof. apply stripAny_Some. Qed.

Lemma whiteSpace_length w : In w whiteSpace → (1 ≤ String.length w)%nat.
Proof.
  intros H. simpl in H.
  repeat (destruct H as [<-|H]; [simpl; lia|]). done.
Qed.

(** No encoding is the start of another: the white space at the head of a
    text is read off in one way only. *)
Lemma leadingSpace_head w r : In w whiteSpace → leadingSpace (w +:+ r) = Some r.
Proof.
  intros H. simpl in H.
  repeat (destruct H as [<-|H]; [reflexivity|]). done.
Qed.

Lemma leadingSpace_shorter s r :
  leadingSpace s = Some r → (String.length r < String.length s)%nat.
Proof.
  intros (w & Hw & ->)%leadingSpace_Some. rewrite append_length.
  apply whiteSpace_length in Hw. lia.
Qed.

Lemma dropLeading_fuel n m s :
  (String.length s ≤ n)%nat → (String.length s ≤ m)%nat →
  dropLeading n s = dropLeading m s.
Proof.
  revert m s. induction n as [|n IH]; intros m s Hn Hm.
  - destruct s; [|simpl in Hn; lia]. by destruct m.
  - destruct m as [|m].
    + destruct s; [done | simpl in Hm; lia].
    + simpl. destruct (leadingSpace s) as [r|] eqn:E; [|done].
      apply leadingSpace_shorter in E. apply IH; lia.
Qed.

Lemma trimStart_unfold s :
  trimStart s = match leadingSpace s with
                | Some r => trimStart r
                | None => s
                end.
Proof.
  unfold trimStart. destruct s as [|c s]; [done|].
  cbn [String.length dropLeading].
  destruct (leadingSpace (String c s)) as [r|] eqn:E; [|done].
  apply leadingSpace_shorter in E. simpl in E. apply dropLeading_fuel; lia.
Qed.

Lemma blank_app a b : blank a → blank b → blank (a +:+ b).
Proof.
  induction 1 as [|w s Hw Hs IH]; intros Hb; [done|].
  rewrite append_assoc. constructor; auto.
Qed.

Lemma blank_one w : In w whiteSpace → blank w.
Proof.
  intros H. rewrite <- (append_nil_r w). constructor; [done | constructor].
Qed.

Lemma trimStart_blank_upto n s :
  (String.length s ≤ n)%nat → trimStart s = "" → blank s.
Proof.
  revert s. induction n as [|n IH]; intros s Hn.
  - destruct s; [constructor | simpl in Hn; lia].
  - rewrite trimStart_unfold.
    destruct (leadingSpace s) as [r|] eqn:E.
    + pose proof (leadingSpace_shorter _ _ E).
      apply leadingSpace_Some in E as (w & Hw & ->).
      intros Hr. constructor; [done|]. apply IH; [lia | done].
    + intros ->. constructor.
Qed.

Lemma trimStart_blank s : trimStart s = "" ↔ blank s.
Proof.
  split; [by apply (trimStart_blank_upto (String.length s))|].
  induction 1 as [|w s Hw Hs IH]; [done|].
  by rewrite trimStart_unfold, leadingSpace_head.
Qed.

Lemma isBlank_blank s : isBlank s = true ↔ blank s.
Proof.
  rewrite <- trimStart_blank. unfold isBlank.
  by destruct (trimStart s).
Qed.

Lemma trimStart_done_upto n s :
  (String.length s ≤ n)%nat → trimStart (trimStart s) = trimStart s.
Proof.
  revert s. induction n as [|n IH]; intros s Hn.
  - destruct s; [done | simpl in Hn; lia].
  - rewrite (trimStart_unfold s).
    destruct (leadingSpace s) as [r|] eqn:E.
    + apply leadingSpace_shorter in E. apply IH. lia.
    + by rewrite trimStart_unfold, E.
Qed.

Lemma trimEnd_empty s : trimEnd s = "" ↔ blank s.
Proof.
  destruct s as [|c r]; [by split; [constructor|]|].
  rewrite <- isBlank_blank. cbn [trimEnd].
  by destruct (isBlank (String c r)).
Qed.

(** [trim] leaves nothing exactly of a blank text. *)
Lemma trim_empty s : trim s = "" ↔ blank s.
Proof.
  unfold trim. rewrite trimEnd_empty, <- !trimStart_blank.
  by rewrite (trimStart_done_upto (String.length s)).
Qed.

(** A carriage return is not part of any other white-space character. *)
Lemma carriage_return_apart w y z :
  In w whiteSpace → y ≠ "" → y +:+ CR = w +:+ z →
  ∃ y', y = w +:+ y' ∧ z = y' +:+ CR.
Proof.
  intros H Hy Heq. vm_compute in H.
  repeat (destruct H as [<-|H];
          [destruct y as [|a [|b [|c y]]];
           rewrite ?append_cons, ?append_nil_l in Heq; simplify_eq;
           eexists; split; reflexivity|]).
  done.
Qed.

Lemma blank_carriage_return_upto n y :
  (String.length y ≤ n)%nat → blank (y +:+ CR) → blank y.
Proof.
  revert y. induction n as [|n IH]; intros y Hn Hb.
  - destruct y; [constructor | simpl in Hn; lia].
  - destruct (decide (y = "")) as [->|Hy]; [constructor|].
    inversion Hb as [Heq|w z Hw Hz Heq].
    { by destruct y. }
    symmetry in Heq.
    destruct (carriage_return_apart w y z Hw Hy Heq) as (y' & -> & ->).
    constructor; [done|]. apply IH; [|done].
    rewrite append_length in Hn. apply whiteSpace_length in Hw. lia.
Qed.

Lemma blank_carriage_return y : blank (y +:+ CR) ↔ blank y.
Proof.
  split; [by apply (blank_carriage_return_upto (String.length y))|].
  intros H. apply blank_app; [done|]. apply blank_one. simpl. tauto.
Qed.

Lemma isBlank_carriage_return y : isBlank (y +:+ CR) = isBlank y.
Proof.
  apply eq_true_iff_eq. by rewrite !isBlank_blank, blank_carriage_return.
Qed.

Lemma trimEnd_carriage_return y : trimEnd (y +:+ CR) = trimEnd y.
Proof.
  induction y as [|c r IH]; [done|].
  change (String c r +:+ CR) with (String c (r +:+ CR)).
  cbn [trimEnd].
  change (String c (r +:+ CR)) with (String c r +:+ CR).
  by rewrite isBlank_carriage_return, IH.
Qed.

Lemma trimStart_carriage_return_upto n p :
  (String.length p ≤ n)%nat → ¬ blank p →
  trimStart (p +:+ CR) = trimStart p +:+ CR.
Proof.
  revert p. induction n as [|n IH]; intros p Hn Hp.
  - destruct p; [by destruct Hp; constructor | simpl in Hn; lia].
  - rewrite (trimStart_unfold p).
    destruct (leadingSpace p) as [r|] eqn:E.
    + pose proof (leadingSpace_shorter _ _ E).
      apply leadingSpace_Some in E as (w & Hw & ->).
      rewrite append_assoc, trimStart_unfold, leadingSpace_head by done.
      apply IH; [lia|]. intros Hr. apply Hp. by constructor.
    + rewrite trimStart_unfold.
      destruct (leadingSpace (p +:+ CR)) as [r|] eqn:E'; [|done].
      exfalso. apply leadingSpace_Some in E' as (w & Hw & Heq).
      assert (p ≠ "") as Hne by (intros ->; apply Hp; constructor).
      destruct (carriage_return_apart w p r Hw Hne Heq) as (y' & -> & _).
      by rewrite leadingSpace_head in E.
Qed.

Lemma trim_carriage_return s : trim (s +:+ CR) = trim s.
Proof.
  destruct (isBlank s) eqn:E.
  - apply isBlank_blank in E.
    assert (trim s = "") as -> by (by apply trim_empty).
    by apply trim_empty, blank_carriage_return.
  - unfold trim.
    rewrite (trimStart_carriage_return_upto (String.length s)); [|done|].
    + apply trimEnd_carriage_return.
    + intros H%isBlank_blank. congruence.
Qed.

Lemma splitOn_never_empty sep s : splitOn sep s ≠ [].
Proof.
  induction s as [|c r IH]; simpl; [done|].
  destruct (Ascii.eqb c sep); [done|]. by destruct (splitOn sep r).
Qed.

Lemma splitOn_join s : joinWith LF (splitOn "010"%char s) = s.
Proof.
  induction s as [|c r IH]; [done|]. simpl.
  pose proof (splitOn_never_empty "010" r) as Hne.
  destruct (splitOn "010" r) as [|h t]; [done|].
  destruct (Ascii.eqb c "010") eqn:E.
  - apply Ascii.eqb_eq in E as ->.
    change (joinWith LF ("" :: h :: t)) with ("" +:+ LF +:+ joinWith LF (h :: t)).
    by rewrite IH.
  - destruct t as [|y t].
    + change (String c h = String c r). f_equal. exact IH.
    + change (String c (h +:+ LF +:+ joinWith LF (y :: t)) = String c r).
      f_equal. exact IH.
Qed.

Lemma blank_join l : Forall blank l → blank (joinWith LF l).
Proof.
  induction 1 as [|x l Hx Hl IH]; [constructor|].
  destruct l as [|y l]; [done|].
  change (joinWith LF (x :: y :: l)) with (x +:+ LF +:+ joinWith LF (y :: l)).
  apply blank_app; [done|]. apply blank_app; [|done].
  apply blank_one. simpl. tauto.
Qed.

(** A white-space character other than the line feed holds no line feed,
    so it stays whole in the piece it is in. *)
Lemma splitOn_space w s :
  In w whiteSpace →
  splitOn "010"%char (w +:+ s)
  = if String.eqb w LF then "" :: splitOn "010"%char s
    else match splitOn "010"%char s with
         | h :: t => (w +:+ h) :: t
         | [] => [w]
         end.
Proof.
  intros H. vm_compute in H.
  repeat (destruct H as [<-|H];
          [rewrite ?append_cons, ?append_nil_l; simpl;
           by destruct (splitOn "010" s)|]).
  done.
Qed.

Lemma splitOn_blank raw :
  Forall blank (splitOn "010"%char raw) ↔ blank raw.
Proof.
  split.
  - intros H%blank_join. by rewrite splitOn_join in H.
  - induction 1 as [|w s Hw Hs IH].
    + repeat constructor.
    + rewrite splitOn_space by done.
      destruct (String.eqb w LF).
      * constructor; [constructor | done].
      * pose proof (splitOn_never_empty "010" s) as Hne.
        destruct (splitOn "010" s) as [|h t]; [done|].
        apply Forall_cons in IH as [Hh Ht].
        constructor; [by constructor | done].
Qed.

Lemma readMessages_nil content : readMessages content = [] ↔ blank content.
Proof.
  rewrite <- splitOn_blank. unfold readMessages.
  induction (splitOn "010" content) as [|p ps IH]; simpl.
  - split; [constructor | done].
  - rewrite Forall_cons, <- IH, <- trim_empty.
    destruct (trim p) eqn:E; simpl; [tauto|].
    split; [done | by intros [? _]].
Qed.
Lemma isDigit_not_at c : isDigit c = true → Ascii.eqb c "@" = false.
Proof. by destruct c as [[] [] [] [] [] [] [] []]. Qed.

Lemma keepDigits_no_at target : includesChar "@" (keepDigits target) = false.
Proof.
  induction target as [|c r IH]; [done|]. simpl.
  destruct (isDigit c) eqn:E; [|done]. simpl.
  by rewrite (isDigit_not_at c E).
Qed.

Lemma keepDigits_digits target :
  Forall (λ c, isDigit c = true) (list_ascii_of_string (keepDigits target)).
Proof.
  induction target as [|c r IH]; simpl; [constructor|].
  destruct (isDigit c) eqn:E; [|done]. simpl. by constructor.
Qed.

(** The address the handler computes, [toNumberJid] included. *)
Lemma requestJid_code (req : sendRequest) :
  (if String.eqb (default "" (reqTargetType req)) "number"
   then toNumberJid (keepDigits (default "" (reqTarget req)))
   else default "" (reqTarget req)) = requestJid req.
Proof.
  unfold requestJid, toNumberJid. destruct (_ =? _)%string; [|done].
  by rewrite keepDigits_no_at.
Qed.
End WhiteSpace.

(** ** The two halves of the state do not interfere *)
Section Frames.
Import Server.
Variable loggedOut : Z.

Lemma keepAlive_fold ping (l : list (string * clientInfo)) s :
  let s' := fold_left (keepAlivePing ping) l s in
  activeClients s' = activeClients s
  ∧ activeTasks s' = activeTasks s
  ∧ reconnectTimers s' = reconnectTimers s
  ∧ loops s' = loops s
  ∧ outbox s' = outbox s
  ∧ presence s' = presence s ++ pinged l
  ∧ console s' = console s ++ map (keepAliveLine ping) (pinged l)
  ∧ unhandled s' = unhandled s ++ rejectedPings ping l.
Proof.
  revert s. induction l as [|[sid ci] l IH]; intros s; simpl.
  - by rewrite !app_nil_r.
  - specialize (IH (keepAlivePing ping s (sid, ci))).
    simpl in IH. destruct IH as (H1 & H2 & H3 & H4 & H5 & H6 & H7 & H8).
    rewrite H1, H2, H3, H4, H5, H6, H7, H8. clear.
    unfold keepAlivePing, rejectedPings, pinged, keepAliveLine. simpl.
    destruct (connected ci && bool_decide (is_Some (client ci))); simpl.
    + destruct (ping sid); simpl; by rewrite <- ?app_assoc.
    + done.
Qed.

Lemma pinged_connected (m : list (string * clientInfo)) sid :
  sid ∈ pinged m →
  ∃ ci h, (sid, ci) ∈ m ∧ connected ci = true ∧ client ci = Some h.
Proof.
  unfold pinged. intros Hin. apply list_elem_of_In, in_map_iff in Hin.
  destruct Hin as ([k ci] & <- & Hf). apply filter_In in Hf.
  destruct Hf as [Hin Hc]. simpl in *.
  apply andb_prop in Hc as [Hc Hcl]. apply bool_decide_eq_true_1 in Hcl.
  destruct Hcl as [h Hh]. exists ci, h. by rewrite list_elem_of_In.
Qed.

Lemma finishLoop_session tid lp now s :
  sessionPart (finishLoop tid lp now s) = sessionPart s.
Proof. unfold finishLoop. by destruct (JsMap.get (activeTasks s) tid). Qed.

Lemma enterIteration_session tid lp i now s :
  sessionPart (enterIteration tid lp i now s) = sessionPart s.
Proof.
  unfold enterIteration. repeat case_match; try done;
    by rewrite finishLoop_session.
Qed.

Lemma afterSend_session tid lp i ok now s :
  sessionPart (afterSend tid lp i ok now s) = sessionPart s.
Proof. unfold afterSend. by repeat case_match. Qed.

Lemma sendMessageHandler_session req tid now file s :
  sessionPart (fst (sendMessageHandler req tid now file s)) = sessionPart s.
Proof.
  unfold sendMessageHandler. repeat case_match; try done.
  all: simpl; by rewrite enterIteration_session.
Qed.

Lemma stopTaskHandler_session tid s :
  sessionPart (fst (stopTaskHandler tid s)) = sessionPart s.
Proof. unfold stopTaskHandler. by repeat case_match. Qed.

Lemma initializeClient_task sid phone r o s :
  taskPart (initializeClient sid phone r o s) = taskPart s.
Proof. unfold initializeClient. by repeat case_match. Qed.

Lemma onConnectionUpdate_task sk u now s :
  taskPart (onConnectionUpdate loggedOut sk u now s) = taskPart s.
Proof. unfold onConnectionUpdate. by repeat case_match. Qed.

Lemma keepAlive_task ping s : taskPart (keepAlive ping s) = taskPart s.
Proof.
  unfold keepAlive, taskPart.
  destruct (keepAlive_fold ping (activeClients s) s)
    as (_ & -> & _ & -> & -> & _). done.
Qed.

Lemma step_task_event s e s' :
  step loggedOut s e = Some s' → isSessionEvent e = false →
  sessionPart s' = sessionPart s.
Proof.
  destruct e; simpl; try done; intros Hs _.
  - repeat case_match; simplify_eq. apply sendMessageHandler_session.
  - destruct (loops s !! taskId) as [lp|]; simpl in Hs; [|done].
    destruct (pc lp); simplify_eq. apply afterSend_session.
  - destruct (loops s !! taskId) as [lp|]; simpl in Hs; [|done].
    destruct (pc lp); simplify_eq. apply enterIteration_session.
  - destruct (loops s !! taskId) as [lp|]; simpl in Hs; [|done].
    destruct (pc lp); simplify_eq. done.
  - simplify_eq. apply stopTaskHandler_session.
Qed.

Lemma step_session_event s e s' :
  step loggedOut s e = Some s' → isSessionEvent e = true →
  taskPart s' = taskPart s.
Proof.
  destruct e; simpl; try done; intros Hs _.
  - simplify_eq. unfold codeHandler.
    destruct (negb (truthy number0)); [done|].
    destruct o; cbn [fst]; apply initializeClient_task.
  - simplify_eq. apply onConnectionUpdate_task.
  - destruct (takeTimer (sid, phone) (reconnectTimers s)) as [l|];
      simpl in Hs; [|done].
    simplify_eq. by rewrite initializeClient_task.
  - simplify_eq. apply keepAlive_task.
Qed.

Lemma run_invariant (P : state → Prop) :
  (∀ s e s', P s → step loggedOut s e = Some s' → P s') →
  ∀ es s s', P s → run loggedOut s es = Some s' → P s'.
Proof.
  intros Hstep. induction es as [|e es IH]; simpl; intros s s' HP Hrun.
  - by simplify_eq.
  - destruct (step loggedOut s e) as [s1|] eqn:E; simpl in Hrun; [|done].
    eauto.
Qed.

End Frames.

(** ** Session lifecycle *)
Section SessionProperties.
Import Server.
Variable loggedOut : Z.

(** A keep-alive tick leaves the session registry exactly as it was,
    whatever the pings do: no [connected], [lastConnected] or
    [retryCount] changes and no reconnect is scheduled. Pings go, in
    registry order, to the sessions whose [connected] flag is true (and
    that hold a client), and to no other. The failure line is printed
    for the calls that throw, the success line for all others, and each
    rejected promise is left unhandled. *)
Lemma keep_alive_leaves_registry (ping : string → pingOutcome) (s : state) :
  let s' := keepAlive ping s in
  activeClients s' = activeClients s
  ∧ reconnectTimers s' = reconnectTimers s
  ∧ presence s' = presence s ++ pinged (activeClients s)
  ∧ console s' =
      console s ++ map (keepAliveLine ping) (pinged (activeClients s))
  ∧ unhandled s' = unhandled s ++ rejectedPings ping (activeClients s)
  ∧ (∀ sid, sid ∈ pinged (activeClients s) →
       ∃ ci h, (sid, ci) ∈ activeClients s
               ∧ connected ci = true ∧ client ci = Some h).
Proof.
  simpl. unfold keepAlive.
  destruct (keepAlive_fold ping (activeClients s) s)
    as (H1 & _ & H3 & _ & _ & H6 & H7 & H8).
  repeat split; try done. apply pinged_connected.
Qed.

(** A ping that fails the way a promise fails is never printed as failed:
    whatever the promises do, a tick prints the failure line only for
    calls that threw. *)
Lemma rejection_never_logged (ping : string → pingOutcome) (s : state)
    (sid : string) :
  ping sid ≠ PingThrows →
  LogKeepAliveFailed sid ∈ console (keepAlive ping s) →
  LogKeepAliveFailed sid ∈ console s.
Proof.
  intros Hp. unfold keepAlive.
  destruct (keepAlive_fold ping (activeClients s) s)
    as (_ & _ & _ & _ & _ & _ & -> & _).
  rewrite elem_of_app. intros [H|H]; [done|].
  apply list_elem_of_fmap in H as (sid' & Heq & _).
  unfold keepAliveLine in Heq. destruct (ping sid') eqn:E; by simplify_eq.
Qed.

Lemma statusSessions_ids (s : state) :
  map stSessionId (statusSessions s) = JsMap.keys (activeClients s).
Proof.
  unfold statusSessions, JsMap.keys. rewrite map_map.
  apply map_ext. by intros [k v].
Qed.

Lemma shouldReconnect_false (statusCode : option Z) :
  shouldReconnect loggedOut statusCode = false
  ↔ statusCode = Some loggedOut ∨ statusCode = Some 401.
Proof.
  unfold shouldReconnect. destruct statusCode as [c|].
  - rewrite andb_false_iff, !negb_false_iff, !Z.eqb_eq.
    split; intros [H|H]; [left|right|left|right]; congruence.
  - split; [done | intros [?|?]; done].
Qed.

(** C4. When the connection of a session closes with the logged-out code
    or with 401, the handler removes the session from the registry,
    schedules no reconnect, and the status report that follows does not
    list the session; every other session stays as it was. *)
Theorem terminal_close_removes_session (sk : socket) (statusCode : option Z)
    (now : Z) (s : state) (ci : clientInfo) :
  JsMap.get (activeClients s) (sockSession sk) = Some ci →
  connected ci = true →
  statusCode = Some loggedOut ∨ statusCode = Some 401 →
  ∃ s', step loggedOut s (EConnectionUpdate sk (ConnClose statusCode) now) = Some s'
    ∧ JsMap.get (activeClients s') (sockSession sk) = None
    ∧ reconnectTimers s' = reconnectTimers s
    ∧ (sockSession sk ∉ map stSessionId (fst (status s')))
    ∧ (∀ k, k ≠ sockSession sk →
         JsMap.get (activeClients s') k = JsMap.get (activeClients s) k).
Proof.
  intros _ _ Hcode. apply shouldReconnect_false in Hcode.
  eexists. split; [reflexivity|].
  unfold onConnectionUpdate. rewrite Hcode. simpl.
  rewrite statusSessions_ids. simpl.
  split_and!.
  - apply get_delete_eq.
  - done.
  - apply delete_keys.
  - intros k Hk. by apply get_delete_ne.
Qed.

Lemma initializeClient_bounded sid phone r o s :
  retriesBounded s → retriesBounded (initializeClient sid phone r o s).
Proof.
  unfold retriesBounded, initializeClient. intros H.
  repeat case_match; simpl; try done.
  apply set_Forall; [done|]. simpl. unfold MAX_RETRIES. lia.
Qed.

Lemma onConnectionUpdate_bounded sk u now s :
  retriesBounded s → retriesBounded (onConnectionUpdate loggedOut sk u now s).
Proof.
  unfold retriesBounded, onConnectionUpdate. intros H.
  destruct u as [|statusCode|]; simpl; [| |done].
  - apply set_Forall; [done|]. simpl. unfold MAX_RETRIES. lia.
  - destruct (shouldReconnect loggedOut statusCode); simpl.
    + destruct (JsMap.get (activeClients s) (sockSession sk)) as [ci|] eqn:E;
        simpl.
      * destruct (retryCount ci <? MAX_RETRIES) eqn:Hlt; simpl; [|done].
        apply set_Forall; [done|]. simpl. apply Z.ltb_lt in Hlt.
        apply get_Some_elem in E.
        rewrite Forall_forall in H. specialize (H _ E). simpl in H. lia.
      * apply set_Forall; [done|]. simpl. unfold MAX_RETRIES. lia.
    + by apply delete_Forall.
Qed.

Lemma step_bounded s e s' :
  retriesBounded s → step loggedOut s e = Some s' → retriesBounded s'.
Proof.
  intros H Hs. destruct (isSessionEvent e) eqn:He.
  - destruct e; simpl in *; try done; simplify_eq.
    + unfold codeHandler. destruct (negb (truthy number0)); [done|].
      destruct o; cbn [fst]; by apply initializeClient_bounded.
    + by apply onConnectionUpdate_bounded.
    + destruct (takeTimer (sid, phone) (reconnectTimers s)) as [l|];
        simpl in Hs; [|done].
      simplify_eq. by apply initializeClient_bounded.
    + unfold retriesBounded, keepAlive.
      by destruct (keepAlive_fold ping (activeClients s) s) as (-> & _).
  - apply (step_task_event loggedOut) in Hs; [|done].
    unfold retriesBounded. apply (f_equal (λ x, x.1.1)) in Hs.
    simpl in Hs. by rewrite Hs.
Qed.

(** The bound of C1 that does hold: from the empty server, whatever
    happens, no registered session has a retry count above
    [MAX_RETRIES]. *)
Lemma retry_count_bounded es s :
  run loggedOut initial es = Some s → retriesBounded s.
Proof.
  apply (run_invariant loggedOut retriesBounded).
  - intros ????. by apply step_bounded.
  - constructor.
Qed.

(** The close handler: below the bound it counts the attempt and arms
    one timer; at the bound it only prints, and the entry stays. *)
Lemma close_handler_counts sk statusCode now s :
  shouldReconnect loggedOut statusCode = true →
  let retries := orZero (retryCount <$> JsMap.get (activeClients s) (sockSession sk)) in
  let s' := onConnectionUpdate loggedOut sk (ConnClose statusCode) now s in
  if retries <? MAX_RETRIES then
    (retryCount <$> JsMap.get (activeClients s') (sockSession sk))
      = Some (retries + 1)
    ∧ reconnectTimers s' = reconnectTimers s ++ [(sockSession sk, sockPhone sk)]
  else
    activeClients s' = activeClients s
    ∧ reconnectTimers s' = reconnectTimers s.
Proof.
  intros Hr. simpl. unfold onConnectionUpdate. rewrite Hr.
  destruct (_ <? MAX_RETRIES); simpl; [|done].
  by rewrite get_set_eq.
Qed.

(** The [catch] of [initializeClient]: for a registered session below
    the bound it arms a timer and leaves the registry, hence the count,
    untouched. *)
Lemma init_error_keeps_count sid phone r s ci :
  JsMap.get (activeClients s) sid = Some ci →
  retryCount ci < MAX_RETRIES →
  let s' := initializeClient sid phone r InitThrows s in
  activeClients s' = activeClients s
  ∧ reconnectTimers s' = reconnectTimers s ++ [(sid, phone)].
Proof.
  intros Hget Hlt. simpl. unfold initializeClient. simpl. rewrite Hget. simpl.
  apply Z.ltb_lt in Hlt. by rewrite Hlt.
Qed.
End SessionProperties.

(** C1, at the input where the code departs from it. A session drops its
  connection once: the close handler counts attempt 1 and arms one
  reconnect. That reconnect throws in [initializeClient]; the [catch]
  arms the next reconnect and the count is still 1. *)
Theorem init_error_reschedules_without_counting :
∃ s1 s2 ci1 ci2,
  Server.run 401 Server.initial droppedTrace = Some s1
  ∧ Server.step 401 s1 failedReinit = Some s2
  ∧ Server.activeClients s1 = [("perm_9779800000_1700000000000", ci1)]
  ∧ Server.retryCount ci1 = 1
  ∧ Server.reconnectTimers s1
    = [("perm_9779800000_1700000000000", "9779800000")]
  ∧ Server.activeClients s2 = [("perm_9779800000_1700000000000", ci2)]
  ∧ Server.retryCount ci2 = 1
  ∧ Server.reconnectTimers s2
    = [("perm_9779800000_1700000000000", "9779800000")]
  ∧ Server.LogRetryInit "perm_9779800000_1700000000000" ∈ Server.console s2.
Proof.
do 4 eexists. split_and!; try (vm_compute; reflexivity).
vm_compute. apply list_elem_of_In. simpl. tauto.
Qed.

(** C8, at the input where the code departs from it. The session of
  [connectedTrace] is connected and the provider rejects its presence
  update. The ticker prints the line of a ping that went well, prints no
  failure, and the rejected promise is left to nobody; the registry is
  as it was. *)
Theorem keep_alive_rejection_unlogged :
∃ s',
  Server.step 401 connectedState rejectedTick = Some s'
  ∧ Server.presence s'
    = Server.presence connectedState ++ ["perm_9779800000_1700000000000"]
  ∧ Server.console s'
    = Server.console connectedState
      ++ [Server.LogKeepAlive "perm_9779800000_1700000000000"]
  ∧ (Server.LogKeepAliveFailed "perm_9779800000_1700000000000"
       ∉ Server.console s')
  ∧ Server.unhandled connectedState = []
  ∧ Server.unhandled s' = ["perm_9779800000_1700000000000"]
  ∧ Server.activeClients s' = Server.activeClients connectedState.
Proof.
eexists. split_and!; try (vm_compute; reflexivity).
intros H%list_elem_of_In. vm_compute in H. intuition discriminate.
Qed.

Lemma terminal_close_removes_session_witness :
∃ s', Server.step 401 connectedState
        (Server.EConnectionUpdate sampleSocket (Server.ConnClose (Some 401))
           1700000009000) = Some s'
  ∧ JsMap.get (Server.activeClients s') (Server.sockSession sampleSocket) = None
  ∧ Server.reconnectTimers s' = Server.reconnectTimers connectedState
  ∧ (Server.sockSession sampleSocket
       ∉ map Server.stSessionId (fst (Server.status s')))
  ∧ (∀ k, k ≠ Server.sockSession sampleSocket →
       JsMap.get (Server.activeClients s') k
       = JsMap.get (Server.activeClients connectedState) k).
Proof.
eapply (terminal_close_removes_session 401 sampleSocket (Some 401)
          1700000009000 connectedState).
- vm_compute. reflexivity.
- reflexivity.
- right. reflexivity.
Defined.


(** ** Task dispatch *)
Section TaskProperties.
Import Server.
Variable loggedOut : Z.

Lemma sendsOf_sendCalled tid c s :
  sendsOf tid (sendCalled c s)
  = sendsOf tid s ++ (if String.eqb (callTask c) tid then [c] else []).
Proof. unfold sendsOf. simpl. by rewrite List.filter_app. Qed.

Lemma setPc_other tid0 lp p s tid :
  tid0 ≠ tid → taskView tid (setPc tid0 lp p s) = taskView tid s.
Proof. intros Hne. unfold taskView, setPc. simpl. by rewrite lookup_insert_ne. Qed.

Lemma finishLoop_other tid0 lp now s tid :
  tid0 ≠ tid → taskView tid (finishLoop tid0 lp now s) = taskView tid s.
Proof.
  intros Hne. unfold finishLoop. rewrite setPc_other by done.
  unfold taskView. destruct (JsMap.get (activeTasks s) tid0); simpl; [|done].
  by rewrite get_set_ne.
Qed.

Lemma enterIteration_other tid0 lp i now s tid :
  tid0 ≠ tid → taskView tid (enterIteration tid0 lp i now s) = taskView tid s.
Proof.
  intros Hne. unfold enterIteration.
  repeat case_match; rewrite ?finishLoop_other, ?setPc_other by done; try done.
  unfold taskView. rewrite sendsOf_sendCalled. simpl.
  apply String.eqb_neq in Hne. by rewrite Hne, app_nil_r.
Qed.

Lemma afterSend_other tid0 lp i ok now s tid :
  tid0 ≠ tid → taskView tid (afterSend tid0 lp i ok now s) = taskView tid s.
Proof.
  intros Hne. unfold afterSend. rewrite setPc_other by done.
  unfold taskView. repeat case_match; simpl; try done.
  by rewrite get_set_ne.
Qed.

Lemma stopTaskHandler_other tid0 s tid :
  tid0 ≠ Some tid →
  taskView tid (fst (stopTaskHandler tid0 s)) = taskView tid s.
Proof.
  intros Hne. unfold stopTaskHandler, taskView.
  repeat case_match; simpl; try done.
  rewrite get_set_ne; [done | congruence].
Qed.

Lemma sendMessageHandler_other req tid0 now file s tid :
  tid0 ≠ tid →
  taskView tid (fst (sendMessageHandler req tid0 now file s)) = taskView tid s.
Proof.
  intros Hne. unfold sendMessageHandler.
  repeat case_match; try done.
  all: simpl; rewrite enterIteration_other by done.
  all: unfold taskView; simpl; by rewrite get_set_ne.
Qed.

Lemma session_event_view s e s' tid :
  step loggedOut s e = Some s' → isSessionEvent e = true →
  taskView tid s' = taskView tid s.
Proof.
  intros Hs He. apply (step_session_event loggedOut) in Hs; [|done].
  unfold taskPart in Hs. unfold taskView, sendsOf.
  injection Hs as -> -> ->. done.
Qed.

Lemma step_other_view s e s' tid :
  step loggedOut s e = Some s' → eventTask e ≠ Some tid →
  taskView tid s' = taskView tid s.
Proof.
  intros Hs Hne. destruct (isSessionEvent e) eqn:He.
  { by eapply session_event_view. }
  destruct e; simpl in *; try done.
  - repeat case_match; simplify_eq.
    apply sendMessageHandler_other. congruence.
  - destruct (loops s !! taskId) as [lp|]; simpl in Hs; [|done].
    destruct (pc lp); simplify_eq. apply afterSend_other. congruence.
  - destruct (loops s !! taskId) as [lp|]; simpl in Hs; [|done].
    destruct (pc lp); simplify_eq. apply enterIteration_other. congruence.
  - destruct (loops s !! taskId) as [lp|]; simpl in Hs; [|done].
    destruct (pc lp); simplify_eq. rewrite setPc_other by congruence.
    unfold taskView. simpl. rewrite get_delete_ne; [done | congruence].
  - simplify_eq. by apply stopTaskHandler_other.
Qed.

(** The effect of the operations on the task they are about. *)
Lemma finishLoop_view tid lp now s :
  let s' := finishLoop tid lp now s in
  loops s' !! tid
  = Some {| loopClient := loopClient lp; loopJid := loopJid lp;
            loopPrefix := loopPrefix lp; loopMessages := loopMessages lp;
            loopFile := loopFile lp; pc := AwaitEviction |}
  ∧ outbox s' = outbox s
  ∧ match JsMap.get (activeTasks s) tid, JsMap.get (activeTasks s') tid with
    | Some t, Some t' =>
        sentMessages t' = sentMessages t
        ∧ totalMessages t' = totalMessages t
        ∧ stopRequested t' = stopRequested t
        ∧ isSending t' = false
        ∧ is_Some (endedAt t')
    | None, None => True
    | _, _ => False
    end.
Proof.
  unfold finishLoop, setPc. simpl.
  rewrite lookup_insert_eq. split; [done|].
  destruct (JsMap.get (activeTasks s) tid) as [t|] eqn:E; simpl.
  - rewrite get_set_eq. split; [done|]. simpl. eauto 10.
  - rewrite E. by split.
Qed.

Lemma stopTaskHandler_view tid s :
  let s' := fst (stopTaskHandler (Some tid) s) in
  loops s' = loops s
  ∧ outbox s' = outbox s
  ∧ match JsMap.get (activeTasks s) tid, JsMap.get (activeTasks s') tid with
    | Some t, Some t' =>
        sentMessages t' = sentMessages t
        ∧ totalMessages t' = totalMessages t
        ∧ endedAt t' = endedAt t
        ∧ (stopRequested t = true → stopRequested t' = true)
    | None, None => True
    | _, _ => False
    end.
Proof.
  unfold stopTaskHandler.
  destruct (negb (nonEmpty tid)); simpl.
  { split_and!; try done. by destruct (JsMap.get (activeTasks s) tid). }
  destruct (JsMap.get (activeTasks s) tid) as [t|] eqn:E; simpl.
  - rewrite get_set_eq. by split_and!.
  - by rewrite E.
Qed.

Lemma parked_step s e s' tid :
  loopParked tid s → step loggedOut s e = Some s' →
  loopParked tid s' ∧ sendsOf tid s' = sendsOf tid s.
Proof.
  intros Hp Hs.
  destruct (decide (eventTask e = Some tid)) as [He|He]; cycle 1.
  { pose proof (step_other_view _ _ _ _ Hs He) as Hv.
    unfold taskView in Hv. injection Hv as Ht Hl Ho.
    unfold loopParked. by rewrite Hl, Ht. }
  unfold loopParked in Hp.
  destruct (loops s !! tid) as [lp|] eqn:El; [|done].
  destruct e; simpl in He; simplify_eq; unfold step in Hs.
  - by rewrite El in Hs.
  - rewrite El in Hs. simpl in Hs. destruct (pc lp); done.
  - rewrite El in Hs. simpl in Hs. destruct (pc lp) as [| i | |] eqn:Epc; try done.
    simplify_eq. unfold enterIteration.
    assert (∀ s0, sendsOf tid s0 = sendsOf tid s →
              loopParked tid (finishLoop tid lp now s0)
              ∧ sendsOf tid (finishLoop tid lp now s0) = sendsOf tid s) as Hfin.
    { intros s0 H0. destruct (finishLoop_view tid lp now s0) as (Hl & Ho & _).
      unfold loopParked, sendsOf. rewrite Hl, Ho. simpl. split; [done|].
      exact H0. }
    destruct (loopMessages lp !! S i); [|by apply Hfin].
    destruct (JsMap.get (activeTasks s) tid) as [t|]; [|by apply Hfin].
    rewrite Hp. by apply Hfin.
  - rewrite El in Hs. simpl in Hs. destruct (pc lp) eqn:Epc; try done.
    simplify_eq. unfold loopParked, setPc, sendsOf. simpl.
    by rewrite lookup_insert_eq.
  - simplify_eq. pose proof (stopTaskHandler_view tid s) as Hv.
    cbv zeta in Hv. destruct Hv as (Hl & Ho & Ht).
    set (s' := fst (stopTaskHandler (Some tid) s)) in *.
    unfold loopParked, sendsOf. rewrite Hl, Ho, El.
    split; [|done]. destruct (pc lp); try done.
    destruct (JsMap.get (activeTasks s) tid),
      (JsMap.get (activeTasks s') tid); try done.
    by apply Ht.
Qed.

Lemma afterSend_view tid lp i ok now s :
  let s' := afterSend tid lp i ok now s in
  (∃ lp', loops s' !! tid = Some lp'
          ∧ loopMessages lp' = loopMessages lp ∧ pc lp' = AwaitDelay i)
  ∧ outbox s' = outbox s
  ∧ match JsMap.get (activeTasks s) tid, JsMap.get (activeTasks s') tid with
    | Some t, Some t' =>
        totalMessages t' = totalMessages t
        ∧ endedAt t' = endedAt t
        ∧ isSending t' = isSending t
        ∧ stopRequested t' = stopRequested t
        ∧ sentMessages t' = (if ok then sentMessages t + 1 else sentMessages t)
    | None, None => True
    | _, _ => False
    end.
Proof.
  unfold afterSend, setPc. simpl. rewrite lookup_insert_eq.
  split; [by eexists|].
  destruct ok; simpl.
  - destruct (JsMap.get (activeTasks s) tid) as [t|] eqn:E; simpl.
    + rewrite get_set_eq. by split_and!.
    + by rewrite E.
  - split; [done|]. by destruct (JsMap.get (activeTasks s) tid).
Qed.

Lemma enterIteration_view tid lp i now s :
  let s' := enterIteration tid lp i now s in
  ∃ lp', loops s' !! tid = Some lp'
    ∧ loopMessages lp' = loopMessages lp
    ∧ ((pc lp' = AwaitSend i
        ∧ (i < length (loopMessages lp))%nat
        ∧ activeTasks s' = activeTasks s
        ∧ ∃ t, JsMap.get (activeTasks s) tid = Some t
               ∧ stopRequested t = false)
       ∨ (pc lp' = AwaitEviction
          ∧ outbox s' = outbox s
          ∧ match JsMap.get (activeTasks s) tid,
                  JsMap.get (activeTasks s') tid with
            | Some t, Some t' =>
                sentMessages t' = sentMessages t
                ∧ totalMessages t' = totalMessages t
                ∧ stopRequested t' = stopRequested t
                ∧ isSending t' = false
                ∧ is_Some (endedAt t')
            | None, None => True
            | _, _ => False
            end)).
Proof.
  cbv zeta. unfold enterIteration.
  pose proof (finishLoop_view tid lp now) as Hfin. cbv zeta in Hfin.
  assert (∀ s0, outbox s0 = outbox s → activeTasks s0 = activeTasks s →
    ∃ lp', loops (finishLoop tid lp now s0) !! tid = Some lp'
      ∧ loopMessages lp' = loopMessages lp
      ∧ (pc lp' = AwaitEviction
          ∧ outbox (finishLoop tid lp now s0) = outbox s
          ∧ match JsMap.get (activeTasks s) tid,
                  JsMap.get (activeTasks (finishLoop tid lp now s0)) tid with
            | Some t, Some t' =>
                sentMessages t' = sentMessages t
                ∧ totalMessages t' = totalMessages t
                ∧ stopRequested t' = stopRequested t
                ∧ isSending t' = false
                ∧ is_Some (endedAt t')
            | None, None => True
            | _, _ => False
            end)) as Hleave.
  { intros s0 Ho Ha. destruct (Hfin s0) as (Hl & Hout & Ht).
    rewrite Ha in Ht. eexists. split; [exact Hl|].
    split; [done|]. split; [done|]. split; [by rewrite Hout | exact Ht]. }
  destruct (loopMessages lp !! i) as [m|] eqn:Em.
  - destruct (JsMap.get (activeTasks s) tid) as [t|] eqn:Et.
    + destruct (stopRequested t) eqn:Est.
      * destruct (Hleave (log (LogTaskExit tid) s)) as (lp' & ? & ? & ?);
          [done..|]. eauto 10.
      * unfold setPc. simpl. rewrite lookup_insert_eq. eexists.
        split; [done|]. simpl. split; [done|]. left.
        apply lookup_lt_Some in Em. eauto 10.
    + destruct (Hleave (log (LogTaskExit tid) s)) as (lp' & ? & ? & ?);
        [done..|]. eauto 10.
  - destruct (Hleave s) as (lp' & ? & ? & ?); [done..|]. eauto 10.
Qed.

(** The handler either answers with an error and changes nothing, or
    registers the task and runs its loop up to the first [await]. *)
Lemma sendMessageHandler_cases req tid now file s :
  let r := sendMessageHandler req tid now file s in
  (fst r = s ∧ ∀ a b c d, snd r ≠ TaskStarted a b c d)
  ∨ (∃ sid ci rest h content t0 lp0,
        activeClients s = (sid, ci) :: rest
        ∧ client ci = Some h
        ∧ file = Some content
        ∧ loopMessages lp0 = readMessages content
        ∧ loopMessages lp0 ≠ []
        ∧ loopClient lp0 = h
        ∧ totalMessages t0 = Z.of_nat (length (loopMessages lp0))
        ∧ sentMessages t0 = 0
        ∧ isSending t0 = true
        ∧ stopRequested t0 = false
        ∧ endedAt t0 = None
        ∧ fst r = enterIteration tid lp0 0 now
                    (withTasks (JsMap.set (activeTasks s) tid t0) s)
        ∧ snd r = TaskStarted tid sid (targetJid t0) (totalMessages t0)).
Proof.
  cbv zeta. unfold sendMessageHandler.
  destruct (activeClients s) as [|[sid ci] rest] eqn:Ec; simpl; [by left|].
  destruct (client ci) as [h|] eqn:Eh; simpl; [|by left].
  destruct (negb (nonEmpty sid)); [by left|].
  destruct (_ || _); [by left|].
  destruct file as [content|]; [|by left].
  destruct (length (readMessages content) =? 0)%nat eqn:El; [by left|].
  right. eexists sid, ci, rest, h, content, _, _.
  split_and!; try reflexivity; try done.
  simpl. intros Hnil. by rewrite Hnil in El.
Qed.

Lemma sendMessageHandler_view req tid now file s :
  let s' := fst (sendMessageHandler req tid now file s) in
  JsMap.get (activeTasks s) tid = None →
  match JsMap.get (activeTasks s') tid with
  | Some t => ∃ lp, loops s' !! tid = Some lp ∧ taskCounted t lp
  | None => True
  end.
Proof.
  cbv zeta. intros Hfresh.
  pose proof (sendMessageHandler_cases req tid now file s) as Hc.
  cbv zeta in Hc.
  destruct Hc as [[-> _]|(sid & ci & rest & h & content & t0 & lp0 & _ & _ & _
                          & _ & Hne & _ & Htot & Hsent & _ & Hstop & Hend & -> & _)].
  { by rewrite Hfresh. }
  pose proof (enterIteration_view tid lp0 0
                now (withTasks (JsMap.set (activeTasks s) tid t0) s)) as Hv.
  cbv zeta in Hv.
  destruct Hv as (lp' & Hl & Hm & [(Hpc & Hlt & Ht & _)|(Hpc & _ & Ht)]).
  - rewrite Ht. simpl. rewrite get_set_eq. exists lp'. split; [exact Hl|].
    unfold taskCounted. rewrite Hpc, Hm, Hsent, Hend, Htot.
    split_and!; try done; lia.
  - simpl in Ht. rewrite get_set_eq in Ht.
    match type of Ht with
    | match ?x with _ => _ end => destruct x as [t'|]; [|done]
    end.
    destruct Ht as (Hs & Htot' & _ & _ & Hended).
    exists lp'. split; [exact Hl|]. unfold taskCounted.
    rewrite Hpc, Hm, Hs, Htot', Hsent, Htot. split_and!; try done; lia.
Qed.

Lemma counted_step s e s' :
  tasksCounted s → step loggedOut s e = Some s' →
  tasksCounted s'
  ∧ ∀ tid t t', JsMap.get (activeTasks s) tid = Some t →
                JsMap.get (activeTasks s') tid = Some t' →
                countAdvances t t'.
Proof.
  intros Hc Hs.
  cut (∀ tid,
         (∀ t', JsMap.get (activeTasks s') tid = Some t' →
                ∃ lp', loops s' !! tid = Some lp' ∧ taskCounted t' lp')
         ∧ (∀ t t', JsMap.get (activeTasks s) tid = Some t →
                    JsMap.get (activeTasks s') tid = Some t' →
                    countAdvances t t')).
  { intros H. split.
    - intros tid t' Ht'. by apply (H tid).
    - intros tid. apply (H tid). }
  intros tid.
  destruct (decide (eventTask e = Some tid)) as [He|He]; cycle 1.
  { pose proof (step_other_view _ _ _ _ Hs He) as Hv.
    unfold taskView in Hv. injection Hv as Ht Hl _. rewrite Ht, Hl. split.
    - apply Hc.
    - intros t t' H1 H2. simplify_eq. unfold countAdvances.
      split_and!; [done|lia|done]. }
  destruct e; simpl in He; simplify_eq; unfold step in Hs.
  - (* a new task *)
    destruct (loops s !! tid) eqn:El; [done|].
    destruct (JsMap.get (activeTasks s) tid) eqn:Et; [done|].
    simplify_eq. split; [|done].
    intros t' Ht'. pose proof (sendMessageHandler_view req tid now file s) as Hv.
    cbv zeta in Hv. rewrite Ht' in Hv. by apply Hv.
  - (* a send has settled *)
    destruct (loops s !! tid) as [lp|] eqn:El; simpl in Hs; [|done].
    destruct (pc lp) as [i| | |] eqn:Epc; simplify_eq.
    pose proof (afterSend_view tid lp i ok now s) as Hv. cbv zeta in Hv.
    destruct Hv as ((lp' & Hl' & Hm & Hpc') & _ & Ht).
    destruct (JsMap.get (activeTasks s) tid) as [t|] eqn:Et;
      destruct (JsMap.get (activeTasks (afterSend tid lp i ok now s)) tid)
        as [t1|] eqn:Et1; try done.
    destruct Ht as (Htot & Hend & _ & _ & Hsent).
    destruct (Hc _ _ Et) as (lp0 & Hl0 & Htc). simplify_eq.
    unfold taskCounted in Htc. rewrite Epc in Htc.
    destruct Htc as (H1 & H2 & H3 & H4 & H5).
    split.
    + intros t' ?. simplify_eq. exists lp'. split; [done|].
      unfold taskCounted. rewrite Hpc', Hm, Htot, Hend, Hsent.
      split_and!; try done; destruct ok; lia.
    + intros t0 t' ??. simplify_eq. unfold countAdvances.
      rewrite Htot, Hsent, H5. split_and!; [done | destruct ok; lia |].
      by intros [? ?].
  - (* the sleep is over *)
    destruct (loops s !! tid) as [lp|] eqn:El; simpl in Hs; [|done].
    destruct (pc lp) as [|i| |] eqn:Epc; simplify_eq.
    pose proof (enterIteration_view tid lp (S i) now s) as Hv. cbv zeta in Hv.
    destruct Hv as (lp' & Hl' & Hm & [(Hpc' & Hlt & Ht & _)|(Hpc' & _ & Ht)]).
    + rewrite Ht. split.
      * intros t' Ht'. destruct (Hc _ _ Ht') as (lp0 & Hl0 & Htc). simplify_eq.
        exists lp'. split; [done|]. unfold taskCounted in *.
        rewrite Epc in Htc. rewrite Hpc', Hm. split_and!; try tauto; lia.
      * intros t t' ??. simplify_eq. unfold countAdvances.
        split_and!; [done|lia|done].
    + destruct (JsMap.get (activeTasks s) tid) as [t|] eqn:Et;
        destruct (JsMap.get (activeTasks (enterIteration tid lp (S i) now s)) tid)
          as [t1|] eqn:Et1; try done.
      destruct Ht as (Hsent & Htot & _ & _ & Hended).
      destruct (Hc _ _ Et) as (lp0 & Hl0 & Htc). simplify_eq.
      unfold taskCounted in Htc. rewrite Epc in Htc.
      split.
      * intros t' ?. simplify_eq. exists lp'. split; [done|].
        unfold taskCounted. rewrite Hpc', Hm, Htot, Hsent.
        split_and!; try tauto; lia.
      * intros t0 t' ??. simplify_eq. unfold countAdvances.
        rewrite Htot, Hsent. split_and!; [done|lia|done].
  - (* eviction *)
    destruct (loops s !! tid) as [lp|] eqn:El; simpl in Hs; [|done].
    destruct (pc lp) eqn:Epc; simplify_eq.
    assert (JsMap.get
              (activeTasks
                 (setPc tid lp Evicted
                    (withTasks (JsMap.delete (activeTasks s) tid) s))) tid
            = None) as Hgone.
    { simpl. apply get_delete_eq. }
    rewrite Hgone. by split.
  - (* stop *)
    simplify_eq. pose proof (stopTaskHandler_view tid s) as Hv.
    cbv zeta in Hv. destruct Hv as (Hl & _ & Ht).
    set (s' := fst (stopTaskHandler (Some tid) s)) in *.
    destruct (JsMap.get (activeTasks s) tid) as [t|] eqn:Et;
      destruct (JsMap.get (activeTasks s') tid) as [t1|] eqn:Et1; try done.
    destruct Ht as (Hsent & Htot & Hend & _).
    destruct (Hc _ _ Et) as (lp0 & Hl0 & Htc).
    split.
    + intros t' ?. simplify_eq. exists lp0. rewrite Hl. split; [done|].
      unfold taskCounted in *. by rewrite Htot, Hsent, Hend.
    + intros t0 t' ??. simplify_eq. unfold countAdvances.
      rewrite Htot, Hsent, Hend. split_and!; [done|lia|done].
Qed.

Lemma parked_run es s s' tid :
  loopParked tid s → run loggedOut s es = Some s' →
  loopParked tid s' ∧ sendsOf tid s' = sendsOf tid s.
Proof.
  revert s. induction es as [|e es IH]; simpl; intros s Hp Hrun.
  - by simplify_eq.
  - destruct (step loggedOut s e) as [s1|] eqn:E; simpl in Hrun; [|done].
    destruct (parked_step _ _ _ _ Hp E) as [Hp1 H1].
    destruct (IH _ Hp1 Hrun) as [Hp' H']. split; [done | congruence].
Qed.

(** C2. A task's loop sleeps after the send of message [k] has settled
    ([AwaitDelay k]) and a stop for the task is accepted. Then, whatever
    happens afterwards, [sendMessage] is never called for that task again,
    so message [k+1] is never sent; and when the sleep ends, the checkpoint
    sees the flag and the loop leaves the [for] without a send. *)
Theorem stop_prevents_next_send (s : state) (tid : string) (lp : sendLoop)
    (k : nat) (t : taskInfo) :
  loops s !! tid = Some lp →
  pc lp = AwaitDelay k →
  JsMap.get (activeTasks s) tid = Some t →
  tid ≠ "" →
  let stopped := fst (stopTaskHandler (Some tid) s) in
  snd (stopTaskHandler (Some tid) s) = StopAccepted tid
  ∧ (∀ es s', run loggedOut stopped es = Some s' →
       sendsOf tid s' = sendsOf tid s
       ∧ ∀ c, c ∈ outbox s' → callTask c = tid → c ∈ outbox s)
  ∧ (∀ now, ∃ s1 lp1,
       step loggedOut stopped (EDelayElapsed tid now) = Some s1
       ∧ loops s1 !! tid = Some lp1
       ∧ pc lp1 = AwaitEviction
       ∧ outbox s1 = outbox s).
Proof.
  intros Hl Hpc Ht Hne. cbv zeta.
  assert (nonEmpty tid = true) as Hn by (by destruct tid).
  pose proof (stopTaskHandler_view tid s) as Hv. cbv zeta in Hv.
  destruct Hv as (Hl' & Ho' & _).
  assert (∃ t', JsMap.get (activeTasks (fst (stopTaskHandler (Some tid) s))) tid
                = Some t' ∧ stopRequested t' = true) as (t' & Ht' & Hstop).
  { unfold stopTaskHandler. rewrite Hn, Ht. simpl. rewrite get_set_eq. eauto. }
  assert (snd (stopTaskHandler (Some tid) s) = StopAccepted tid) as Hresp.
  { unfold stopTaskHandler. by rewrite Hn, Ht. }
  set (stopped := fst (stopTaskHandler (Some tid) s)) in *.
  assert (loopParked tid stopped) as Hp.
  { unfold loopParked. by rewrite Hl', Hl, Hpc, Ht'. }
  assert (sendsOf tid stopped = sendsOf tid s) as Hsends.
  { unfold sendsOf. by rewrite Ho'. }
  split_and!; [done | |].
  - intros es s' Hrun. destruct (parked_run _ _ _ _ Hp Hrun) as [_ Heq].
    rewrite Hsends in Heq. split; [done|].
    intros c Hc Hct.
    assert (c ∈ sendsOf tid s') as Hin.
    { unfold sendsOf. apply list_elem_of_In, filter_In.
      split; [by apply list_elem_of_In | by apply String.eqb_eq]. }
    rewrite Heq in Hin. unfold sendsOf in Hin.
    apply list_elem_of_In, filter_In in Hin. apply list_elem_of_In, Hin.
  - intros now. unfold step. rewrite Hl', Hl. simpl. rewrite Hpc.
    eexists _, _. split; [done|]. unfold enterIteration.
    pose proof (finishLoop_view tid lp now) as Hfin. cbv zeta in Hfin.
    destruct (loopMessages lp !! S k).
    + rewrite Ht', Hstop.
      destruct (Hfin (log (LogTaskExit tid) stopped)) as (-> & -> & _).
      simpl. by split_and!.
    + destruct (Hfin stopped) as (-> & -> & _). by split_and!.
Qed.

Lemma reachable_counted es s :
  run loggedOut initial es = Some s → tasksCounted s.
Proof.
  apply (run_invariant loggedOut tasksCounted).
  - intros s0 e s1 H0 Hs. by destruct (counted_step _ _ _ H0 Hs).
  - intros tid t Ht. done.
Qed.

(** C3. In every state the server can reach, every registered task has
    [0 <= sentMessages <= totalMessages], [totalMessages] being the number
    of messages its loop was created with, and the task has its end date
    exactly when its loop has left the [for]. Across every step that keeps
    the task registered, [totalMessages] is unchanged and [sentMessages]
    does not decrease; once the task has its end date, [sentMessages] does
    not change any more and the end date stays. *)
Theorem sent_count_monotone_bounded (es : list event) (s : state) :
  run loggedOut initial es = Some s →
  (∀ tid t, JsMap.get (activeTasks s) tid = Some t →
     0 <= sentMessages t <= totalMessages t
     ∧ ∃ lp, loops s !! tid = Some lp
             ∧ totalMessages t = Z.of_nat (length (loopMessages lp))
             ∧ (is_Some (endedAt t) ↔ pc lp = AwaitEviction))
  ∧ (∀ e s' tid t t',
       step loggedOut s e = Some s' →
       JsMap.get (activeTasks s) tid = Some t →
       JsMap.get (activeTasks s') tid = Some t' →
       totalMessages t' = totalMessages t
       ∧ sentMessages t <= sentMessages t' <= totalMessages t'
       ∧ (is_Some (endedAt t) →
            sentMessages t' = sentMessages t ∧ is_Some (endedAt t'))).
Proof.
  intros Hrun. pose proof (reachable_counted _ _ Hrun) as Hc.
  assert (∀ s0, tasksCounted s0 → ∀ tid t,
            JsMap.get (activeTasks s0) tid = Some t →
            0 <= sentMessages t <= totalMessages t
            ∧ ∃ lp, loops s0 !! tid = Some lp
                ∧ totalMessages t = Z.of_nat (length (loopMessages lp))
                ∧ (is_Some (endedAt t) ↔ pc lp = AwaitEviction)) as Hbound.
  { intros s0 H0 tid t Ht. destruct (H0 _ _ Ht) as (lp & Hl & Htot & Hpos & Hpc).
    split.
    - destruct (pc lp); try done; lia.
    - exists lp. split_and!; try done.
      destruct (pc lp); try done.
      + destruct Hpc as (_ & _ & ->). split; [by intros [? ?] | done].
      + destruct Hpc as (_ & _ & ->). split; [by intros [? ?] | done].
      + split; [done | tauto]. }
  split; [by apply Hbound|].
  intros e s' tid t t' Hs Ht Ht'.
  destruct (counted_step _ _ _ Hc Hs) as [Hc' Hadv].
  destruct (Hadv _ _ _ Ht Ht') as (H1 & H2 & H3).
  destruct (Hbound _ Hc' _ _ Ht') as [Hb _].
  split_and!; try done; lia.
Qed.

Lemma statusTasks_find tid (s : state) :
  reportedTask tid s
  = (λ v, {| stTaskId := tid; stTarget := target v;
             stTargetJid := targetJid v;
             stTotalMessages := totalMessages v;
             stSentMessages := sentMessages v;
             stIsSending := isSending v;
             stStopRequested := stopRequested v;
             stStartedAt := startedAt v;
             stLastSentAt := lastSentAt v |})
    <$> JsMap.get (activeTasks s) tid.
Proof.
  unfold reportedTask, status, statusTasks. simpl.
  induction (activeTasks s) as [|[k v] m IH]; simpl; [done|].
  destruct (String.eqb k tid) eqn:E; [|done].
  apply String.eqb_eq in E. by subst.
Qed.

(** C10. A stop for a registered task is accepted at once: the stored
    entry has [stopRequested = true] and [isSending = false], and so does
    the status report that follows. The loop itself is untouched: when a
    send was in flight it still settles, and is counted, afterwards. *)
Theorem stop_reports_not_sending (s : state) (tid : string) (t : taskInfo) :
  JsMap.get (activeTasks s) tid = Some t →
  tid ≠ "" →
  let s' := fst (stopTaskHandler (Some tid) s) in
  snd (stopTaskHandler (Some tid) s) = StopAccepted tid
  ∧ (∃ t', JsMap.get (activeTasks s') tid = Some t'
           ∧ stopRequested t' = true ∧ isSending t' = false
           ∧ sentMessages t' = sentMessages t)
  ∧ (∃ st, reportedTask tid s' = Some st
           ∧ stIsSending st = false ∧ stStopRequested st = true)
  ∧ loops s' = loops s
  ∧ outbox s' = outbox s
  ∧ (∀ lp i now, loops s !! tid = Some lp → pc lp = AwaitSend i →
       ∃ s'' t'', step loggedOut s' (ESendSettled tid true now) = Some s''
                  ∧ JsMap.get (activeTasks s'') tid = Some t''
                  ∧ sentMessages t'' = sentMessages t + 1
                  ∧ isSending t'' = false).
Proof.
  intros Ht Hne. cbv zeta.
  assert (nonEmpty tid = true) as Hn by (by destruct tid).
  assert (stopTaskHandler (Some tid) s
          = (log (LogStopRequested tid)
               (withTasks
                  (JsMap.set (activeTasks s) tid
                     {| id := id t; sessionId := sessionId t;
                        target := target t; targetJid := targetJid t;
                        targetType := targetType t; prefix := prefix t;
                        totalMessages := totalMessages t;
                        sentMessages := sentMessages t;
                        isSending := false; stopRequested := true;
                        startedAt := startedAt t;
                        lastSentAt := lastSentAt t;
                        endedAt := endedAt t |}) s),
             StopAccepted tid)) as ->.
  { unfold stopTaskHandler. by rewrite Hn, Ht. }
  cbn [fst snd]. split_and!; try done.
  - eexists. split; [simpl; apply get_set_eq|]. done.
  - rewrite statusTasks_find. simpl. rewrite get_set_eq. simpl.
    eexists. by split.
  - intros lp i now Hl Hpc. unfold step. simpl. rewrite Hl. simpl. rewrite Hpc.
    eexists _, _. split; [done|].
    unfold afterSend. simpl. rewrite !get_set_eq. simpl.
    rewrite get_set_eq. done.
Qed.

Lemma firstConnected_None (m : list (string * clientInfo)) :
  firstConnected m = None
  ↔ ∀ sid ci, (sid, ci) ∈ m → connected ci = false ∨ client ci = None.
Proof.
  induction m as [|[k c] m IH]; simpl.
  - split; [intros _ ?? Hin; by apply elem_of_nil in Hin | done].
  - destruct (client c) as [h|] eqn:Eh.
    + destruct (connected c) eqn:Ec.
      * split; [done|]. intros H.
        assert ((k, c) ∈ (k, c) :: m) as Hin by apply list_elem_of_here.
        destruct (H _ _ Hin); congruence.
      * rewrite IH. split.
        -- intros H sid ci Hin. apply elem_of_cons in Hin as [?|?];
             [simplify_eq; by left | by eapply H].
        -- intros H sid ci Hin. eapply H. by apply list_elem_of_further.
    + rewrite IH. split.
      * intros H sid ci Hin. apply elem_of_cons in Hin as [?|?];
          [simplify_eq; by right | by eapply H].
      * intros H sid ci Hin. eapply H. by apply list_elem_of_further.
Qed.

(** C9. With session identifiers that are not empty (they are built as
    [perm_<number>_<time>]), [/send-message] answers "no active session"
    exactly when the registry is empty or its first entry holds no client;
    the [connected] flag is not read. So a complete request whose upload
    holds anything but white space starts a task against a first entry
    that is disconnected: the task is registered with all the messages of
    the upload, and the first of them has gone to [sendMessage] on that
    entry's client. [/groups] on the other hand answers with its error
    exactly when no entry is both connected and holding a client. *)
Theorem start_ignores_connected (s : state) (req : sendRequest)
    (tid : string) (now : Z) (file : option string) :
  Forall (λ k, k ≠ "") (JsMap.keys (activeClients s)) →
  (snd (sendMessageHandler req tid now file s) = NoActiveSession
   ↔ match head (activeClients s) with
     | Some (_, ci) => client ci = None
     | None => True
     end)
  ∧ (∀ sid ci rest h content,
       activeClients s = (sid, ci) :: rest →
       connected ci = false →
       client ci = Some h →
       requestComplete req →
       file = Some content →
       ¬ blank content →
       let s' := fst (sendMessageHandler req tid now file s) in
       (∃ jid, snd (sendMessageHandler req tid now file s)
               = TaskStarted tid sid jid
                   (Z.of_nat (length (readMessages content))))
       ∧ (∃ t, JsMap.get (activeTasks s') tid = Some t
               ∧ sessionId t = sid ∧ isSending t = true
               ∧ 0 < totalMessages t
               ∧ totalMessages t = Z.of_nat (length (readMessages content)))
       ∧ (∃ lp, loops s' !! tid = Some lp
                ∧ pc lp = AwaitSend 0 ∧ loopClient lp = h
                ∧ loopMessages lp = readMessages content)
       ∧ (∃ c m, outbox s' = outbox s ++ [c]
               ∧ head (readMessages content) = Some m
               ∧ callText c = textToSend (default "" (reqPrefix req)) m
               ∧ callTask c = tid ∧ callIndex c = 0%nat ∧ callClient c = h))
  ∧ (groupsHandler s = GroupsNoSession
     ↔ ∀ sid ci, (sid, ci) ∈ activeClients s →
                 connected ci = false ∨ client ci = None).
Proof.
  intros Hkeys. split_and!.
  - unfold sendMessageHandler.
    destruct (activeClients s) as [|[sid ci] rest] eqn:Ec; simpl; [done|].
    destruct (client ci) as [h|] eqn:Eh; simpl; [|done].
    apply Forall_cons in Hkeys as [Hsid _]. simpl in Hsid.
    assert (nonEmpty sid = true) as -> by (by destruct sid). simpl.
    repeat case_match; done.
  - intros sid ci rest h content Hc Hconn Hh (H1 & H2 & H3 & H4) -> Hmsgs.
    assert (readMessages content ≠ []) as Hlines.
    { intros Hnil. apply Hmsgs, splitOn_blank. revert Hnil. clear.
      unfold readMessages.
      induction (splitOn "010" content) as [|p ps IH]; [constructor|].
      simpl. destruct (trim p) eqn:E; simpl; [|done].
      intros Hnil. constructor; [by apply trim_empty | by apply IH]. }
    clear Hmsgs. rename Hlines into Hmsgs.
    cbv zeta. unfold sendMessageHandler. rewrite Hc. simpl. rewrite Hh. simpl.
    rewrite Hc in Hkeys. apply Forall_cons in Hkeys as [Hsid _]. simpl in Hsid.
    assert (nonEmpty sid = true) as -> by (by destruct sid). simpl.
    rewrite H1, H2, H3, H4. simpl.
    destruct (readMessages content) as [|m ms] eqn:Em; [done|]. simpl.
    unfold enterIteration. simpl. rewrite get_set_eq. simpl.
    rewrite get_set_eq, lookup_insert_eq.
    split_and!; repeat eexists; split_and?; done.
  - unfold groupsHandler. rewrite <- firstConnected_None.
    by destruct (firstConnected (activeClients s)).
Qed.
End TaskProperties.

(** Three messages, no prefix, no stop: they go out in order, the count
    ends at 3 and the task is marked finished. *)
Example whole_task_in_order :
  ∃ s t, Server.run 401 Server.initial wholeTaskTrace = Some s
    ∧ map Server.callText (Server.outbox s) = ["a"; "b"; "c"]
    ∧ JsMap.get (Server.activeTasks s) "task_1700000300000_p2m4z" = Some t
    ∧ Server.sentMessages t = 3
    ∧ Server.isSending t = false
    ∧ Server.endedAt t = Some 1700000303900.
Proof. eexists _, _. split_and!; vm_compute; reflexivity. Qed.

(** Five messages, a stop right after the first send: one send in all,
    and the entry is gone once the eviction timer has fired. *)
Example stopped_after_first_send :
  ∃ s, Server.run 401
         (fst (Server.stopTaskHandler (Some "task_1700000200000_k3x9a")
                 firstSentState))
         afterStopTrace = Some s
    ∧ map Server.callText (Server.outbox s) = ["one"]
    ∧ JsMap.get (Server.activeTasks s) "task_1700000200000_k3x9a" = None.
Proof. eexists. split_and!; vm_compute; reflexivity. Qed.

Lemma stop_prevents_next_send_witness :
  let tid := "task_1700000200000_k3x9a" in
  let stopped := fst (Server.stopTaskHandler (Some tid) firstSentState) in
  snd (Server.stopTaskHandler (Some tid) firstSentState) = Server.StopAccepted tid
  ∧ (∀ es s', Server.run 401 stopped es = Some s' →
       sendsOf tid s' = sendsOf tid firstSentState
       ∧ ∀ c, c ∈ Server.outbox s' → Server.callTask c = tid →
              c ∈ Server.outbox firstSentState)
  ∧ (∀ now, ∃ s1 lp1,
       Server.step 401 stopped (Server.EDelayElapsed tid now) = Some s1
       ∧ Server.loops s1 !! tid = Some lp1
       ∧ Server.pc lp1 = Server.AwaitEviction
       ∧ Server.outbox s1 = Server.outbox firstSentState).
Proof.
  eapply (stop_prevents_next_send 401 firstSentState
            "task_1700000200000_k3x9a" _ 0%nat).
  - vm_compute. reflexivity.
  - reflexivity.
  - vm_compute. reflexivity.
  - discriminate.
Defined.

Lemma sent_count_monotone_bounded_witness :
  (∀ tid t, JsMap.get (Server.activeTasks firstSentState) tid = Some t →
     0 <= Server.sentMessages t <= Server.totalMessages t
     ∧ ∃ lp, Server.loops firstSentState !! tid = Some lp
             ∧ Server.totalMessages t
               = Z.of_nat (length (Server.loopMessages lp))
             ∧ (is_Some (Server.endedAt t)
                ↔ Server.pc lp = Server.AwaitEviction))
  ∧ (∀ e s' tid t t',
       Server.step 401 firstSentState e = Some s' →
       JsMap.get (Server.activeTasks firstSentState) tid = Some t →
       JsMap.get (Server.activeTasks s') tid = Some t' →
       Server.totalMessages t' = Server.totalMessages t
       ∧ Server.sentMessages t <= Server.sentMessages t'
         <= Server.totalMessages t'
       ∧ (is_Some (Server.endedAt t) →
            Server.sentMessages t' = Server.sentMessages t
            ∧ is_Some (Server.endedAt t'))).
Proof.
  apply (sent_count_monotone_bounded 401 firstSentTrace firstSentState).
  vm_compute. reflexivity.
Defined.

Lemma stop_reports_not_sending_witness :
  let tid := "task_1700000200000_k3x9a" in
  let s' := fst (Server.stopTaskHandler (Some tid) startedState) in
  ∃ t, JsMap.get (Server.activeTasks startedState) tid = Some t
    ∧ snd (Server.stopTaskHandler (Some tid) startedState)
      = Server.StopAccepted tid
    ∧ (∃ t', JsMap.get (Server.activeTasks s') tid = Some t'
             ∧ Server.stopRequested t' = true ∧ Server.isSending t' = false
             ∧ Server.sentMessages t' = Server.sentMessages t)
    ∧ (∃ st, reportedTask tid s' = Some st
             ∧ Server.stIsSending st = false
             ∧ Server.stStopRequested st = true)
    ∧ Server.loops s' = Server.loops startedState
    ∧ Server.outbox s' = Server.outbox startedState
    ∧ (∀ lp i now, Server.loops startedState !! tid = Some lp →
         Server.pc lp = Server.AwaitSend i →
         ∃ s'' t'', Server.step 401 s' (Server.ESendSettled tid true now)
                    = Some s''
                    ∧ JsMap.get (Server.activeTasks s'') tid = Some t''
                    ∧ Server.sentMessages t'' = Server.sentMessages t + 1
                    ∧ Server.isSending t'' = false).
Proof.
  cbv zeta. eexists. split; [vm_compute; reflexivity|].
  eapply (stop_reports_not_sending 401 startedState
            "task_1700000200000_k3x9a").
  - vm_compute. reflexivity.
  - discriminate.
Defined.

Lemma start_ignores_connected_witness :
  let tid := "task_1700000200000_k3x9a" in
  let sid := "perm_9779800000_1700000000000" in
  let s' := fst (Server.sendMessageHandler sampleRequest tid 1700000200000
                   (Some fiveMessages) pairedState) in
  (∃ ci, Server.activeClients pairedState = [(sid, ci)]
         ∧ Server.connected ci = false)
  ∧ (∃ jid, snd (Server.sendMessageHandler sampleRequest tid 1700000200000
                   (Some fiveMessages) pairedState)
            = Server.TaskStarted tid sid jid
                (Z.of_nat (length (Server.readMessages fiveMessages))))
  ∧ (∃ t, JsMap.get (Server.activeTasks s') tid = Some t
          ∧ Server.sessionId t = sid ∧ Server.isSending t = true
          ∧ 0 < Server.totalMessages t
          ∧ Server.totalMessages t
            = Z.of_nat (length (Server.readMessages fiveMessages)))
  ∧ (∃ lp, Server.loops s' !! tid = Some lp
           ∧ Server.pc lp = Server.AwaitSend 0 ∧ Server.loopClient lp = 1%nat
           ∧ Server.loopMessages lp = Server.readMessages fiveMessages)
  ∧ (∃ c m, Server.outbox s' = Server.outbox pairedState ++ [c]
          ∧ head (Server.readMessages fiveMessages) = Some m
          ∧ Server.callText c
            = Server.textToSend (default "" (Server.reqPrefix sampleRequest)) m
          ∧ Server.callTask c = tid ∧ Server.callIndex c = 0%nat
          ∧ Server.callClient c = 1%nat)
  ∧ (length (Server.readMessages fiveMessages) = 5%nat
     ∧ Server.groupsHandler pairedState = Server.GroupsNoSession).
Proof.
  cbv zeta.
  assert (Forall (λ k, k ≠ "") (JsMap.keys (Server.activeClients pairedState)))
    as Hkeys by (vm_compute; repeat constructor; discriminate).
  destruct (start_ignores_connected pairedState sampleRequest
              "task_1700000200000_k3x9a" 1700000200000 (Some fiveMessages)
              Hkeys) as (_ & Hstart & _).
  destruct (Hstart "perm_9779800000_1700000000000"
              {| Server.client := Some 1%nat;
                 Server.number := Some "9779800000";
                 Server.authPath :=
                   Some (Server.sessionPath "perm_9779800000_1700000000000");
                 Server.connected := false;
                 Server.lastConnected := Server.LcNull;
                 Server.retryCount := 0 |}
              [] 1%nat fiveMessages)
    as (H1 & H2 & H3 & H4);
    [ vm_compute; reflexivity | vm_compute; reflexivity
    | vm_compute; reflexivity | repeat split; done | reflexivity
    | intros Hb%isBlank_blank; discriminate Hb |].
  split; [eexists; split; vm_compute; reflexivity|].
  split_and!; [exact H1 | exact H2 | exact H3 | exact H4
              | by vm_compute | by vm_compute].
Defined.

(** ** The simulation server *)
Section SimProperties.
Import Sim.

Lemma lastN_length {A} n (l : list A) : (length (lastN n l) ≤ n)%nat.
Proof. unfold lastN. rewrite length_drop. lia. Qed.

Lemma lastN_short {A} n (l : list A) : (length l ≤ n)%nat → lastN n l = l.
Proof.
  intros H. unfold lastN. by replace (length l - n)%nat with 0%nat by lia.
Qed.

Lemma lastN_app_lastN {A} n (l l2 : list A) :
  lastN n (lastN n l ++ l2) = lastN n (l ++ l2).
Proof.
  destruct (decide (length l ≤ n)%nat) as [H|H].
  { by rewrite (lastN_short n l). }
  unfold lastN. rewrite !length_app, length_drop.
  set (k := (length l - n)%nat).
  rewrite <- (drop_app_le l l2 k) by lia.
  rewrite drop_drop. f_equal. lia.
Qed.

Lemma pushCapped_lastN (l : list logEntry) obj :
  pushCapped l obj = lastN LOG_CAP (l ++ [obj]).
Proof.
  unfold pushCapped. destruct (LOG_CAP <? length (l ++ [obj]))%nat eqn:E.
  - done.
  - apply Nat.ltb_ge in E. by rewrite lastN_short.
Qed.

Lemma appendLog_logs now w entry s :
  logs (appendLog now w entry s) = pushCapped (logs s) (logObject now entry).
Proof. done. Qed.

Lemma appendAll_logs calls s :
  (length (logs s) ≤ LOG_CAP)%nat →
  logs (appendAll calls s)
  = lastN LOG_CAP
      (logs s ++ map (λ c, logObject (fst (fst c)) (snd c)) calls).
Proof.
  revert s. induction calls as [|[[now w] entry] calls IH]; intros s Hs.
  - simpl. by rewrite app_nil_r, lastN_short.
  - unfold appendAll in *. cbn [fold_left fst snd map].
    rewrite IH.
    + rewrite appendLog_logs, pushCapped_lastN, lastN_app_lastN.
      by rewrite <- app_assoc.
    + rewrite appendLog_logs, pushCapped_lastN. apply lastN_length.
Qed.

Lemma startLoop_logs s : logs (startLoop s) = logs s.
Proof. unfold startLoop. by destruct (negb _). Qed.

(** Every transition either leaves the log alone or pushes one object. *)
Lemma step_logs s e s' :
  step s e = Some s' →
  logs s' = logs s ∨ ∃ obj, logs s' = pushCapped (logs s) obj.
Proof.
  destruct e; simpl; intros Hs.
  - simplify_eq. unfold uptimeTick. destruct (running (sim s)); by left.
  - destruct (loopTimer s); simplify_eq. unfold tick.
    destruct (running (sim s)); [|by left]. simpl.
    destruct file; [|right; by eexists].
    destruct (_ =? 0); [by left | right; by eexists].
  - simplify_eq. right. by eexists.
  - simplify_eq. unfold uploadHandler.
    destruct file as [f|]; [|by left].
    destruct content; cbn [fst]; [|by left].
    right. eexists. destruct (running _); rewrite ?startLoop_logs; reflexivity.
  - simplify_eq. unfold startHandler. right. eexists.
    destruct (Server.truthy _); rewrite ?startLoop_logs; reflexivity.
  - simplify_eq. right. by eexists.
Qed.

(** C7. The log never holds more than [LOG_CAP] = 2000 entries after an
    insertion, whatever it held before. Starting from a log within the
    cap, a series of insertions leaves exactly the last 2000 of the old
    entries followed by the new objects, in insertion order, so the oldest
    are the ones dropped. And the cap holds in every state the simulation
    reaches from such a log. *)
Theorem log_capped_fifo (s : state)
    (calls : list (string * bool * logEntry)) :
  (length (logs s) ≤ LOG_CAP)%nat →
  (∀ now w entry l,
     (length (pushCapped l (logObject now entry)) ≤ LOG_CAP)%nat
     ∧ logs (appendLog now w entry s)
       = lastN LOG_CAP (logs s ++ [logObject now entry]))
  ∧ (length (logs (appendAll calls s)) ≤ LOG_CAP)%nat
  ∧ logs (appendAll calls s)
    = lastN LOG_CAP
        (logs s ++ map (λ c, logObject (fst (fst c)) (snd c)) calls)
  ∧ (∀ es s', run s es = Some s' → (length (logs s') ≤ LOG_CAP)%nat).
Proof.
  intros Hs. split_and!.
  - intros now w entry l. split.
    + rewrite pushCapped_lastN. apply lastN_length.
    + by rewrite appendLog_logs, pushCapped_lastN.
  - rewrite appendAll_logs by done. apply lastN_length.
  - by apply appendAll_logs.
  - intros es. revert s Hs. induction es as [|e es IH]; simpl; intros s Hs s' Hrun.
    + by simplify_eq.
    + destruct (step s e) as [s1|] eqn:E; simpl in Hrun; [|done].
      apply (IH s1); [|done].
      destruct (step_logs _ _ _ E) as [->|[obj ->]]; [done|].
      rewrite pushCapped_lastN. apply lastN_length.
Qed.

Lemma asStrings_persisted (l : list string) :
  mapM asStr (map persisted (map VStr l)) = Some l.
Proof.
  apply mapM_Some_2. induction l as [|x l IH]; by constructor.
Qed.

Lemma optStr_persisted x : asOptStr (persisted (optStr x)) = Some x.
Proof. by destruct x. Qed.

(** What is read back from a saved [simulation]: the same record, the
    delay in its persisted form. *)
Lemma readSimulation_saved (m : simulation) :
  readSimulation (persisted (simulationValue m)) = Some (reloaded m).
Proof.
  unfold readSimulation, simulationValue.
  cbn [persisted map fst snd JsMap.get String.eqb Ascii.eqb Bool.eqb
       mbind option_bind asBool asStr asNum asStrings].
  rewrite asStrings_persisted, !optStr_persisted. done.
Qed.

Lemma parseIntValue_persisted r v :
  parseIntValue r (persisted v) = parseIntValue r v.
Proof. by destruct v. Qed.

Lemma delayMs_persisted (m m' : simulation) :
  delay m' = persisted (delay m) → delayMs m' = delayMs m.
Proof. unfold delayMs. intros ->. by rewrite parseIntValue_persisted. Qed.

Lemma startLoop_sim s : sim (startLoop s) = sim s.
Proof. unfold startLoop. by destruct (negb _). Qed.

Lemma startLoop_others s :
  logs (startLoop s) = logs s
  ∧ sessionsFile (startLoop s) = sessionsFile s
  ∧ logsFile (startLoop s) = logsFile s.
Proof. unfold startLoop. by destruct (negb _). Qed.

Lemma startLoop_timer s :
  Server.truthy (filePath (sim s)) = true →
  loopTimer (startLoop s) = Some (delayMs (sim s)).
Proof. unfold startLoop. by intros ->. Qed.

Lemma boot_saved (m : simulation) logsJson l randomId :
  asObjects (loadJson logsJson (VArr [])) = Some l →
  ∃ s', boot (Some (persisted (simulationValue m))) logsJson randomId = Some s'
    ∧ sim s' = reloaded m
    ∧ logs s' = l
    ∧ loopTimer s'
      = (if running m && Server.truthy (filePath m)
         then Some (delayMs (reloaded m)) else None).
Proof.
  intros Hlogs. unfold boot. cbn [loadJson].
  rewrite readSimulation_saved. cbn [mbind option_bind]. rewrite Hlogs.
  cbn [mbind option_bind]. eexists. split; [reflexivity|].
  change (running (reloaded m)) with (running m).
  change (filePath (reloaded m)) with (filePath m).
  destruct (running m); [|done].
  destruct (Server.truthy (filePath m)) eqn:E; [|done].
  cbn [andb]. rewrite startLoop_sim, startLoop_timer by done.
  by destruct (startLoop_others
                 {| sim := reloaded m; logs := l; loopTimer := None;
                    sessionsFile := Some (persisted (simulationValue m));
                    logsFile := logsJson |}) as (-> & _).
Qed.

(** A firing of the loop that finds the index within the file. *)
Lemma tick_sends logTime sentTime wS wL raw s :
  running (sim s) = true →
  0 <= currentIndex (sim s) < Z.of_nat (length (readLinesFromFile raw)) →
  let s' := tick logTime sentTime wS wL (ReadOk raw) s in
  logs s'
  = pushCapped (logs s)
      (logObject logTime
         (sendEntry (sim s) (readLinesFromFile raw) (currentIndex (sim s))))
  ∧ currentIndex (sim s')
    = (if Z.of_nat (length (readLinesFromFile raw)) <=? currentIndex (sim s) + 1
       then 0 else currentIndex (sim s) + 1)
  ∧ (wS = true →
     sessionsFile s' = Some (persisted (simulationValue (sim s')))).
Proof.
  intros Hrun Hidx. cbv zeta. unfold tick. rewrite Hrun. cbn [negb].
  assert ((Z.of_nat (length (readLinesFromFile raw)) =? 0) = false) as ->
    by (apply Z.eqb_neq; lia).
  assert ((Z.of_nat (length (readLinesFromFile raw)) <=? currentIndex (sim s))
          = false) as -> by (apply Z.leb_gt; lia).
  split_and!; try done. by intros ->.
Qed.

(** C6. The snapshot written by [saveJson(SESSIONS_FILE, simulation)] and
    loaded by the next start of the process gives back the same
    [currentIndex], target, prefix, [running] flag and file; the delay
    comes back in its persisted form (a number as itself, [NaN] as
    [null]), which the loop turns into the same period. The loop is
    started again exactly when the snapshot says [running] and names a
    file, and its first firing sends the line at the saved [currentIndex],
    not line 0, then saves the advanced index. *)
Theorem snapshot_resumes (s : state) (logsJson : option value)
    (l : list logEntry) (randomId : string) :
  asObjects (loadJson logsJson (VArr [])) = Some l →
  ∃ s', boot (sessionsFile (saveSessions true s)) logsJson randomId = Some s'
    ∧ currentIndex (sim s') = currentIndex (sim s)
    ∧ targetType (sim s') = targetType (sim s)
    ∧ targetValue (sim s') = targetValue (sim s)
    ∧ prefix (sim s') = prefix (sim s)
    ∧ running (sim s') = running (sim s)
    ∧ filePath (sim s') = filePath (sim s)
    ∧ delay (sim s') = persisted (delay (sim s))
    ∧ (∀ n, delay (sim s) = VNum n → delay (sim s') = VNum n)
    ∧ delayMs (sim s') = delayMs (sim s)
    ∧ loopTimer s'
      = (if running (sim s) && Server.truthy (filePath (sim s))
         then Some (delayMs (sim s)) else None)
    ∧ (∀ logTime sentTime wS wL raw,
         running (sim s) = true →
         Server.truthy (filePath (sim s)) = true →
         0 <= currentIndex (sim s)
           < Z.of_nat (length (readLinesFromFile raw)) →
         ∃ s'', step s' (ETick logTime sentTime wS wL (ReadOk raw)) = Some s''
           ∧ logs s''
             = pushCapped (logs s')
                 (logObject logTime
                    (sendEntry (sim s) (readLinesFromFile raw)
                       (currentIndex (sim s))))
           ∧ currentIndex (sim s'')
             = (if Z.of_nat (length (readLinesFromFile raw))
                   <=? currentIndex (sim s) + 1
                then 0 else currentIndex (sim s) + 1)
           ∧ (wS = true →
              sessionsFile s'' = Some (persisted (simulationValue (sim s''))))).
Proof.
  intros Hlogs.
  destruct (boot_saved (sim s) logsJson l randomId Hlogs)
    as (s' & Hboot & Hsim & _ & Htimer).
  exists s'. split; [exact Hboot|].
  assert (delayMs (reloaded (sim s)) = delayMs (sim s)) as Hms
    by (by apply delayMs_persisted).
  rewrite Hsim, Htimer, Hms. cbn [reloaded currentIndex targetType targetValue
    prefix running filePath delay].
  split_and!; try done.
  - by intros n ->.
  - intros logTime sentTime wS wL raw Hrun Hfile Hidx.
    unfold step. rewrite Htimer, Hrun, Hfile. cbn [andb].
    eexists. split; [reflexivity|].
    pose proof (tick_sends logTime sentTime wS wL raw s') as Ht.
    cbv zeta in Ht. rewrite Hsim in Ht. by apply Ht.
Qed.

Lemma roundDouble_small n : Z.log2 n - 52 <= 0 → roundDouble n = n.
Proof.
  intros H. unfold roundDouble.
  by destruct (Z.leb_spec (Z.log2 n - 52) 0); [|lia].
Qed.

(** Above 53 bits the result is a multiple of [2^sh], the one below [n] or
    the one above; the one below when [n] is on it or under the middle. *)
Lemma roundDouble_grid n sh :
  0 < sh → sh = Z.log2 n - 52 →
  ∃ q', roundDouble n = q' * 2 ^ sh
    ∧ n / 2 ^ sh <= q' <= n / 2 ^ sh + 1
    ∧ (n mod 2 ^ sh < 2 ^ (sh - 1) → q' = n / 2 ^ sh).
Proof.
  intros Hsh ->. unfold roundDouble.
  destruct (Z.leb_spec (Z.log2 n - 52) 0); [lia|].
  set (sh := Z.log2 n - 52) in *.
  assert (0 < 2 ^ (sh - 1)) by (apply Z.pow_pos_nonneg; lia).
  destruct (_ || _) eqn:E; eexists; split; try reflexivity.
  - split; [lia|]. intros Hlt.
    apply orb_prop in E as [E|E].
    + apply Z.ltb_lt in E. lia.
    + apply andb_prop in E as [E _]. apply Z.eqb_eq in E. lia.
  - split; [lia | done].
Qed.

(** Rounding does not cross a double: between two doubles of its own
    grid a number stays between them. *)
Lemma roundDouble_between n a b sh :
  0 < sh → sh = Z.log2 n - 52 →
  a * 2 ^ sh <= n <= b * 2 ^ sh →
  a * 2 ^ sh <= roundDouble n <= b * 2 ^ sh.
Proof.
  intros Hsh Heq [Ha Hb].
  destruct (roundDouble_grid n sh Hsh Heq) as (q' & -> & [Hq1 Hq2] & Hlow).
  assert (0 < 2 ^ sh) as Hpos by (apply Z.pow_pos_nonneg; lia).
  pose proof (Z.div_mod n (2 ^ sh) ltac:(lia)) as Hdm.
  pose proof (Z.mod_pos_bound n (2 ^ sh) Hpos) as Hmod.
  assert (a <= n / 2 ^ sh) by (apply Z.div_le_lower_bound; lia).
  split; [nia|].
  destruct (decide (n mod 2 ^ sh = 0)) as [Hz|Hnz].
  - rewrite Hlow; [nia|]. rewrite Hz. apply Z.pow_pos_nonneg; lia.
  - assert (n / 2 ^ sh < b) by nia. nia.
Qed.

Lemma roundDouble_product k :
  0 <= k < 2 ^ 53 →
  0 <= roundDouble (k * 900000) <= 900000 * 2 ^ 53 - 2 ^ 20.
Proof.
  intros Hk. set (n := k * 900000).
  assert (0 <= n <= 900000 * 2 ^ 53 - 900000) as Hn by (unfold n; lia).
  destruct (Z.le_gt_cases (Z.log2 n - 52) 0) as [Hs|Hs].
  { rewrite roundDouble_small by done.
    split; [lia|]. destruct (decide (n = 0)) as [->|]; [lia|].
    pose proof (Z.log2_spec n ltac:(lia)) as [_ Hup].
    assert (2 ^ Z.succ (Z.log2 n) <= 2 ^ 53) by (apply Z.pow_le_mono_r; lia).
    lia. }
  assert (0 < n) as Hpos by (destruct (decide (n = 0)) as [E|]; [by rewrite E in Hs | lia]).
  set (sh := Z.log2 n - 52) in *.
  destruct (roundDouble_grid n sh Hs eq_refl) as (q' & -> & [Hq1 Hq2] & Hlow).
  assert (0 < 2 ^ sh) as Hp by (apply Z.pow_pos_nonneg; lia).
  pose proof (Z.div_mod n (2 ^ sh) ltac:(lia)) as Hdm.
  pose proof (Z.mod_pos_bound n (2 ^ sh) Hp) as Hmod.
  assert (0 <= n / 2 ^ sh) by (apply Z.div_pos; lia).
  split; [nia|].
  assert (Z.log2 n <= 72) as Hlog.
  { transitivity (Z.log2 (900000 * 2 ^ 53 - 900000));
      [apply Z.log2_le_mono; lia | by vm_compute]. }
  destruct (decide (sh = 20)) as [Hsh|Hsh].
  - rewrite Hsh in *.
    assert (n / 2 ^ 20 <= 900000 * 2 ^ 33 - 1).
    { apply Z.lt_succ_r, Z.div_lt_upper_bound; lia. }
    destruct (decide (n / 2 ^ 20 = 900000 * 2 ^ 33 - 1)) as [Hq|Hq].
    + rewrite Hlow; [lia|]. lia.
    + lia.
  - assert (sh <= 19) by (unfold sh in *; lia).
    pose proof (Z.log2_spec n Hpos) as [_ Hup].
    replace (Z.succ (Z.log2 n)) with (sh + 53) in Hup by (unfold sh; lia).
    rewrite Z.pow_add_r in Hup by lia.
    assert (n / 2 ^ sh < 2 ^ 53) by (apply Z.div_lt_upper_bound; lia).
    assert (2 ^ sh <= 2 ^ 19) by (apply Z.pow_le_mono_r; lia).
    nia.
Qed.

Lemma roundDouble_sum p :
  0 <= p <= 900000 * 2 ^ 53 - 2 ^ 20 →
  100000 * 2 ^ 53 <= roundDouble (100000 * 2 ^ 53 + p)
    <= 1000000 * 2 ^ 53 - 2 ^ 20.
Proof.
  intros Hp. set (n := 100000 * 2 ^ 53 + p).
  assert (100000 * 2 ^ 53 <= n <= 1000000 * 2 ^ 53 - 2 ^ 20) as Hn
    by (unfold n; lia).
  assert (69 <= Z.log2 n <= 72) as Hlog.
  { split.
    - transitivity (Z.log2 (100000 * 2 ^ 53));
        [by vm_compute | apply Z.log2_le_mono; lia].
    - transitivity (Z.log2 (1000000 * 2 ^ 53 - 2 ^ 20));
        [apply Z.log2_le_mono; lia | by vm_compute]. }
  assert (Z.log2 n - 52 = 17 ∨ Z.log2 n - 52 = 18
          ∨ Z.log2 n - 52 = 19 ∨ Z.log2 n - 52 = 20) as Hsh by lia.
  destruct Hsh as [Hsh|[Hsh|[Hsh|Hsh]]].
  - pose proof (roundDouble_between n (100000 * 2 ^ 36)
                  (1000000 * 2 ^ 36 - 2 ^ 3) 17 ltac:(lia) (eq_sym Hsh)).
    lia.
  - pose proof (roundDouble_between n (100000 * 2 ^ 35)
                  (1000000 * 2 ^ 35 - 2 ^ 2) 18 ltac:(lia) (eq_sym Hsh)).
    lia.
  - pose proof (roundDouble_between n (100000 * 2 ^ 34)
                  (1000000 * 2 ^ 34 - 2 ^ 1) 19 ltac:(lia) (eq_sym Hsh)).
    lia.
  - pose proof (roundDouble_between n (100000 * 2 ^ 33)
                  (1000000 * 2 ^ 33 - 1) 20 ltac:(lia) (eq_sym Hsh)).
    lia.
Qed.

Lemma randomCode_range (k : Z) :
  0 <= k < 2 ^ 53 → 100000 <= randomCode k <= 999999.
Proof.
  intros Hk. unfold randomCode.
  pose proof (roundDouble_sum _ (roundDouble_product k Hk)) as [H1 H2].
  split.
  - apply Z.div_le_lower_bound; lia.
  - apply Z.lt_succ_r, Z.div_lt_upper_bound; lia.
Qed.

(** C5, as the code has it. In [/code], a pairing answer is given only for
    a socket that is not registered, and its code is the provider's own
    answer when the socket has [requestPairingCode], the fixed text
    [SCAN_QR_FROM_SERVER_LOGS] when it has not. The simulation's [/pair]
    has no provider: its code is the number [randomCode] computes from
    the random draw, in doubles as the code does, and lies between 100000
    and 999999. *)
Theorem pairing_code_sources (number' : option string) (now : Z) (h : nat)
    (waClient : Server.waSocket) (s0 : Server.state) :
  Server.truthy number' = true →
  let num := Server.keepDigits (default "" number') in
  let response :=
    snd (Server.codeHandler number' now (Server.InitOk h) waClient s0) in
  (∀ code sid, response = Server.CodePairing code sid →
     Server.registered waClient = false
     ∧ ((∃ request, Server.requestPairingCode waClient = Some request
                    ∧ request num = Some code)
        ∨ (Server.requestPairingCode waClient = None
           ∧ code = Server.SCAN_QR)))
  ∧ (Server.registered waClient = false →
     ∀ request, Server.requestPairingCode waClient = Some request →
       response = match request num with
                  | Some code => Server.CodePairing code (Server.newSessionId num now)
                  | None => Server.CodeError
                  end)
  ∧ (Server.registered waClient = false →
     Server.requestPairingCode waClient = None →
     response = Server.CodePairing Server.SCAN_QR (Server.newSessionId num now))
  ∧ (Server.registered waClient = true →
     response = Server.CodeAlreadyConnected (Server.newSessionId num now))
  ∧ (∀ pairNumber k time wS wL s,
       0 <= k < 2 ^ 53 →
       snd (pairHandler pairNumber k time wS wL s) = VNum (randomCode k)
       ∧ 100000 <= randomCode k <= 999999).
Proof.
  intros Hnum. cbv zeta. unfold Server.codeHandler. rewrite Hnum.
  cbn [negb snd]. unfold Server.codeRespond.
  split_and!.
  - intros code sid. destruct (Server.registered waClient); cbn [negb]; [done|].
    destruct (Server.requestPairingCode waClient) as [request|].
    + destruct (request _) as [c|] eqn:E; [|done].
      intros [= <- <-]. split; [done|]. left. by exists request.
    + intros [= <- <-]. split; [done|]. by right.
  - by intros -> request ->.
  - by intros -> ->.
  - by intros ->.
  - intros pairNumber k time wS wL s Hk. split; [done|].
    by apply randomCode_range.
Qed.
End SimProperties.

(** C5 as the specification states it, at [/pair]: there is no provider
    capability there, so the answer would have to be the fixed text. It is
    a number that follows the random draw instead. *)
Lemma pair_handler_fabricates_code :
  snd (Sim.pairHandler (Some "9779800000") 0 "2024-05-01T09:59:00.000Z"
         true true freshSim) = Sim.VNum 100000
  ∧ snd (Sim.pairHandler (Some "9779800000") (2 ^ 52)
           "2024-05-01T09:59:00.000Z" true true freshSim) = Sim.VNum 550000
  ∧ ¬ (∀ number' k now wS wL s,
         snd (Sim.pairHandler number' k now wS wL s)
         = Sim.VStr Server.SCAN_QR).
Proof.
  split_and!; [vm_compute; reflexivity.. |].
  intros H.
  specialize (H (Some "9779800000") 0 "2024-05-01T09:59:00.000Z" true true
                freshSim).
  vm_compute in H. discriminate.
Qed.

(** The code of [/pair] follows the doubles: at this draw the sum
    [100000 + 24616.99999999999...] rounds up to the next whole number,
    one more than the quotient in exact arithmetic. *)
Example pair_code_rounds_as_doubles :
  Sim.randomCode 246366915615510 = 124617
  ∧ 100000 + 246366915615510 * 900000 / 2 ^ 53 = 124616
  ∧ Sim.randomCode (2 ^ 53 - 1) = 999999.
Proof. by vm_compute. Qed.

Lemma pairing_code_sources_witness :
  Server.truthy (Some "+977 98-00000") = true
  ∧ snd (Server.codeHandler (Some "+977 98-00000") 1700000000000
           (Server.InitOk 1%nat) pairingWaSocket Server.initial)
    = Server.CodePairing "K7QM2XDP" "perm_9779800000_1700000000000"
  ∧ snd (Server.codeHandler (Some "+977 98-00000") 1700000000000
           (Server.InitOk 1%nat) sampleWaSocket Server.initial)
    = Server.CodePairing "SCAN_QR_FROM_SERVER_LOGS"
        "perm_9779800000_1700000000000".
Proof.
  split; [reflexivity|]. split.
  - destruct (pairing_code_sources (Some "+977 98-00000") 1700000000000 1%nat
                pairingWaSocket Server.initial eq_refl)
      as (_ & Hrequest & _).
    exact (Hrequest eq_refl _ eq_refl).
  - destruct (pairing_code_sources (Some "+977 98-00000") 1700000000000 1%nat
                sampleWaSocket Server.initial eq_refl)
      as (_ & _ & Hsentinel & _).
    exact (Hsentinel eq_refl eq_refl).
Defined.

(** C6 as the specification states it, for the delay: [/start] with a
    delay that is not a number stores [NaN]; the snapshot holds [null],
    and that is what the restarted process has as its delay. *)
Lemma reloaded_delay_differs :
  Sim.run freshSim simTrace = Some simState
  ∧ Sim.delay (Sim.sim simState) = Sim.VNaN
  ∧ ∃ s', Sim.boot (Sim.sessionsFile (Sim.saveSessions true simState))
            (Sim.logsFile simState) "p0q1r2s3" = Some s'
      ∧ Sim.delay (Sim.sim s') = Sim.VNull
      ∧ Sim.delay (Sim.sim s') ≠ Sim.delay (Sim.sim simState).
Proof.
  split; [by vm_compute|]. split; [by vm_compute|].
  eexists. split; [vm_compute; reflexivity|]. split; [by vm_compute|].
  vm_compute. discriminate.
Qed.

Lemma snapshot_resumes_witness :
  Sim.delay (Sim.sim simState) = Sim.VNaN
  ∧ ∃ s', Sim.boot (Sim.sessionsFile (Sim.saveSessions true simState))
            (Sim.logsFile simState) "p0q1r2s3" = Some s'
      ∧ Sim.currentIndex (Sim.sim s') = 2
      ∧ Sim.delay (Sim.sim s') = Sim.VNull
      ∧ Sim.loopTimer s' = Some 10000.
Proof.
  split; [vm_compute; reflexivity|].
  assert (∃ l, Sim.asObjects (Sim.loadJson (Sim.logsFile simState) (Sim.VArr []))
               = Some l) as [l Hl].
  { eexists. vm_compute. reflexivity. }
  destruct (snapshot_resumes simState (Sim.logsFile simState) l "p0q1r2s3" Hl)
    as (s' & Hboot & Hindex & _ & _ & _ & _ & _ & Hdelay & _ & _ & Htimer & _).
  exists s'. split; [exact Hboot|].
  rewrite Hindex, Hdelay, Htimer. vm_compute. done.
Defined.

Lemma log_capped_fifo_witness :
  let calls :=
    [("2024-05-01T10:01:00.000Z", true, [("type", Sim.VStr "stop")]);
     ("2024-05-01T10:02:00.000Z", false,
      [("type", Sim.VStr "pair"); ("number", Sim.VNull);
       ("pairingCode", Sim.VNum 550000)])] in
  (length (Sim.logs simState) ≤ Sim.LOG_CAP)%nat
  ∧ (length (Sim.logs (appendAll calls simState)) ≤ Sim.LOG_CAP)%nat
  ∧ Sim.logs (appendAll calls simState)
    = lastN Sim.LOG_CAP
        (Sim.logs simState
         ++ map (λ c, logObject (fst (fst c)) (snd c)) calls).
Proof.
  cbv zeta.
  assert (length (Sim.logs simState) ≤ Sim.LOG_CAP)%nat as Hcap.
  { vm_compute. lia. }
  split; [exact Hcap|].
  destruct (log_capped_fifo simState
              [("2024-05-01T10:01:00.000Z", true, [("type", Sim.VStr "stop")]);
               ("2024-05-01T10:02:00.000Z", false,
                [("type", Sim.VStr "pair"); ("number", Sim.VNull);
                 ("pairingCode", Sim.VNum 550000)])] Hcap)
    as (_ & Hlen & Hlogs & _).
  split; [exact Hlen | exact Hlogs].
Defined.

(** ** The send loop in full *)
Section LoopOrder.
Import Server.
Variable loggedOut : Z.

Lemma sendsOf_own tid c s :
  callTask c = tid → sendsOf tid (sendCalled c s) = sendsOf tid s ++ [c].
Proof.
  intros <-. rewrite sendsOf_sendCalled. by rewrite String.eqb_refl.
Qed.

Lemma expectedCalls_S tid lp i m :
  loopMessages lp !! i = Some m →
  expectedCalls tid lp (S i) = expectedCalls tid lp i ++ [callOf tid lp i m].
Proof.
  intros Hm. unfold expectedCalls. rewrite (take_S_r _ _ _ Hm), imap_app.
  simpl. rewrite length_take_le, Nat.add_0_r; [done|].
  apply lookup_lt_Some in Hm. lia.
Qed.

(** What one pass through the head of the [for] does to the loops, the
    outbox and the task's entry. *)
Lemma enterIteration_effect tid lp i now s :
  let s' := enterIteration tid lp i now s in
  (∃ m t, loopMessages lp !! i = Some m
          ∧ JsMap.get (activeTasks s) tid = Some t
          ∧ stopRequested t = false
          ∧ loops s' = <[tid := withPc lp (AwaitSend i)]> (loops s)
          ∧ outbox s' = outbox s ++ [callOf tid lp i m]
          ∧ activeTasks s' = activeTasks s)
  ∨ ((loopMessages lp !! i = None
      ∨ JsMap.get (activeTasks s) tid = None
      ∨ ∃ t, JsMap.get (activeTasks s) tid = Some t ∧ stopRequested t = true)
     ∧ loops s' = <[tid := withPc lp AwaitEviction]> (loops s)
     ∧ outbox s' = outbox s
     ∧ match JsMap.get (activeTasks s) tid,
             JsMap.get (activeTasks s') tid with
       | Some t, Some t' =>
           sentMessages t' = sentMessages t
           ∧ totalMessages t' = totalMessages t
           ∧ isSending t' = false
           ∧ endedAt t' = Some now
       | None, None => True
       | _, _ => False
       end).
Proof.
  cbv zeta. unfold enterIteration, finishLoop, setPc.
  destruct (loopMessages lp !! i) as [m|] eqn:Em.
  - destruct (JsMap.get (activeTasks s) tid) as [t|] eqn:Et; simpl.
    + destruct (stopRequested t) eqn:Es; simpl.
      * right. rewrite Et. simpl. rewrite get_set_eq. split_and!; eauto.
      * left. exists m, t. by split_and!.
    + right. rewrite Et. simpl. rewrite Et. split_and!; eauto.
  - right. destruct (JsMap.get (activeTasks s) tid) as [t|] eqn:Et; simpl.
    + rewrite get_set_eq. split_and!; eauto.
    + rewrite Et. split_and!; eauto.
Qed.

Lemma afterSend_effect tid lp i ok now s :
  let s' := afterSend tid lp i ok now s in
  loops s' = <[tid := withPc lp (AwaitDelay i)]> (loops s)
  ∧ outbox s' = outbox s.
Proof. cbv zeta. unfold afterSend, setPc. by repeat case_match. Qed.

Lemma order_step s e s' :
  sendsInOrder s → step loggedOut s e = Some s' → sendsInOrder s'.
Proof.
  intros Hin Hs tid. specialize (Hin tid).
  destruct (decide (eventTask e = Some tid)) as [He|He]; cycle 1.
  { pose proof (step_other_view loggedOut _ _ _ _ Hs He) as Hv.
    unfold taskView in Hv. injection Hv as _ Hl Ho. by rewrite Hl, Ho. }
  destruct e; simpl in He; simplify_eq; unfold step in Hs.
  - (* a new task *)
    destruct (loops s !! tid) eqn:El; [done|].
    destruct (JsMap.get (activeTasks s) tid) eqn:Et; [done|]. simplify_eq.
    pose proof (sendMessageHandler_cases req tid now file s) as Hc.
    cbv zeta in Hc.
    destruct Hc as [[-> _]|(sid & ci & rest & h & content & t0 & lp0 & _ & _ & _
                            & _ & _ & _ & _ & _ & _ & _ & _ & -> & _)].
    { by rewrite El. }
    pose proof (enterIteration_effect tid lp0 0 now
                  (withTasks (JsMap.set (activeTasks s) tid t0) s)) as Hv.
    cbv zeta in Hv.
    destruct Hv as [(m & t & Hm & _ & _ & -> & Ho & _)|(_ & -> & Ho & _)];
      rewrite lookup_insert_eq; unfold sendsOf; rewrite Ho; simpl outbox.
    + exists 1%nat. split; [apply lookup_lt_Some in Hm; simpl; lia|].
      split; [|done].
      rewrite List.filter_app. fold (sendsOf tid s). rewrite Hin. simpl.
      rewrite String.eqb_refl.
      by rewrite (expectedCalls_S tid (withPc lp0 (AwaitSend 0)) 0 m).
    + exists 0%nat. split; [lia|]. split; [|done].
      fold (sendsOf tid s). by rewrite Hin.
  - (* a send has settled *)
    destruct (loops s !! tid) as [lp|] eqn:El; simpl in Hs; [|done].
    destruct (pc lp) as [i| | |] eqn:Epc; simplify_eq.
    destruct (afterSend_effect tid lp i ok now s) as [Hl Ho].
    rewrite Hl, lookup_insert_eq. unfold sendsOf. rewrite Ho.
    destruct Hin as (n & Hn & Hsends & ->). exists (S i). by split_and!.
  - (* the sleep is over *)
    destruct (loops s !! tid) as [lp|] eqn:El; simpl in Hs; [|done].
    destruct (pc lp) as [|i| |] eqn:Epc; simplify_eq.
    destruct Hin as (n & Hn & Hsends & ->).
    pose proof (enterIteration_effect tid lp (S i) now s) as Hv.
    cbv zeta in Hv.
    destruct Hv as [(m & t & Hm & _ & _ & -> & Ho & _)|(_ & -> & Ho & _)];
      rewrite lookup_insert_eq; unfold sendsOf; rewrite Ho.
    + exists (S (S i)). split; [apply lookup_lt_Some in Hm; simpl; lia|].
      split; [|done].
      rewrite List.filter_app. fold (sendsOf tid s). rewrite Hsends. simpl.
      rewrite String.eqb_refl.
      by rewrite (expectedCalls_S tid (withPc lp (AwaitSend (S i))) (S i) m).
    + exists (S i). by split_and!.
  - (* eviction *)
    destruct (loops s !! tid) as [lp|] eqn:El; simpl in Hs; [|done].
    destruct (pc lp) eqn:Epc; simplify_eq.
    unfold setPc. simpl. rewrite lookup_insert_eq.
    destruct Hin as (n & Hn & Hsends & _). exists n. by split_and!.
  - (* stop *)
    simplify_eq. pose proof (stopTaskHandler_view tid s) as Hv.
    cbv zeta in Hv. destruct Hv as (Hl & Ho & _).
    unfold sendsOf in *. by rewrite Hl, Ho.
Qed.

Lemma imap_callOf tid lp (l : list string) (k : nat) :
  map callText (imap (λ i, callOf tid lp (k + i)) l)
  = map (textToSend (loopPrefix lp)) l
  ∧ map callIndex (imap (λ i, callOf tid lp (k + i)) l) = seq k (length l).
Proof.
  revert k. induction l as [|m l IH]; intros k; [done|].
  rewrite imap_cons. cbn [map length seq callText callIndex callOf].
  rewrite Nat.add_0_r.
  destruct (IH (S k)) as [IH1 IH2].
  assert (imap ((λ i, callOf tid lp (k + i)) ∘ S) l
          = imap (λ i, callOf tid lp (S k + i)) l) as ->.
  { apply imap_ext. intros i x _. simpl. f_equal. lia. }
  by rewrite IH1, IH2.
Qed.

Lemma withPc_same lp : withPc lp (pc lp) = lp.
Proof. by destruct lp. Qed.

(** The loop of a task keeps what it closed over; only its position
    moves. *)
Lemma loop_kept_step s e s' tid lp :
  step loggedOut s e = Some s' → loops s !! tid = Some lp →
  ∃ p, loops s' !! tid = Some (withPc lp p).
Proof.
  intros Hs Hl.
  destruct (decide (eventTask e = Some tid)) as [He|He]; cycle 1.
  { pose proof (step_other_view loggedOut _ _ _ _ Hs He) as Hv.
    unfold taskView in Hv. injection Hv as _ Hl' _.
    exists (pc lp). by rewrite Hl', withPc_same. }
  destruct e; simpl in He; simplify_eq; unfold step in Hs.
  - by rewrite Hl in Hs.
  - rewrite Hl in Hs. simpl in Hs. destruct (pc lp) as [i| | |]; simplify_eq.
    destruct (afterSend_effect tid lp i ok now s) as [-> _].
    rewrite lookup_insert_eq. eauto.
  - rewrite Hl in Hs. simpl in Hs. destruct (pc lp) as [|i| |]; simplify_eq.
    pose proof (enterIteration_effect tid lp (S i) now s) as Hv.
    cbv zeta in Hv.
    destruct Hv as [(m & t & _ & _ & _ & -> & _)|(_ & -> & _)];
      rewrite lookup_insert_eq; eauto.
  - rewrite Hl in Hs. simpl in Hs. destruct (pc lp); simplify_eq.
    unfold setPc. simpl. rewrite lookup_insert_eq. by exists Evicted.
  - simplify_eq. pose proof (stopTaskHandler_view tid s) as Hv.
    cbv zeta in Hv. destruct Hv as (-> & _).
    exists (pc lp). by rewrite withPc_same.
Qed.

Lemma loop_kept_run es s s' tid lp :
  run loggedOut s es = Some s' → loops s !! tid = Some lp →
  ∃ p, loops s' !! tid = Some (withPc lp p).
Proof.
  revert s lp. induction es as [|e es IH]; simpl; intros s lp Hrun Hl.
  - simplify_eq. exists (pc lp). by rewrite withPc_same.
  - destruct (step loggedOut s e) as [s1|] eqn:E; simpl in Hrun; [|done].
    destruct (loop_kept_step _ _ _ _ _ E Hl) as [p Hl1].
    destruct (IH _ _ Hrun Hl1) as [p' Hl']. by exists p'.
Qed.

(** The sends of a task are never taken back. *)
Lemma sends_grow_step s e s' tid :
  step loggedOut s e = Some s' → ∃ l, sendsOf tid s' = sendsOf tid s ++ l.
Proof.
  intros Hs.
  destruct (decide (eventTask e = Some tid)) as [He|He]; cycle 1.
  { pose proof (step_other_view loggedOut _ _ _ _ Hs He) as Hv.
    unfold taskView in Hv. injection Hv as _ _ ->. exists []. by rewrite app_nil_r. }
  destruct e; simpl in He; simplify_eq; unfold step in Hs.
  - destruct (loops s !! tid); [done|].
    destruct (JsMap.get (activeTasks s) tid); [done|]. simplify_eq.
    pose proof (sendMessageHandler_cases req tid now file s) as Hc.
    cbv zeta in Hc.
    destruct Hc as [[-> _]|(sid & ci & rest & h & content & t0 & lp0 & _ & _ & _
                            & _ & _ & _ & _ & _ & _ & _ & _ & -> & _)].
    { exists []. by rewrite app_nil_r. }
    pose proof (enterIteration_effect tid lp0 0 now
                  (withTasks (JsMap.set (activeTasks s) tid t0) s)) as Hv.
    cbv zeta in Hv.
    destruct Hv as [(m & t & _ & _ & _ & _ & Ho & _)|(_ & _ & Ho & _)];
      unfold sendsOf; rewrite Ho; simpl outbox.
    + rewrite List.filter_app. eauto.
    + exists []. by rewrite app_nil_r.
  - destruct (loops s !! tid) as [lp|]; simpl in Hs; [|done].
    destruct (pc lp) as [i| | |]; simplify_eq.
    destruct (afterSend_effect tid lp i ok now s) as [_ Ho].
    unfold sendsOf. rewrite Ho. exists []. by rewrite app_nil_r.
  - destruct (loops s !! tid) as [lp|]; simpl in Hs; [|done].
    destruct (pc lp) as [|i| |]; simplify_eq.
    pose proof (enterIteration_effect tid lp (S i) now s) as Hv.
    cbv zeta in Hv.
    destruct Hv as [(m & t & _ & _ & _ & _ & Ho & _)|(_ & _ & Ho & _)];
      unfold sendsOf; rewrite Ho.
    + rewrite List.filter_app. eauto.
    + exists []. by rewrite app_nil_r.
  - destruct (loops s !! tid) as [lp|]; simpl in Hs; [|done].
    destruct (pc lp); simplify_eq. exists []. by rewrite app_nil_r.
  - simplify_eq. pose proof (stopTaskHandler_view tid s) as Hv.
    cbv zeta in Hv. destruct Hv as (_ & Ho & _).
    unfold sendsOf. rewrite Ho. exists []. by rewrite app_nil_r.
Qed.

Lemma sends_grow_run es s s' tid :
  run loggedOut s es = Some s' → ∃ l, sendsOf tid s' = sendsOf tid s ++ l.
Proof.
  revert s. induction es as [|e es IH]; simpl; intros s Hrun.
  - simplify_eq. exists []. by rewrite app_nil_r.
  - destruct (step loggedOut s e) as [s1|] eqn:E; simpl in Hrun; [|done].
    destruct (sends_grow_step _ _ _ tid E) as [l1 H1].
    destruct (IH _ Hrun) as [l2 H2]. exists (l1 ++ l2).
    by rewrite H2, H1, app_assoc.
Qed.

Lemma sends_in_order_reachable es s :
  run loggedOut initial es = Some s → sendsInOrder s.
Proof.
  apply (run_invariant loggedOut sendsInOrder).
  - intros ????. by eapply order_step.
  - intros tid'. done.
Qed.

(** X1. A task started from an upload sends the lines of that upload and
    nothing else. In every state the server reaches after the request was
    answered with a started task, the calls of [sendMessage] made for the
    task are the calls for the first [n >= 1] messages read from the
    upload, in the order of the file and each once, all on the client of
    the session that was first in the registry at the start, all to the
    address computed from the request, each with the text the prefix of
    the request gives; while the loop is inside iteration [i] (sending or
    sleeping), [n = i + 1]. *)
Theorem sends_follow_the_upload (es0 es : list event) (s0 s1 s : state)
    (req : sendRequest) (tid : string) (now : Z) (content : string)
    (sid jid : string) (total : Z) :
  run loggedOut initial es0 = Some s0 →
  step loggedOut s0 (ESendMessage req tid now (Some content)) = Some s1 →
  snd (sendMessageHandler req tid now (Some content) s0)
  = TaskStarted tid sid jid total →
  run loggedOut s1 es = Some s →
  ∃ ci rest h n lp,
    activeClients s0 = (sid, ci) :: rest
    ∧ client ci = Some h
    ∧ (1 ≤ n ≤ length (readMessages content))%nat
    ∧ sendsOf tid s
      = imap (uploadCall tid h req) (take n (readMessages content))
    ∧ map callText (sendsOf tid s)
      = map (textToSend (default "" (reqPrefix req)))
            (take n (readMessages content))
    ∧ map callIndex (sendsOf tid s) = seq 0 n
    ∧ Forall (λ c, callJid c = requestJid req ∧ callClient c = h)
             (sendsOf tid s)
    ∧ loops s !! tid = Some lp
    ∧ loopMessages lp = readMessages content
    ∧ match pc lp with
      | AwaitSend i | AwaitDelay i => n = S i
      | _ => True
      end.
Proof.
  intros Hrun0 Hstep Hresp Hrun.
  assert (s1 = fst (sendMessageHandler req tid now (Some content) s0)) as Hs1.
  { unfold step in Hstep. by repeat case_match; simplify_eq. }
  assert (∃ ci rest h m,
            activeClients s0 = (sid, ci) :: rest
            ∧ client ci = Some h
            ∧ loops s1
              = <[tid := {| loopClient := h; loopJid := requestJid req;
                            loopPrefix := default "" (reqPrefix req);
                            loopMessages := readMessages content;
                            loopFile := default "" (reqFilePath req);
                            pc := AwaitSend 0 |}]> (loops s0)
            ∧ outbox s1 = outbox s0 ++ [uploadCall tid h req 0 m])
    as (ci & rest & h & m & Hc & Hh & Hl1 & Ho1).
  { rewrite Hs1. revert Hresp. clear. unfold sendMessageHandler.
    destruct (activeClients s0) as [|[sid' ci] rest]; simpl; [done|].
    destruct (client ci) as [h|] eqn:Eh; simpl; [|done].
    destruct (negb (nonEmpty sid')); [done|].
    destruct (_ || _); [done|].
    rewrite requestJid_code.
    destruct (readMessages content) as [|m ms] eqn:Em; [done|].
    cbn [length Nat.eqb snd fst]. intros [= <- <- <-].
    exists ci, rest, h, m. split; [done|]. split; [done|].
    unfold enterIteration. simpl. by rewrite get_set_eq. }
  set (lp0 := {| loopClient := h; loopJid := requestJid req;
                 loopPrefix := default "" (reqPrefix req);
                 loopMessages := readMessages content;
                 loopFile := default "" (reqFilePath req);
                 pc := AwaitSend 0 |}) in *.
  assert (loops s1 !! tid = Some lp0) as Hl1'
    by (by rewrite Hl1, lookup_insert_eq).
  destruct (loop_kept_run _ _ _ _ _ Hrun Hl1') as [p Hl].
  assert (sendsInOrder s) as Hin.
  { revert Hrun. apply (run_invariant loggedOut sendsInOrder).
    - intros ????. by eapply order_step.
    - eapply order_step; [|exact Hstep]. by eapply sends_in_order_reachable. }
  specialize (Hin tid). rewrite Hl in Hin.
  destruct Hin as (n & Hn & Hsends & Hpc).
  assert (sendsOf tid s0 = []) as Hnone.
  { pose proof (sends_in_order_reachable _ _ Hrun0 tid) as H0.
    unfold step in Hstep. destruct (loops s0 !! tid); [done | exact H0]. }
  assert (n ≠ 0%nat) as Hn0.
  { intros ->. destruct (sends_grow_run _ _ _ tid Hrun) as [l Hgrow].
    rewrite Hsends in Hgrow. unfold sendsOf in Hgrow at 1.
    rewrite Ho1, List.filter_app in Hgrow. fold (sendsOf tid s0) in Hgrow.
    rewrite Hnone in Hgrow. simpl in Hgrow. rewrite String.eqb_refl in Hgrow.
    by destruct (loopMessages (withPc lp0 p)). }
  change (expectedCalls tid (withPc lp0 p) n)
    with (imap (uploadCall tid h req) (take n (readMessages content)))
    in Hsends.
  destruct (imap_callOf tid (withPc lp0 p) (take n (readMessages content)) 0)
    as [Htext Hidx].
  rewrite length_take_le in Hidx by done.
  exists ci, rest, h, n, (withPc lp0 p).
  split_and!; try done.
  - lia.
  - rewrite Hsends. exact Htext.
  - rewrite Hsends. exact Hidx.
  - rewrite Hsends. clear. generalize (take n (readMessages content)).
    assert (∀ (f : nat → string → sendCall) l,
              (∀ i x, callJid (f i x) = requestJid req
                      ∧ callClient (f i x) = h) →
              Forall (λ c, callJid c = requestJid req ∧ callClient c = h)
                     (imap f l)) as Hall.
    { intros f l. revert f. induction l as [|x l IH]; intros f Hf;
        [constructor|].
      rewrite imap_cons. constructor; [apply Hf|].
      apply IH. intros i y. apply Hf. }
    intros l. by apply Hall.
Qed.

Lemma resolved_cons (o : bool * Z * Z) rest :
  resolved (o :: rest) = (if fst (fst o) then 1 else 0) + resolved rest.
Proof.
  unfold resolved. simpl. destruct (fst (fst o)); simpl; lia.
Qed.

Lemma run_two s e1 e2 es s1 s2 :
  step loggedOut s e1 = Some s1 → step loggedOut s1 e2 = Some s2 →
  run loggedOut s (e1 :: e2 :: es) = run loggedOut s2 es.
Proof. intros H1 H2. simpl. rewrite H1. simpl. by rewrite H2. Qed.

(** One settled send followed by the end of the sleep. *)
Lemma loop_round s tid lp i t (o : bool * Z * Z) es :
  loops s !! tid = Some lp →
  pc lp = AwaitSend i →
  JsMap.get (activeTasks s) tid = Some t →
  stopRequested t = false →
  ∃ s2 t2,
    run loggedOut s (schedule tid [o] ++ es) = run loggedOut s2 es
    ∧ JsMap.get (activeTasks s2) tid = Some t2
    ∧ sentMessages t2 = sentMessages t + (if fst (fst o) then 1 else 0)
    ∧ totalMessages t2 = totalMessages t
    ∧ match loopMessages lp !! S i with
      | Some m =>
          loops s2 !! tid = Some (withPc lp (AwaitSend (S i)))
          ∧ outbox s2 = outbox s ++ [callOf tid lp (S i) m]
          ∧ stopRequested t2 = false
      | None =>
          loops s2 !! tid = Some (withPc lp AwaitEviction)
          ∧ outbox s2 = outbox s
          ∧ isSending t2 = false
          ∧ endedAt t2 = Some (snd o)
      end.
Proof.
  intros Hl Hpc Ht Hstop. destruct o as [[ok t1] t2]. cbn [fst snd].
  set (s1 := afterSend tid lp i ok t1 s).
  assert (step loggedOut s (ESendSettled tid ok t1) = Some s1) as Hstep1.
  { unfold step. rewrite Hl. simpl. by rewrite Hpc. }
  destruct (afterSend_effect tid lp i ok t1 s) as [Hl1 Ho1].
  pose proof (afterSend_view tid lp i ok t1 s) as Hv1. cbv zeta in Hv1.
  destruct Hv1 as (_ & _ & Ht1). fold s1 in Hl1, Ho1, Ht1. rewrite Ht in Ht1.
  destruct (JsMap.get (activeTasks s1) tid) as [t'|] eqn:Et1; [|done].
  destruct Ht1 as (Htot & _ & _ & Hstop1 & Hsent).
  set (s2 := enterIteration tid (withPc lp (AwaitDelay i)) (S i) t2 s1).
  assert (step loggedOut s1 (EDelayElapsed tid t2) = Some s2) as Hstep2.
  { unfold step. rewrite Hl1, lookup_insert_eq. done. }
  pose proof (enterIteration_effect tid (withPc lp (AwaitDelay i)) (S i) t2 s1)
    as Hv2. cbv zeta in Hv2. fold s2 in Hv2.
  cbn [loopMessages withPc] in Hv2.
  assert (run loggedOut s (schedule tid [(ok, t1, t2)] ++ es)
          = run loggedOut s2 es) as Hrun.
  { unfold schedule. cbn [flat_map app fst snd].
    by apply (run_two _ _ _ _ s1 s2). }
  destruct Hv2 as [(m & t0 & Hm & Ht0 & _ & Hl2 & Ho2 & Ht2)
                  |(Hwhy & Hl2 & Ho2 & Ht2)].
  - exists s2, t'. split; [done|]. rewrite Ht2, Et1, Hm, Hl2, Ho2, Ho1.
    rewrite lookup_insert_eq, Hsent, Htot, Hstop1, Hstop.
    destruct ok; split_and!; try done; lia.
  - rewrite Et1 in Ht2.
    destruct (JsMap.get (activeTasks s2) tid) as [t''|] eqn:Et2; [|done].
    destruct Ht2 as (Hsent2 & Htot2 & Hsending & Hended).
    destruct Hwhy as [Hnone|[Habs|(t0 & Ht0 & Hst0)]].
    + exists s2, t''. split; [done|]. rewrite Hnone, Hl2, Ho2, Ho1.
      rewrite lookup_insert_eq, Hsent2, Hsent, Htot2, Htot.
      destruct ok; split_and!; try done; lia.
    + congruence.
    + rewrite Et1 in Ht0. simplify_eq. congruence.
Qed.

(** X2. A loop that is inside the send of message [i], with the stop flag
    down, and that is left alone (every send settles, resolved or
    rejected, every sleep ends) goes through all remaining messages: each
    is sent once, in order; a rejected send is neither repeated nor
    counted; at the end the loop has left the [for], the task is marked
    finished and [sentMessages] has grown by the number of resolved
    sends. *)
Theorem loop_runs_to_completion (rest : list (bool * Z * Z))
    (o : bool * Z * Z) (s : state) (tid : string) (lp : sendLoop) (i : nat)
    (t : taskInfo) :
  loops s !! tid = Some lp →
  pc lp = AwaitSend i →
  JsMap.get (activeTasks s) tid = Some t →
  stopRequested t = false →
  (S i + length rest = length (loopMessages lp))%nat →
  ∃ s' t',
    run loggedOut s (schedule tid (o :: rest)) = Some s'
    ∧ loops s' !! tid = Some (withPc lp AwaitEviction)
    ∧ outbox s'
      = outbox s
        ++ imap (λ j, callOf tid lp (S i + j)) (drop (S i) (loopMessages lp))
    ∧ JsMap.get (activeTasks s') tid = Some t'
    ∧ sentMessages t' = sentMessages t + resolved (o :: rest)
    ∧ totalMessages t' = totalMessages t
    ∧ isSending t' = false
    ∧ is_Some (endedAt t').
Proof.
  revert o s lp i t.
  induction rest as [|o' rest IH]; intros o s lp i t Hl Hpc Ht Hstop Hlen.
  - destruct (loop_round s tid lp i t o [] Hl Hpc Ht Hstop)
      as (s2 & t2 & Hrun & Ht2 & Hsent & Htot & Hend).
    rewrite app_nil_r in Hrun. simpl in Hlen.
    rewrite (lookup_ge_None_2 (loopMessages lp) (S i)) in Hend by lia.
    destruct Hend as (Hl2 & Ho2 & Hs2 & He2).
    exists s2, t2. rewrite Hrun. simpl run.
    rewrite drop_ge by lia. simpl. rewrite app_nil_r, resolved_cons.
    unfold resolved at 1. simpl. rewrite He2.
    split_and!; try done. lia.
  - destruct (loop_round s tid lp i t o (schedule tid (o' :: rest))
                Hl Hpc Ht Hstop)
      as (s2 & t2 & Hrun & Ht2 & Hsent & Htot & Hnext).
    simpl in Hlen.
    destruct (lookup_lt_is_Some_2 (loopMessages lp) (S i)) as [m Hm]; [lia|].
    rewrite Hm in Hnext. destruct Hnext as (Hl2 & Ho2 & Hstop2).
    destruct (IH o' s2 (withPc lp (AwaitSend (S i))) (S i) t2)
      as (s' & t' & Hrun' & Hl' & Ho' & Ht' & Hsent' & Htot' & Hs' & He');
      [done..| simpl; lia |].
    exists s', t'.
    change (schedule tid (o :: o' :: rest))
      with (schedule tid [o] ++ schedule tid (o' :: rest)).
    rewrite Hrun, Hrun'. split_and!; try done.
    + rewrite Ho', Ho2. cbn [loopMessages withPc].
      rewrite (drop_S _ _ _ Hm), imap_cons, Nat.add_0_r, <- app_assoc.
      simpl. do 2 f_equal. apply imap_ext. intros j x _. simpl.
      f_equal. lia.
    + rewrite Hsent', Hsent, (resolved_cons o). lia.
    + congruence.
Qed.
End LoopOrder.

(** ** More on the task registry *)
Section TaskRegistry.
Import Server.
Variable loggedOut : Z.

Lemma gone_step s e s' tid :
  taskGone tid s → step loggedOut s e = Some s' → taskGone tid s'.
Proof.
  intros [(lp & Hl & Hpc) Ht] Hs.
  destruct (decide (eventTask e = Some tid)) as [He|He]; cycle 1.
  { pose proof (step_other_view loggedOut _ _ _ _ Hs He) as Hv.
    unfold taskView in Hv. injection Hv as Ht' Hl' _.
    unfold taskGone. rewrite Hl', Ht'. eauto. }
  destruct e; simpl in He; simplify_eq; unfold step in Hs.
  - by rewrite Hl in Hs.
  - rewrite Hl in Hs. simpl in Hs. by rewrite Hpc in Hs.
  - rewrite Hl in Hs. simpl in Hs. by rewrite Hpc in Hs.
  - rewrite Hl in Hs. simpl in Hs. by rewrite Hpc in Hs.
  - simplify_eq. pose proof (stopTaskHandler_view tid s) as Hv.
    cbv zeta in Hv. destruct Hv as (Hl' & _ & Ht').
    rewrite Ht in Ht'. unfold taskGone. rewrite Hl', Hl.
    split; [eauto|].
    by destruct (JsMap.get (activeTasks (stopTaskHandler (Some tid) s).1) tid).
Qed.

(** X3. Eviction is final. When the five-minute timer of a finished task
    fires, the entry leaves the registry, and whatever happens afterwards
    it does not come back: the status report does not list the task, a
    stop for it is refused without effect, and no message is sent for
    it. *)
Theorem eviction_is_final (s : state) (tid : string) (lp : sendLoop) :
  loops s !! tid = Some lp →
  pc lp = AwaitEviction →
  ∃ s1, step loggedOut s (EEvictionTimer tid) = Some s1
    ∧ ∀ es s', run loggedOut s1 es = Some s' →
        JsMap.get (activeTasks s') tid = None
        ∧ reportedTask tid s' = None
        ∧ sendsOf tid s' = sendsOf tid s
        ∧ fst (stopTaskHandler (Some tid) s') = s'
        ∧ (∀ tid', snd (stopTaskHandler (Some tid) s') ≠ StopAccepted tid').
Proof.
  intros Hl Hpc. eexists. split.
  { unfold step. rewrite Hl. simpl. by rewrite Hpc. }
  set (s1 := setPc tid lp Evicted
               (withTasks (JsMap.delete (activeTasks s) tid) s)).
  assert (taskGone tid s1) as Hgone.
  { split.
    - exists (withPc lp Evicted). unfold s1, setPc. simpl.
      by rewrite lookup_insert_eq.
    - unfold s1. simpl. apply get_delete_eq. }
  assert (loopParked tid s1) as Hparked.
  { unfold loopParked, s1, setPc. simpl. by rewrite lookup_insert_eq. }
  intros es s' Hrun.
  assert (taskGone tid s') as [_ Ht'].
  { revert Hrun. apply (run_invariant loggedOut (taskGone tid)); [|done].
    intros ????. by eapply gone_step. }
  destruct (parked_run loggedOut _ _ _ _ Hparked Hrun) as [_ Hsends].
  split_and!; try done.
  - by rewrite statusTasks_find, Ht'.
  - unfold stopTaskHandler. rewrite Ht'. by destruct (negb _).
  - intros tid'. unfold stopTaskHandler. rewrite Ht'. by destruct (negb _).
Qed.

(** X4. For a target of type "number" the address of a started task is
    the digits of the target followed by [@s.whatsapp.net], whatever else
    the target contains; for any other type it is the target as typed.
    That address is the one in the answer, the one stored in the registry
    and shown by [/status], the one the loop holds, and the one the first
    message has gone to. *)
Theorem started_task_address (req : sendRequest) (tid : string) (now : Z)
    (file : option string) (s : state) (sid jid : string) (total : Z) :
  snd (sendMessageHandler req tid now file s) = TaskStarted tid sid jid total →
  let s' := fst (sendMessageHandler req tid now file s) in
  ∃ target, reqTarget req = Some target
    ∧ jid = (if String.eqb (default "" (reqTargetType req)) "number"
             then keepDigits target +:+ "@s.whatsapp.net"
             else target)
    ∧ Forall (λ c, isDigit c = true)
        (list_ascii_of_string (keepDigits target))
    ∧ (∃ t, JsMap.get (activeTasks s') tid = Some t
            ∧ Server.target t = target ∧ targetJid t = jid)
    ∧ (∃ st, reportedTask tid s' = Some st
             ∧ stTarget st = target ∧ stTargetJid st = jid)
    ∧ (∃ lp, loops s' !! tid = Some lp ∧ loopJid lp = jid)
    ∧ (∃ c, outbox s' = outbox s ++ [c]
            ∧ callTask c = tid ∧ callJid c = jid).
Proof.
  cbv zeta. rewrite statusTasks_find. unfold sendMessageHandler.
  destruct (activeClients s) as [|[sid' ci] rest]; simpl; [done|].
  destruct (client ci) as [h|] eqn:Eh; simpl; [|done].
  destruct (negb (nonEmpty sid')); [done|].
  destruct (_ || _) eqn:Ef; [done|].
  destruct file as [content|]; [|done].
  rewrite requestJid_code.
  destruct (readMessages content) as [|m ms] eqn:Em; [done|].
  cbn [length Nat.eqb snd fst]. intros [= <- <- <-].
  apply orb_false_elim in Ef as [Ef _]. apply orb_false_elim in Ef as [Ef _].
  apply orb_false_elim in Ef as [Ef _]. apply negb_false_iff in Ef.
  destruct (reqTarget req) as [tgt|] eqn:Et; [|done].
  exists tgt. split; [done|]. split.
  { unfold requestJid. by rewrite Et. }
  split; [apply keepDigits_digits|].
  unfold enterIteration. simpl. rewrite get_set_eq. simpl.
  rewrite get_set_eq, lookup_insert_eq. simpl.
  split_and!; eexists; split_and?; try done.
  all: unfold requestJid; by rewrite Et.
Qed.
End TaskRegistry.

(** ** More on the session registry *)
Section SessionRegistry.
Import Server.
Variable loggedOut : Z.

Lemma keys_set_new {V} (m : list (string * V)) k v :
  JsMap.get m k = None → JsMap.keys (JsMap.set m k v) = JsMap.keys m ++ [k].
Proof.
  unfold JsMap.keys. induction m as [|[k' v'] m IH]; simpl; [done|].
  destruct (String.eqb k' k); [done|]. intros H. simpl. by rewrite IH.
Qed.

Lemma keys_set_old {V} (m : list (string * V)) k v :
  is_Some (JsMap.get m k) → JsMap.keys (JsMap.set m k v) = JsMap.keys m.
Proof.
  unfold JsMap.keys. induction m as [|[k' v'] m IH]; simpl.
  - by intros [? ?].
  - destruct (String.eqb k' k) eqn:E; simpl.
    + apply String.eqb_eq in E. by subst.
    + intros H. by rewrite IH.
Qed.

Lemma takeTimer_pending (t : string * string) (l : list (string * string)) :
  t ∈ l → is_Some (takeTimer t l).
Proof.
  induction l as [|t' l IH]; [by intros ?%elem_of_nil|].
  intros Hin. simpl.
  destruct (String.eqb (fst t') (fst t) && String.eqb (snd t') (snd t)) eqn:E;
    [by eexists|].
  apply elem_of_cons in Hin as [->|Hin].
  - by rewrite !String.eqb_refl in E.
  - destruct (IH Hin) as [l' ->]. by eexists.
Qed.

Lemma closes_cons sk c cs s :
  closes loggedOut sk (c :: cs) s
  = closes loggedOut sk cs
      (onConnectionUpdate loggedOut sk (ConnClose (fst c)) (snd c) s).
Proof. done. Qed.

(** X5. Closes that call for a reconnect count up to the bound and no
    further. After [n] such closes on a session whose count was [r], the
    count is [min (r + n) MAX_RETRIES] and exactly
    [min n (MAX_RETRIES - r)] reconnects were armed, each for this
    session. *)
Theorem closes_count_to_the_bound (cs : list (option Z * Z)) (sk : socket)
    (s : state) :
  Forall (λ c, shouldReconnect loggedOut (fst c) = true) cs →
  0 <= retriesOf (sockSession sk) s <= MAX_RETRIES →
  let r := retriesOf (sockSession sk) s in
  let n := Z.of_nat (length cs) in
  let s' := closes loggedOut sk cs s in
  retriesOf (sockSession sk) s' = Z.min (r + n) MAX_RETRIES
  ∧ reconnectTimers s'
    = reconnectTimers s
      ++ replicate (Z.to_nat (Z.min n (MAX_RETRIES - r)))
           (sockSession sk, sockPhone sk).
Proof.
  cbv zeta. revert s. induction cs as [|c cs IH]; intros s Hcs Hr.
  - simpl. rewrite Z.add_0_r, Z.min_l by lia.
    rewrite Z.min_l by lia. simpl. by rewrite app_nil_r.
  - apply Forall_cons in Hcs as [Hc Hcs]. rewrite closes_cons.
    pose proof (close_handler_counts loggedOut sk (fst c) (snd c) s Hc) as Hstep.
    cbv zeta in Hstep. fold (retriesOf (sockSession sk) s) in Hstep.
    set (s1 := onConnectionUpdate loggedOut sk (ConnClose (fst c)) (snd c) s)
      in *.
    set (r := retriesOf (sockSession sk) s) in *.
    rewrite length_cons, Nat2Z.inj_succ.
    destruct (r <? MAX_RETRIES) eqn:Elt.
    + apply Z.ltb_lt in Elt. destruct Hstep as [Hcount Htimers].
      assert (retriesOf (sockSession sk) s1 = r + 1) as Hr1.
      { unfold retriesOf. by rewrite Hcount. }
      destruct (IH s1 Hcs) as [IH1 IH2]; [lia|].
      rewrite IH1, IH2, Hr1, Htimers. split; [f_equal; lia|].
      rewrite <- app_assoc. f_equal.
      replace (Z.to_nat (Z.min (Z.succ (Z.of_nat (length cs))) (MAX_RETRIES - r)))
        with (S (Z.to_nat (Z.min (Z.of_nat (length cs)) (MAX_RETRIES - (r + 1)))))
        by lia.
      done.
    + apply Z.ltb_ge in Elt. destruct Hstep as [Hclients Htimers].
      assert (retriesOf (sockSession sk) s1 = r) as Hr1.
      { unfold retriesOf. by rewrite Hclients. }
      destruct (IH s1 Hcs) as [IH1 IH2]; [lia|].
      rewrite IH1, IH2, Hr1, Htimers. split; [lia|].
      f_equal. f_equal. lia.
Qed.

(** X6. An open marks the session connected with the count back at 0 and
    the socket of the event as its client, in the place the session had in
    the registry (at the end when it had none); every other session is as
    it was. It cancels nothing: the reconnects armed before are still
    pending, and one that fires afterwards and succeeds leaves the
    registry alone. *)
Theorem open_resets_but_keeps_timers (sk : socket) (now : Z) (s : state) :
  let sid := sockSession sk in
  let s' := onConnectionUpdate loggedOut sk ConnOpen now s in
  JsMap.get (activeClients s') sid
  = Some {| client := Some (sockHandle sk); number := Some (sockPhone sk);
            authPath := Some (sessionPath sid); connected := true;
            lastConnected := LcDate now; retryCount := 0 |}
  ∧ (∀ k, k ≠ sid →
       JsMap.get (activeClients s') k = JsMap.get (activeClients s) k)
  ∧ JsMap.keys (activeClients s')
    = match JsMap.get (activeClients s) sid with
      | Some _ => JsMap.keys (activeClients s)
      | None => JsMap.keys (activeClients s) ++ [sid]
      end
  ∧ reconnectTimers s' = reconnectTimers s
  ∧ (∀ phone h, (sid, phone) ∈ reconnectTimers s →
       ∃ s'', step loggedOut s' (EReconnectTimer sid phone (InitOk h)) = Some s''
              ∧ activeClients s'' = activeClients s').
Proof.
  cbv zeta. unfold onConnectionUpdate. simpl. split_and!.
  - apply get_set_eq.
  - intros k Hk. by apply get_set_ne.
  - destruct (JsMap.get (activeClients s) (sockSession sk)) eqn:E.
    + by apply keys_set_old.
    + by apply keys_set_new.
  - done.
  - intros phone h Hin.
    destruct (takeTimer_pending _ _ Hin) as [l Hl].
    eexists. unfold step. simpl. rewrite Hl. simpl. done.
Qed.

(** X7. A close that calls for a reconnect, for a session the registry
    does not hold (it was deleted, or never opened): the handler starts
    from [{}], so the session is put at the end of the registry without
    client, number or path, with count 1, and a reconnect is armed. The
    keep-alive ticker skips such an entry, and when it is the only one,
    [/send-message] and [/groups] both answer that no session is
    active. *)
Theorem close_without_entry (sk : socket) (statusCode : option Z) (now : Z)
    (s : state) :
  JsMap.get (activeClients s) (sockSession sk) = None →
  shouldReconnect loggedOut statusCode = true →
  let sid := sockSession sk in
  let s' := onConnectionUpdate loggedOut sk (ConnClose statusCode) now s in
  JsMap.get (activeClients s') sid
  = Some {| client := None; number := None; authPath := None;
            connected := false; lastConnected := LcUndefined;
            retryCount := 1 |}
  ∧ JsMap.keys (activeClients s') = JsMap.keys (activeClients s) ++ [sid]
  ∧ reconnectTimers s' = reconnectTimers s ++ [(sid, sockPhone sk)]
  ∧ pinged (activeClients s') = pinged (activeClients s)
  ∧ (activeClients s = [] →
       groupsHandler s' = GroupsNoSession
       ∧ ∀ req tid now' file,
           sendMessageHandler req tid now' file s' = (s', NoActiveSession)).
Proof.
  intros Hnone Hr. cbv zeta. unfold onConnectionUpdate. rewrite Hr, Hnone.
  simpl. split_and!.
  - apply get_set_eq.
  - by apply keys_set_new.
  - done.
  - clear Hr. induction (activeClients s) as [|[k c] m IH]; [done|].
    simpl in *. destruct (String.eqb k (sockSession sk)); [done|].
    unfold pinged in *. simpl.
    destruct (connected c && bool_decide (is_Some (client c))); simpl;
      by rewrite IH.
  - intros ->. simpl. split; [done|]. intros. reflexivity.
Qed.

Lemma firstConnected_Some (m : list (string * clientInfo)) h :
  firstConnected m = Some h
  ↔ ∃ pre sid ci post,
      m = pre ++ (sid, ci) :: post
      ∧ Forall unusable pre
      ∧ connected ci = true ∧ client ci = Some h.
Proof.
  induction m as [|[k c] m IH]; simpl.
  - split; [done|]. intros (pre & ? & ? & ? & H & _). by destruct pre.
  - assert (firstConnected m = Some h →
            unusable (k, c) →
            ∃ pre sid ci post,
              (k, c) :: m = pre ++ (sid, ci) :: post
              ∧ Forall unusable pre
              ∧ connected ci = true ∧ client ci = Some h) as Hlater.
    { intros (pre & sid & ci & post & -> & Hpre & Hc & Hh)%IH Hu.
      exists ((k, c) :: pre), sid, ci, post. split_and!; try done.
      by constructor. }
    assert ((∃ pre sid ci post,
               (k, c) :: m = pre ++ (sid, ci) :: post
               ∧ Forall unusable pre
               ∧ connected ci = true ∧ client ci = Some h) →
            unusable (k, c) → firstConnected m = Some h) as Hback.
    { intros (pre & sid & ci & post & Heq & Hpre & Hc & Hh) Hu.
      destruct pre as [|e pre]; simpl in Heq; simplify_eq.
      - destruct Hu as [Hu|Hu]; simpl in Hu; congruence.
      - apply IH. apply Forall_cons in Hpre as [_ Hpre]. eauto 10. }
    destruct (client c) as [h'|] eqn:Eh.
    + destruct (connected c) eqn:Ec.
      * split.
        -- intros [= ->]. exists [], k, c, m. by split_and!.
        -- intros (pre & sid & ci & post & Heq & Hpre & Hc & Hh).
           destruct pre as [|e pre]; simpl in Heq; simplify_eq; [congruence|].
           apply Forall_cons in Hpre as [[Hu|Hu] _]; simpl in Hu; congruence.
      * split; [intros H; apply Hlater; [done | by left]
               | intros H; apply Hback; [done | by left]].
    + split; [intros H; apply Hlater; [done | by right]
             | intros H; apply Hback; [done | by right]].
Qed.

(** X8. [/groups] goes to the provider with the client of the first
    session, in registry order, that is connected and holds a client;
    every session before it is skipped because it is disconnected or has
    no client. *)
Theorem groups_uses_first_connected (s : state) (h : nat) :
  groupsHandler s = GroupsFetch h
  ↔ ∃ pre sid ci post,
      activeClients s = pre ++ (sid, ci) :: post
      ∧ Forall unusable pre
      ∧ connected ci = true ∧ client ci = Some h.
Proof.
  rewrite <- firstConnected_Some. unfold groupsHandler.
  destruct (firstConnected (activeClients s)); split; congruence.
Qed.

Lemma newSessionId_named num now : newSessionId num now ≠ "".
Proof. done. Qed.

Lemma initializeClient_named sid phone r o s :
  sid ≠ "" →
  Forall (λ e, fst e ≠ "") (activeClients s) →
  Forall (λ e, fst e ≠ "") (activeClients (initializeClient sid phone r o s)).
Proof.
  intros Hsid H. unfold initializeClient.
  repeat case_match; simpl; try done. by apply set_Forall.
Qed.

(** X9. Session identifiers in the registry are never empty: [/code]
    builds them as [perm_<digits>_<time>], and the connection handler
    writes under the identifier of its socket. This holds in every state
    reached through connection events of sockets with a non-empty
    identifier. *)
Theorem session_ids_not_empty (es : list event) (s : state) :
  socketsNamed es →
  run loggedOut initial es = Some s →
  Forall (λ k, k ≠ "") (JsMap.keys (activeClients s)).
Proof.
  intros Hes Hrun. unfold JsMap.keys. rewrite Forall_fmap.
  change (Forall (λ e, fst e ≠ "") (activeClients s)).
  assert (Forall (λ e : string * clientInfo, fst e ≠ "")
            (activeClients initial)) as Hinit by constructor.
  revert Hes Hrun Hinit. generalize initial.
  induction es as [|e es IH]; intros s0 Hes Hrun H0; simpl in Hrun.
  - by simplify_eq.
  - apply Forall_cons in Hes as [He Hes].
    destruct (step loggedOut s0 e) as [s1|] eqn:E; simpl in Hrun; [|done].
    apply (IH s1); [done..|]. clear IH Hrun Hes.
    destruct (isSessionEvent e) eqn:Hse.
    + destruct e; simpl in *; try done; simplify_eq.
      * unfold codeHandler. destruct (negb (truthy number0)); [done|].
        destruct o; cbn [fst];
          apply initializeClient_named; auto using newSessionId_named.
      * unfold onConnectionUpdate. repeat case_match; simpl; try done.
        all: by (apply set_Forall || apply delete_Forall).
      * destruct (takeTimer (sid, phone) (reconnectTimers s0)) as [l|];
          simpl in E; [|done].
        simplify_eq. unfold initializeClient. by repeat case_match.
      * unfold keepAlive.
        by destruct (keepAlive_fold ping (activeClients s0) s0) as (-> & _).
    + apply (step_task_event loggedOut) in E; [|done].
      apply (f_equal (λ x, x.1.1)) in E. simpl in E. by rewrite E.
Qed.
End SessionRegistry.

(** ** More on the simulation *)
Section SimInvariants.
Import Sim.

Lemma delayMs_bounds (m : simulation) :
  delayStored (delay m) → 1000 <= delayMs m <= 60000.
Proof.
  unfold delayMs. intros [->|[->|(n & -> & Hn)]]; simpl; try lia.
  unfold orTen. destruct n; lia.
Qed.

Lemma clamped_delay (x : option Z) :
  delayStored (numValue (mathMin 60 (mathMax 1 x))).
Proof.
  destruct x as [n|]; simpl; [|by left].
  right. right. eexists. split; [done|]. lia.
Qed.

Lemma startLoop_ok s :
  simOk s → running (sim s) = true → simOk (startLoop s).
Proof.
  intros (H1 & H2 & H3 & H4 & H5) Hrun. unfold startLoop.
  destruct (negb _); [done|].
  pose proof (delayMs_bounds _ H4).
  unfold simOk. simpl. split_and!; try done; lia.
Qed.

Lemma step_ok s e s' : simOk s → step s e = Some s' → simOk s'.
Proof.
  intros Hok Hs. pose proof Hok as (H1 & H2 & H3 & H4 & H5).
  destruct e; simpl in Hs.
  - simplify_eq. unfold uptimeTick. by destruct (running (sim s)).
  - destruct (loopTimer s) as [period|] eqn:Et; simplify_eq.
    unfold tick. destruct (running (sim s)) eqn:Hrun; [|done]. simpl.
    destruct H5 as [_ H5].
    destruct file as [raw|]; cycle 1.
    { unfold simOk; simpl; rewrite Et, Hrun. split_and!; try done; lia. }
    destruct (_ =? 0) eqn:Hn.
    { unfold simOk. rewrite Et, Hrun. split_and!; try done; lia. }
    apply Z.eqb_neq in Hn.
    unfold simOk. simpl. rewrite Et.
    set (n := Z.of_nat (length (readLinesFromFile raw))) in *.
    assert (0 < n) by lia.
    split_and!; try done; try lia.
    + repeat case_match; lia.
    + left.
      destruct (n <=? currentIndex (sim s)) eqn:E1;
        [apply Z.leb_le in E1 | apply Z.leb_gt in E1];
        match goal with
        | |- context [?a <=? ?b] =>
            destruct (a <=? b) eqn:E2;
            [apply Z.leb_le in E2 | apply Z.leb_gt in E2]
        end; lia.
  - simplify_eq. unfold simOk. simpl. by split_and!.
  - simplify_eq. unfold uploadHandler.
    destruct file as [f|]; [|done].
    destruct content as [raw|]; cbn [fst].
    + set (s1 := appendLog _ _ _ _).
      assert (simOk s1) as Hok1.
      { unfold simOk, s1. simpl. split_and!; try done.
        - by right.
        - rewrite length_take. lia. }
      destruct (running (sim s1)) eqn:Hrun; [by apply startLoop_ok | done].
    + unfold simOk. simpl. by split_and!.
  - simplify_eq. unfold startHandler.
    set (s1 := appendLog _ _ _ _).
    assert (simOk s1 ∧ running (sim s1) = true) as [Hok1 Hrun1].
    { unfold simOk, s1. simpl. split; [|done].
      split_and!; try done; [apply clamped_delay|].
      destruct (loopTimer s); [|done]. by destruct H5. }
    destruct (Server.truthy _); [by apply startLoop_ok | done].
  - simplify_eq. unfold simOk. simpl. by split_and!.
Qed.

Lemma run_ok es s s' : simOk s → run s es = Some s' → simOk s'.
Proof.
  revert s. induction es as [|e es IH]; simpl; intros s Hok Hrun.
  - by simplify_eq.
  - destruct (step s e) as [s1|] eqn:E; simpl in Hrun; [|done].
    apply (IH s1); [|done]. by eapply step_ok.
Qed.

(** X10. The index of the simulation stays inside the file: in every
    state reached, [0 <= currentIndex] and [currentIndex < totalLines]
    (or it is 0, for an empty file). So a firing that reads a file with
    lines always logs one of its lines, never a miss: the line at
    [currentIndex], or line 0 when the file has become shorter than
    that. *)
Theorem index_within_file (es : list event) (s0 s : state) :
  simOk s0 →
  run s0 es = Some s →
  0 <= currentIndex (sim s)
  ∧ (currentIndex (sim s) < totalLines (sim s) ∨ currentIndex (sim s) = 0)
  ∧ (∀ logTime sentTime wS wL raw period,
       loopTimer s = Some period →
       readLinesFromFile raw ≠ [] →
       let lines := readLinesFromFile raw in
       let index :=
         if Z.of_nat (length lines) <=? currentIndex (sim s)
         then 0 else currentIndex (sim s) in
       ∃ line,
         lines !! Z.to_nat index = Some line
         ∧ lineAt lines index = line
         ∧ logs (tick logTime sentTime wS wL (ReadOk raw) s)
           = pushCapped (logs s)
               (logObject logTime (sendEntry (sim s) lines index))).
Proof.
  intros H0 Hrun. pose proof (run_ok _ _ _ H0 Hrun) as (H1 & H2 & _ & _ & H5).
  split_and!; try done.
  intros logTime sentTime wS wL raw period Ht Hne. cbv zeta.
  rewrite Ht in H5. destruct H5 as [Hrunning _].
  set (lines := readLinesFromFile raw) in *.
  assert (0 < Z.of_nat (length lines)) as Hlen.
  { destruct lines; [done | simpl; lia]. }
  set (index := if Z.of_nat (length lines) <=? currentIndex (sim s)
                then 0 else currentIndex (sim s)).
  assert (0 <= index < Z.of_nat (length lines)) as Hidx.
  { unfold index. destruct (_ <=? _) eqn:E;
      [apply Z.leb_le in E | apply Z.leb_gt in E]; lia. }
  destruct (lookup_lt_is_Some_2 lines (Z.to_nat index)) as [line Hline]; [lia|].
  exists line. split; [done|]. split.
  - unfold lineAt. rewrite Hline.
    destruct (index <? 0) eqn:E; [apply Z.ltb_lt in E; lia | done].
  - unfold tick. rewrite Hrunning. cbn [negb]. fold lines.
    destruct (Z.of_nat (length lines) =? 0) eqn:E;
      [apply Z.eqb_eq in E; lia|]. done.
Qed.

(** X11. The loop of the simulation fires neither faster than once a
    second nor slower than once a minute, and only while the simulation is
    marked running: [/start] stores a delay from 1 to 60 (or [NaN], for a
    delay that is not a number, which the loop reads as 10 seconds). *)
Theorem loop_period_bounds (es : list event) (s0 s : state) :
  simOk s0 →
  run s0 es = Some s →
  delayStored (delay (sim s))
  ∧ 1000 <= delayMs (sim s) <= 60000
  ∧ (∀ period, loopTimer s = Some period →
       running (sim s) = true ∧ 1000 <= period <= 60000).
Proof.
  intros H0 Hrun. pose proof (run_ok _ _ _ H0 Hrun) as (_ & _ & _ & H4 & H5).
  split; [done|]. split; [by apply delayMs_bounds|].
  intros period Ht. by rewrite Ht in H5.
Qed.

(** X12. After [/stop] the loop is off and stays off until the next
    [/start]: whatever pairings, uploads and clock ticks follow, no
    firing of the loop can happen, the simulation is not running and the
    index does not move unless an upload resets it to 0. *)
Theorem stop_silences_the_loop (now : string) (wS wL : bool) (s : state)
    (es : list event) (s' : state) :
  Forall (λ e, isStart e = false) es →
  run (stopHandler now wS wL s) es = Some s' →
  loopTimer s' = None
  ∧ running (sim s') = false
  ∧ Forall (λ e, isTick e = false) es
  ∧ (currentIndex (sim s') = currentIndex (sim s)
     ∨ currentIndex (sim s') = 0).
Proof.
  set (s1 := stopHandler now wS wL s).
  assert (loopTimer s1 = None ∧ running (sim s1) = false
          ∧ (currentIndex (sim s1) = currentIndex (sim s)
             ∨ currentIndex (sim s1) = 0)) as H1.
  { by split_and!; [..|left]. }
  clearbody s1. revert s1 H1.
  induction es as [|e es IH]; intros s1 (Ht & Hr & Hi) Hes Hrun;
    simpl in Hrun.
  - simplify_eq. by split_and!.
  - apply Forall_cons in Hes as [He Hes].
    destruct (step s1 e) as [s2|] eqn:E; simpl in Hrun; [|done].
    assert (isTick e = false
            ∧ loopTimer s2 = None ∧ running (sim s2) = false
            ∧ (currentIndex (sim s2) = currentIndex (sim s)
               ∨ currentIndex (sim s2) = 0)) as (Htick & H2).
    { destruct e; simpl in E, He; try done.
      - simplify_eq. unfold uptimeTick. rewrite Hr. by split_and!.
      - by rewrite Ht in E.
      - simplify_eq. simpl. by split_and!.
      - simplify_eq. unfold uploadHandler.
        destruct file as [f|]; [|by split_and!].
        destruct content as [raw|]; cbn [fst]; simpl.
        + rewrite Hr. simpl. split_and!; try done. by right.
        + by split_and!.
      - simplify_eq. simpl. by split_and!. }
    destruct (IH s2 H2 Hes Hrun) as (? & ? & ? & ?).
    split_and!; try done. by constructor.
Qed.

Lemma asObjects_persisted (l : list logEntry) :
  asObjects (persisted (VArr (map VObj l)))
  = Some (map (map (λ kv, (fst kv, persisted (snd kv)))) l).
Proof.
  simpl. apply mapM_Some_2. induction l as [|x l IH]; by constructor.
Qed.

Lemma readSimulation_default randomId :
  readSimulation (simulationValue (defaultSimulation randomId))
  = Some (defaultSimulation randomId).
Proof. done. Qed.

Lemma saveJson_own_sessions w file (m : simulation) v :
  (∀ v, file = Some v → ∃ m, v = persisted (simulationValue m)) →
  saveJson w file (simulationValue m) = Some v →
  ∃ m, v = persisted (simulationValue m).
Proof. unfold saveJson. destruct w; [intros _ [= <-]; eauto | auto]. Qed.

Lemma saveJson_own_logs w file (l : list logEntry) v :
  (∀ v, file = Some v → ∃ l : list logEntry, v = persisted (VArr (map VObj l))) →
  saveJson w file (VArr (map VObj l)) = Some v →
  ∃ l : list logEntry, v = persisted (VArr (map VObj l)).
Proof. unfold saveJson. destruct w; [intros _ [= <-]; eauto | auto]. Qed.

Lemma appendLog_own now w entry s : filesOwn s → filesOwn (appendLog now w entry s).
Proof.
  intros [H1 H2]. split; [done|]. simpl. intros v. by apply saveJson_own_logs.
Qed.

Lemma saveSessions_own w s : filesOwn s → filesOwn (saveSessions w s).
Proof.
  intros [H1 H2]. split; [|done]. simpl. intros v.
  by apply saveJson_own_sessions.
Qed.

Lemma startLoop_own s : filesOwn s → filesOwn (startLoop s).
Proof. unfold startLoop. by destruct (negb _). Qed.

Lemma step_own s e s' : filesOwn s → step s e = Some s' → filesOwn s'.
Proof.
  intros Hown Hs. destruct e; simpl in Hs.
  - simplify_eq. unfold uptimeTick. by destruct (running (sim s)).
  - destruct (loopTimer s); simplify_eq. unfold tick.
    destruct (negb _); [done|].
    destruct file; [|by apply appendLog_own].
    destruct (_ =? 0); [done|].
    apply saveSessions_own. by apply (appendLog_own _ _ _ s).
  - simplify_eq. unfold pairHandler. cbn [fst].
    apply appendLog_own. by apply (saveSessions_own _ (withSim _ s)).
  - simplify_eq. unfold uploadHandler.
    destruct file as [f|]; [|done].
    destruct content; cbn [fst]; [|done].
    assert (∀ s0, filesOwn s0 → filesOwn (if running (sim s0) then startLoop s0 else s0))
      as Hif.
    { intros s0 H0. destruct (running _); [by apply startLoop_own | done]. }
    apply Hif. apply appendLog_own. by apply (saveSessions_own _ (withSim _ s)).
  - simplify_eq. unfold startHandler.
    assert (∀ (b : bool) s0, filesOwn s0 → filesOwn (if b then startLoop s0 else s0))
      as Hif.
    { intros b s0 H0. destruct b; [by apply startLoop_own | done]. }
    apply Hif. apply appendLog_own. by apply (saveSessions_own _ (withSim _ s)).
  - simplify_eq. unfold stopHandler. apply appendLog_own.
    by apply (saveSessions_own _ (withLoopTimer None (withSim _ s))).
Qed.

(** X13. The process can always start again on the files it has written:
    whatever the simulation has done, and whichever of its writes
    failed, [sessions.json] and [logs.json] are missing or load into a
    state, and the loaded log is the saved one. *)
Theorem restart_always_loads (es : list event) (s0 s : state)
    (randomId : string) :
  filesOwn s0 →
  run s0 es = Some s →
  ∃ s', boot (sessionsFile s) (logsFile s) randomId = Some s'
    ∧ sessionsFile s' = sessionsFile s
    ∧ logsFile s' = logsFile s
    ∧ (logsFile s = None → logs s' = [])
    ∧ (sessionsFile s = None → sim s' = defaultSimulation randomId).
Proof.
  intros H0 Hrun.
  assert (filesOwn s) as [Hs Hl].
  { revert s0 H0 Hrun. induction es as [|e es IH]; simpl; intros s0 H0 Hrun.
    - by simplify_eq.
    - destruct (step s0 e) as [s1|] eqn:E; simpl in Hrun; [|done].
      apply (IH s1); [|done]. by eapply step_own. }
  unfold boot.
  assert (∃ m, readSimulation
                 (loadJson (sessionsFile s)
                    (simulationValue (defaultSimulation randomId))) = Some m
               ∧ (sessionsFile s = None → m = defaultSimulation randomId))
    as (m & -> & Hm).
  { destruct (sessionsFile s) as [v|]; cbn [loadJson].
    - destruct (Hs v eq_refl) as [m ->]. rewrite readSimulation_saved.
      eexists. by split.
    - rewrite readSimulation_default. eexists. by split. }
  assert (∃ l, asObjects (loadJson (logsFile s) (VArr [])) = Some l
               ∧ (logsFile s = None → l = [])) as (l & -> & Hl').
  { destruct (logsFile s) as [v|]; cbn [loadJson].
    - destruct (Hl v eq_refl) as [l ->]. rewrite asObjects_persisted.
      eexists. by split.
    - eexists. by split. }
  simpl. eexists. split; [done|].
  destruct (startLoop_others
              {| sim := m; logs := l; loopTimer := None;
                 sessionsFile := sessionsFile s; logsFile := logsFile s |})
    as (Hlogs & Hsf & Hlf).
  pose proof (startLoop_sim
              {| sim := m; logs := l; loopTimer := None;
                 sessionsFile := sessionsFile s; logsFile := logsFile s |})
    as Hsim.
  destruct (running m && Server.truthy (filePath m)).
  - rewrite Hlogs, Hsf, Hlf, Hsim. by split_and!.
  - by split_and!.
Qed.

Lemma agree_refl m : agreeButUptime m m.
Proof. unfold agreeButUptime. by split_and!. Qed.

Lemma synced_saved s : synced (saveSessions true s).
Proof. exists (sim s). split; [done | apply agree_refl]. Qed.

Lemma synced_appendLog now w entry s : synced s → synced (appendLog now w entry s).
Proof. intros (m & Hf & Ha). by exists m. Qed.

Lemma synced_startLoop s : synced s → synced (startLoop s).
Proof. unfold startLoop. by destruct (negb _). Qed.

Lemma step_synced s e s' :
  synced s → savesState e = true → step s e = Some s' → synced s'.
Proof.
  intros Hsync He Hs. destruct e; simpl in Hs, He.
  - simplify_eq. unfold uptimeTick.
    destruct (running (sim s)) eqn:Hr; [|done].
    destruct Hsync as (m & Hf & Ha). exists m. split; [done|].
    unfold agreeButUptime in *. simpl. intuition congruence.
  - destruct (loopTimer s); simplify_eq. unfold tick.
    destruct (negb _); [done|].
    destruct file; [|by apply synced_appendLog].
    destruct (_ =? 0); [done|]. apply synced_saved.
  - simplify_eq. unfold pairHandler. cbn [fst].
    apply synced_appendLog, synced_saved.
  - simplify_eq. unfold uploadHandler.
    destruct file as [f|]; [|done].
    destruct content; [|done]. cbn [fst]. simpl in He. subst.
    assert (∀ s0, synced s0 → synced (if running (sim s0) then startLoop s0 else s0))
      as Hif.
    { intros s0 H0. destruct (running _); [by apply synced_startLoop | done]. }
    apply Hif, synced_appendLog, synced_saved.
  - simplify_eq. unfold startHandler.
    assert (∀ (b : bool) s0, synced s0 → synced (if b then startLoop s0 else s0))
      as Hif.
    { intros b s0 H0. destruct b; [by apply synced_startLoop | done]. }
    apply Hif, synced_appendLog, synced_saved.
  - simplify_eq. unfold stopHandler. apply synced_appendLog, synced_saved.
Qed.

(** X14. As long as the writes of [sessions.json] succeed and no upload
    is unreadable, the file follows the simulation: at every moment it
    holds the current state up to [uptime] (which is only saved along
    with other changes). So a restart at any moment, not only right
    after a save, comes back with the current index, target, prefix,
    delay period, running flag and file. *)
Theorem restart_at_any_moment (es : list event) (s0 s : state)
    (logsJson : option value) (l : list logEntry) (randomId : string) :
  synced s0 →
  Forall (λ e, savesState e = true) es →
  run s0 es = Some s →
  asObjects (loadJson logsJson (VArr [])) = Some l →
  synced s
  ∧ ∃ s', boot (sessionsFile s) logsJson randomId = Some s'
      ∧ currentIndex (sim s') = currentIndex (sim s)
      ∧ targetType (sim s') = targetType (sim s)
      ∧ targetValue (sim s') = targetValue (sim s)
      ∧ prefix (sim s') = prefix (sim s)
      ∧ running (sim s') = running (sim s)
      ∧ filePath (sim s') = filePath (sim s)
      ∧ totalLines (sim s') = totalLines (sim s)
      ∧ delay (sim s') = persisted (delay (sim s))
      ∧ delayMs (sim s') = delayMs (sim s).
Proof.
  intros H0 Hes Hrun Hlogs.
  assert (synced s) as Hsync.
  { revert s0 H0 Hes Hrun.
    induction es as [|e es IH]; simpl; intros s0 H0 Hes Hrun.
    - by simplify_eq.
    - apply Forall_cons in Hes as [He Hes].
      destruct (step s0 e) as [s1|] eqn:E; simpl in Hrun; [|done].
      apply (IH s1); [|done..]. by eapply step_synced. }
  split; [done|]. destruct Hsync as (m & Hf & Ha).
  destruct (boot_saved m logsJson l randomId Hlogs) as (s' & Hboot & Hsim & _).
  exists s'. rewrite Hf, Hsim.
  destruct Ha as (? & ? & ? & Hd & ? & ? & ? & ? & ? & ? & ? & ?).
  assert (delay (reloaded m) = persisted (delay (sim s))) as Hdelay
    by (simpl; by rewrite Hd).
  split_and!; try done. by apply delayMs_persisted.
Qed.

Lemma tick_keeps logTime sentTime wS wL raw s :
  running (sim s) = true →
  let s' := tick logTime sentTime wS wL (ReadOk raw) s in
  loopTimer s' = loopTimer s
  ∧ running (sim s') = true
  ∧ (∀ lines i, sendEntry (sim s') lines i = sendEntry (sim s) lines i)
  ∧ (readLinesFromFile raw ≠ [] →
     totalLines (sim s') = Z.of_nat (length (readLinesFromFile raw))).
Proof.
  intros Hrun. cbv zeta. unfold tick. rewrite Hrun. cbn [negb].
  destruct (_ =? 0) eqn:E.
  - split_and!; try done. intros Hne. apply Z.eqb_eq in E.
    by destruct (readLinesFromFile raw).
  - by split_and!.
Qed.

Lemma next_index (n i : Z) :
  0 <= i < n → (if n <=? i + 1 then 0 else i + 1) = (i + 1) mod n.
Proof.
  intros Hi. destruct (n <=? i + 1) eqn:E.
  - apply Z.leb_le in E. replace (i + 1) with n by lia.
    by rewrite Z.mod_same by lia.
  - apply Z.leb_gt in E. by rewrite Z.mod_small by lia.
Qed.

(** X15. The loop goes round the file. With the loop running on an
    upload of [n > 0] lines and the index inside it, [k] firings that
    read the same upload send the lines at [i], [i+1], ... modulo [n],
    one per firing and in that order, and leave the index at
    [(i + k) mod n]: after [n] firings every line has been sent once and
    the index is back where it was. *)
Theorem loop_goes_round (ps : list (string * string * bool * bool))
    (raw : string) (s : state) (period : Z) :
  loopTimer s = Some period →
  running (sim s) = true →
  0 <= currentIndex (sim s) < Z.of_nat (length (readLinesFromFile raw)) →
  (length (logs s) ≤ LOG_CAP)%nat →
  let lines := readLinesFromFile raw in
  ∃ s', run s (firings raw ps) = Some s'
    ∧ currentIndex (sim s')
      = (currentIndex (sim s) + Z.of_nat (length ps))
        mod Z.of_nat (length lines)
    ∧ logs s'
      = lastN LOG_CAP
          (logs s ++ firingLogs (sim s) lines (currentIndex (sim s)) ps).
Proof.
  cbv zeta. revert s. induction ps as [|p ps IH]; intros s Ht Hrun Hi Hcap.
  - exists s. simpl. rewrite Z.add_0_r, Z.mod_small by lia.
    by rewrite app_nil_r, lastN_short.
  - destruct p as [[[logTime sentTime] wS] wL].
    set (n := Z.of_nat (length (readLinesFromFile raw))) in *.
    set (s1 := tick logTime sentTime wS wL (ReadOk raw) s).
    pose proof (tick_sends logTime sentTime wS wL raw s Hrun Hi) as Hsend.
    cbv zeta in Hsend. fold s1 n in Hsend. destruct Hsend as (Hlogs & Hnext & _).
    pose proof (tick_keeps logTime sentTime wS wL raw s Hrun) as Hkeep.
    cbv zeta in Hkeep. fold s1 in Hkeep.
    destruct Hkeep as (Ht1 & Hrun1 & Hentry & _).
    rewrite next_index in Hnext by done.
    destruct (IH s1) as (s' & Hrun' & Hidx' & Hlogs').
    + by rewrite Ht1.
    + done.
    + rewrite Hnext. apply Z.mod_pos_bound. lia.
    + rewrite Hlogs, pushCapped_lastN. apply lastN_length.
    + exists s'. split; [|split].
      * simpl. rewrite Ht. simpl. exact Hrun'.
      * rewrite Hidx', Hnext. fold n. rewrite Zplus_mod_idemp_l.
        f_equal. simpl length. lia.
      * rewrite Hlogs', Hlogs, pushCapped_lastN, lastN_app_lastN.
        rewrite <- app_assoc. do 2 f_equal.
        unfold firingLogs. rewrite imap_cons. cbn [app fst snd].
        rewrite Z.add_0_r. fold n. rewrite (Z.mod_small (currentIndex (sim s))) by done.
        f_equal. apply imap_ext. intros j q _. simpl.
        rewrite Hentry, Hnext. fold n. rewrite Zplus_mod_idemp_l.
        by replace (currentIndex (sim s) + 1 + Z.of_nat j)
          with (currentIndex (sim s) + Z.of_nat (S j)) by lia.
Qed.

Lemma drop_lastN {A} (l : list A) (c : Z) :
  1 <= c →
  drop (Z.to_nat (Z.max 0 (Z.of_nat (length l) - c))) l = lastN (Z.to_nat c) l.
Proof. intros Hc. unfold lastN. f_equal. lia. Qed.

(** X16. [/logs] answers the length of the whole log and its most recent
    entries, oldest first: the last [k], where [k] is the query [n] kept
    between 1 and 2000, 200 when [n] is missing or empty, and the whole
    log when [n] is not a number. *)
Theorem logs_answers_most_recent (n' : option string) (s : state) :
  logsHandler n' s
  = persisted
      (VObj [("count", VNum (Z.of_nat (length (logs s))));
             ("logs", VArr (map VObj (lastN (logsAsked n' s) (logs s))))])
  ∧ (n' = None ∨ n' = Some "" → logsAsked n' s = 200%nat)
  ∧ (length (lastN (logsAsked n' s) (logs s)) ≤ logsAsked n' s)%nat
  ∧ (logs s ≠ [] → lastN (logsAsked n' s) (logs s) ≠ []).
Proof.
  unfold logsHandler, logsAsked.
  set (q := parseIntString false _).
  split_and!.
  - destruct q as [n|]; cbn [mathMin mathMax fmap option_fmap option_map sliceFrom].
    + rewrite <- drop_lastN by lia. done.
    + by rewrite lastN_short.
  - by intros [->| ->].
  - apply lastN_length.
  - intros Hne. destruct q as [n|].
    + unfold lastN. intros Hnil%(f_equal length). rewrite length_drop in Hnil.
      destruct (logs s); [done|]. simpl in Hnil. lia.
    + by rewrite lastN_short.
Qed.
End SimInvariants.

(** ** Reading an upload *)
Section Uploads.
Import Server.

Lemma sameLine_trim p q : sameLine p q → trim q = trim p.
Proof. intros [->| ->]; [done | apply trim_carriage_return]. Qed.

Lemma splitOn_lines raw :
  Forall2 sameLine (Sim.splitLines raw) (splitOn "010"%char raw).
Proof.
  induction raw as [|c r IH]; simpl.
  - constructor; [by left | constructor].
  - destruct (Ascii.eqb c "010") eqn:Elf.
    { constructor; [by left | done]. }
    destruct (Ascii.eqb c "013"
              && match r with
                 | String c' _ => Ascii.eqb c' "010"
                 | EmptyString => false
                 end) eqn:Ecr.
    + apply andb_prop in Ecr as [Ec Er]. apply Ascii.eqb_eq in Ec. subst c.
      destruct r as [|c' r']; [done|]. simpl in IH |- *. rewrite Er in IH |- *.
      apply Forall2_cons in IH as [_ IH].
      constructor; [by right | done].
    + destruct IH as [|p q ps qs Hpq IH]; [constructor; [by left | constructor]|].
      constructor; [|done].
      destruct Hpq as [->| ->]; [by left | by right].
Qed.

(** X17. The two servers read an upload to the same lines: cutting at
    line feeds and trimming, as [/send-message] does, gives the list that
    cutting at optional carriage return plus line feed and trimming gives
    in the simulation; a text with Windows line ends reads like the same
    text with Unix ones. *)
Theorem uploads_read_alike (raw : string) :
  Sim.readLinesFromFile raw = readMessages raw.
Proof.
  unfold Sim.readLinesFromFile, readMessages. f_equal.
  induction (splitOn_lines raw) as [|p q ps qs Hpq _ IH]; [done|].
  simpl. by rewrite IH, (sameLine_trim p q).
Qed.

(** X18. An upload without a single visible character (empty, or only
    spaces, tabs and line ends) holds no message: [/send-message] refuses
    it and changes nothing, and the loop of the simulation, reading such a
    file, does nothing at all. Among ASCII texts it is the only kind of
    readable upload a complete request on a session with a client is
    refused for: one visible character starts a task. *)
Theorem blank_upload_is_refused (req : sendRequest) (tid : string) (now : Z)
    (content : string) (s : state) (sid : string) (ci : clientInfo)
    (rest : list (string * clientInfo)) (h : nat) :
  activeClients s = (sid, ci) :: rest →
  sid ≠ "" →
  client ci = Some h →
  requestComplete req →
  (blank content →
     sendMessageHandler req tid now (Some content) s = (s, NoMessages)
     ∧ ∀ logTime sentTime wS wL sim0,
         Sim.tick logTime sentTime wS wL (Sim.ReadOk content) sim0 = sim0)
  ∧ (withinAscii content → ¬ blank content →
     ∃ jid total,
       snd (sendMessageHandler req tid now (Some content) s)
       = TaskStarted tid sid jid total
       ∧ 0 < total).
Proof.
  intros Hc Hsid Hh (H1 & H2 & H3 & H4).
  assert (nonEmpty sid = true) as Hn by (by destruct sid).
  unfold sendMessageHandler. rewrite Hc. simpl. rewrite Hh. simpl.
  rewrite Hn, H1, H2, H3, H4. simpl. split.
  - intros Hb. apply readMessages_nil in Hb as Hnil. rewrite Hnil. simpl.
    split; [done|]. intros. unfold Sim.tick.
    rewrite uploads_read_alike, Hnil. simpl. by destruct (negb _).
  - intros _ Hb. rewrite <- readMessages_nil in Hb.
    destruct (readMessages content) as [|m ms]; [done|]. simpl.
    eexists _, _. split; [done|]. lia.
Qed.
End Uploads.

(** ** The properties on the sample runs *)

Lemma sends_follow_the_upload_witness :
  let tid := "task_1700000200000_k3x9a" in
  let sid := "perm_9779800000_1700000000000" in
  map Server.callText (sendsOf tid threeSendsState) = ["one"; "two"; "three"]
  ∧ map Server.callJid (sendsOf tid threeSendsState)
    = replicate 3 "919876543210@s.whatsapp.net"
  ∧ ∃ ci rest h n lp,
      Server.activeClients connectedState = (sid, ci) :: rest
      ∧ Server.client ci = Some h
      ∧ (1 ≤ n ≤ length (Server.readMessages fiveMessages))%nat
      ∧ sendsOf tid threeSendsState
        = imap (uploadCall tid h sampleRequest)
               (take n (Server.readMessages fiveMessages))
      ∧ map Server.callText (sendsOf tid threeSendsState)
        = map (Server.textToSend (default "" (Server.reqPrefix sampleRequest)))
              (take n (Server.readMessages fiveMessages))
      ∧ map Server.callIndex (sendsOf tid threeSendsState) = seq 0 n
      ∧ Forall (λ c, Server.callJid c = requestJid sampleRequest
                     ∧ Server.callClient c = h)
               (sendsOf tid threeSendsState)
      ∧ Server.loops threeSendsState !! tid = Some lp
      ∧ Server.loopMessages lp = Server.readMessages fiveMessages
      ∧ match Server.pc lp with
        | Server.AwaitSend i | Server.AwaitDelay i => n = S i
        | _ => True
        end.
Proof.
  cbv zeta. split; [by vm_compute|]. split; [by vm_compute|].
  apply (sends_follow_the_upload 401 connectedTrace threeSendsTrace
           connectedState startedState threeSendsState sampleRequest
           "task_1700000200000_k3x9a" 1700000200000 fiveMessages
           "perm_9779800000_1700000000000" "919876543210@s.whatsapp.net" 5);
    vm_compute; reflexivity.
Defined.

Lemma loop_runs_to_completion_witness :
  ∃ lp t,
    Server.loops startedState !! "task_1700000200000_k3x9a" = Some lp
    ∧ JsMap.get (Server.activeTasks startedState) "task_1700000200000_k3x9a"
      = Some t
    ∧ ∃ s' t',
        Server.run 401 startedState
          (schedule "task_1700000200000_k3x9a" fiveOutcomes) = Some s'
        ∧ Server.loops s' !! "task_1700000200000_k3x9a"
          = Some (withPc lp Server.AwaitEviction)
        ∧ Server.outbox s'
          = Server.outbox startedState
            ++ imap (λ j, callOf "task_1700000200000_k3x9a" lp (1 + j))
                    (drop 1 (Server.loopMessages lp))
        ∧ JsMap.get (Server.activeTasks s') "task_1700000200000_k3x9a"
          = Some t'
        ∧ Server.sentMessages t' = Server.sentMessages t + resolved fiveOutcomes
        ∧ Server.totalMessages t' = Server.totalMessages t
        ∧ Server.isSending t' = false
        ∧ is_Some (Server.endedAt t').
Proof.
  eexists _, _. split; [vm_compute; reflexivity|].
  split; [vm_compute; reflexivity|].
  apply (loop_runs_to_completion 401 (tail fiveOutcomes)
           (true, 1700000200400, 1700000201400) startedState
           "task_1700000200000_k3x9a" _ 0%nat);
    vm_compute; reflexivity.
Defined.

Lemma eviction_is_final_witness :
  ∃ s1,
    Server.step 401 finishedState
      (Server.EEvictionTimer "task_1700000300000_p2m4z") = Some s1
    ∧ ∀ es s', Server.run 401 s1 es = Some s' →
        JsMap.get (Server.activeTasks s') "task_1700000300000_p2m4z" = None
        ∧ reportedTask "task_1700000300000_p2m4z" s' = None
        ∧ sendsOf "task_1700000300000_p2m4z" s'
          = sendsOf "task_1700000300000_p2m4z" finishedState
        ∧ fst (Server.stopTaskHandler (Some "task_1700000300000_p2m4z") s') = s'
        ∧ (∀ tid', snd (Server.stopTaskHandler
                          (Some "task_1700000300000_p2m4z") s')
                   ≠ Server.StopAccepted tid').
Proof.
  eapply (eviction_is_final 401 finishedState "task_1700000300000_p2m4z");
    vm_compute; reflexivity.
Defined.

Lemma started_task_address_witness :
  let tid := "task_1700000200000_k3x9a" in
  let jid := "919876543210@s.whatsapp.net" in
  let s' := fst (Server.sendMessageHandler sampleRequest tid 1700000200000
                   (Some fiveMessages) connectedState) in
  ∃ target, Server.reqTarget sampleRequest = Some target
    ∧ jid
      = (if String.eqb (default "" (Server.reqTargetType sampleRequest)) "number"
         then Server.keepDigits target +:+ "@s.whatsapp.net"
         else target)
    ∧ Forall (λ c, Server.isDigit c = true)
        (list_ascii_of_string (Server.keepDigits target))
    ∧ (∃ t, JsMap.get (Server.activeTasks s') tid = Some t
            ∧ Server.target t = target ∧ Server.targetJid t = jid)
    ∧ (∃ st, reportedTask tid s' = Some st
             ∧ Server.stTarget st = target ∧ Server.stTargetJid st = jid)
    ∧ (∃ lp, Server.loops s' !! tid = Some lp ∧ Server.loopJid lp = jid)
    ∧ (∃ c, Server.outbox s' = Server.outbox connectedState ++ [c]
            ∧ Server.callTask c = tid ∧ Server.callJid c = jid).
Proof.
  apply (started_task_address sampleRequest "task_1700000200000_k3x9a"
           1700000200000 (Some fiveMessages) connectedState
           "perm_9779800000_1700000000000" "919876543210@s.whatsapp.net" 5).
  vm_compute. reflexivity.
Defined.

Lemma closes_count_to_the_bound_witness :
  let r := retriesOf (Server.sockSession sampleSocket) connectedState in
  let n := Z.of_nat (length threeCloses) in
  let s' := closes 401 sampleSocket threeCloses connectedState in
  retriesOf (Server.sockSession sampleSocket) s'
  = Z.min (r + n) Server.MAX_RETRIES
  ∧ Server.reconnectTimers s'
    = Server.reconnectTimers connectedState
      ++ replicate (Z.to_nat (Z.min n (Server.MAX_RETRIES - r)))
           (Server.sockSession sampleSocket, Server.sockPhone sampleSocket).
Proof.
  apply (closes_count_to_the_bound 401 threeCloses sampleSocket connectedState).
  - repeat (constructor; [reflexivity|]). constructor.
  - vm_compute. split; discriminate.
Defined.

Lemma close_without_entry_witness :
  let sid := Server.sockSession sampleSocket in
  let s' := Server.onConnectionUpdate 401 sampleSocket
              (Server.ConnClose (Some 428)) 1700000100000 Server.initial in
  JsMap.get (Server.activeClients s') sid
  = Some {| Server.client := None; Server.number := None;
            Server.authPath := None; Server.connected := false;
            Server.lastConnected := Server.LcUndefined;
            Server.retryCount := 1 |}
  ∧ JsMap.keys (Server.activeClients s')
    = JsMap.keys (Server.activeClients Server.initial) ++ [sid]
  ∧ Server.reconnectTimers s'
    = Server.reconnectTimers Server.initial
      ++ [(sid, Server.sockPhone sampleSocket)]
  ∧ pinged (Server.activeClients s')
    = pinged (Server.activeClients Server.initial)
  ∧ (Server.activeClients Server.initial = [] →
       Server.groupsHandler s' = Server.GroupsNoSession
       ∧ ∀ req tid now' file,
           Server.sendMessageHandler req tid now' file s'
           = (s', Server.NoActiveSession)).
Proof.
  apply (close_without_entry 401 sampleSocket (Some 428) 1700000100000
           Server.initial); reflexivity.
Defined.

Lemma session_ids_not_empty_witness :
  Forall (λ k, k ≠ "") (JsMap.keys (Server.activeClients connectedState)).
Proof.
  apply (session_ids_not_empty 401 connectedTrace connectedState).
  - repeat (constructor; [done|]). constructor.
  - vm_compute. reflexivity.
Defined.

Lemma simOk_freshSim : simOk freshSim.
Proof.
  unfold simOk. simpl. split_and!; try done.
  - by right.
  - lia.
  - right. right. exists 10. split; [done | lia].
Defined.

Lemma index_within_file_witness :
  0 <= Sim.currentIndex (Sim.sim simState)
  ∧ (Sim.currentIndex (Sim.sim simState) < Sim.totalLines (Sim.sim simState)
     ∨ Sim.currentIndex (Sim.sim simState) = 0)
  ∧ (∀ logTime sentTime wS wL raw period,
       Sim.loopTimer simState = Some period →
       Sim.readLinesFromFile raw ≠ [] →
       let lines := Sim.readLinesFromFile raw in
       let index :=
         if Z.of_nat (length lines) <=? Sim.currentIndex (Sim.sim simState)
         then 0 else Sim.currentIndex (Sim.sim simState) in
       ∃ line,
         lines !! Z.to_nat index = Some line
         ∧ Sim.lineAt lines index = line
         ∧ Sim.logs (Sim.tick logTime sentTime wS wL (Sim.ReadOk raw) simState)
           = Sim.pushCapped (Sim.logs simState)
               (logObject logTime (sendEntry (Sim.sim simState) lines index))).
Proof.
  apply (index_within_file simTrace freshSim simState).
  - exact simOk_freshSim.
  - vm_compute. reflexivity.
Defined.

Lemma loop_period_bounds_witness :
  delayStored (Sim.delay (Sim.sim simState))
  ∧ 1000 <= Sim.delayMs (Sim.sim simState) <= 60000
  ∧ (∀ period, Sim.loopTimer simState = Some period →
       Sim.running (Sim.sim simState) = true ∧ 1000 <= period <= 60000).
Proof.
  apply (loop_period_bounds simTrace freshSim simState).
  - exact simOk_freshSim.
  - vm_compute. reflexivity.
Defined.

Lemma stop_silences_the_loop_witness :
  ∃ s', Sim.run (Sim.stopHandler "2024-05-01T10:00:30.000Z" true true simState)
          quietTrace = Some s'
    ∧ Sim.loopTimer s' = None
    ∧ Sim.running (Sim.sim s') = false
    ∧ Forall (λ e, isTick e = false) quietTrace
    ∧ (Sim.currentIndex (Sim.sim s') = Sim.currentIndex (Sim.sim simState)
       ∨ Sim.currentIndex (Sim.sim s') = 0).
Proof.
  eexists. split; [vm_compute; reflexivity|].
  eapply (stop_silences_the_loop "2024-05-01T10:00:30.000Z" true true simState
            quietTrace).
  - repeat (constructor; [reflexivity|]). constructor.
  - vm_compute. reflexivity.
Defined.

Lemma restart_always_loads_witness :
  ∃ s', Sim.boot (Sim.sessionsFile simState) (Sim.logsFile simState) "q8w2e7rt"
        = Some s'
    ∧ Sim.sessionsFile s' = Sim.sessionsFile simState
    ∧ Sim.logsFile s' = Sim.logsFile simState
    ∧ (Sim.logsFile simState = None → Sim.logs s' = [])
    ∧ (Sim.sessionsFile simState = None →
       Sim.sim s' = Sim.defaultSimulation "q8w2e7rt").
Proof.
  apply (restart_always_loads simTrace freshSim simState "q8w2e7rt").
  - split; intros v Hv; discriminate Hv.
  - vm_compute. reflexivity.
Defined.

Lemma restart_at_any_moment_witness :
  ∃ s, Sim.run simState laterTrace = Some s
    ∧ synced s
    ∧ ∃ s', Sim.boot (Sim.sessionsFile s) None "q8w2e7rt" = Some s'
        ∧ Sim.currentIndex (Sim.sim s') = Sim.currentIndex (Sim.sim s)
        ∧ Sim.targetType (Sim.sim s') = Sim.targetType (Sim.sim s)
        ∧ Sim.targetValue (Sim.sim s') = Sim.targetValue (Sim.sim s)
        ∧ Sim.prefix (Sim.sim s') = Sim.prefix (Sim.sim s)
        ∧ Sim.running (Sim.sim s') = Sim.running (Sim.sim s)
        ∧ Sim.filePath (Sim.sim s') = Sim.filePath (Sim.sim s)
        ∧ Sim.totalLines (Sim.sim s') = Sim.totalLines (Sim.sim s)
        ∧ Sim.delay (Sim.sim s') = Sim.persisted (Sim.delay (Sim.sim s))
        ∧ Sim.delayMs (Sim.sim s') = Sim.delayMs (Sim.sim s).
Proof.
  eexists. split; [vm_compute; reflexivity|].
  eapply (restart_at_any_moment laterTrace simState _ None [] "q8w2e7rt").
  - exists (Sim.sim simState). split; [vm_compute; reflexivity|].
    unfold agreeButUptime. by split_and!.
  - repeat (constructor; [reflexivity|]). constructor.
  - vm_compute. reflexivity.
  - reflexivity.
Defined.

Lemma loop_goes_round_witness :
  let lines := Sim.readLinesFromFile threeLines in
  ∃ s', Sim.run simState (firings threeLines fourFirings) = Some s'
    ∧ Sim.currentIndex (Sim.sim s')
      = (Sim.currentIndex (Sim.sim simState) + Z.of_nat (length fourFirings))
        mod Z.of_nat (length lines)
    ∧ Sim.logs s'
      = lastN Sim.LOG_CAP
          (Sim.logs simState
           ++ firingLogs (Sim.sim simState) lines
                (Sim.currentIndex (Sim.sim simState)) fourFirings).
Proof.
  apply (loop_goes_round fourFirings threeLines simState 10000).
  - vm_compute. reflexivity.
  - vm_compute. reflexivity.
  - vm_compute. split; [discriminate | reflexivity].
  - vm_compute. lia.
Defined.

Lemma blank_upload_is_refused_witness :
  Server.sendMessageHandler sampleRequest "task_1700000200000_k3x9a"
    1700000200000 (Some blankUpload) connectedState
  = (connectedState, Server.NoMessages)
  ∧ ∀ logTime sentTime wS wL sim0,
      Sim.tick logTime sentTime wS wL (Sim.ReadOk blankUpload) sim0 = sim0.
Proof.
  assert (blank blankUpload) as Hb by (by apply isBlank_blank).
  refine (proj1 (blank_upload_is_refused sampleRequest
                   "task_1700000200000_k3x9a" 1700000200000 blankUpload
                   connectedState "perm_9779800000_1700000000000"
                   {| Server.client := Some 1%nat;
                      Server.number := Some "9779800000";
                      Server.authPath :=
                        Some (Server.sessionPath "perm_9779800000_1700000000000");
                      Server.connected := true;
                      Server.lastConnected := Server.LcDate 1700000003000;
                      Server.retryCount := 0 |}
                   [] 1%nat _ _ _ _) Hb).
  - vm_compute. reflexivity.
  - discriminate.
  - vm_compute. reflexivity.
  - repeat split.
Defined.

(** Unicode white space counts like the ASCII one: an upload of a
    byte-order mark, a no-break space and a line separator holds no
    message, and [trim] takes such characters off both ends of a line and
    leaves them inside it. *)
Example unicode_white_space :
  Server.readMessages
    (Server.bytes [239; 187; 191; 194; 160; 10; 226; 128; 168]%N) = []
  ∧ Server.trim
      (Server.bytes [239; 187; 191; 32; 104; 105; 194; 160; 33; 13]%N)
    = Server.bytes [104; 105; 194; 160; 33]%N
  ∧ Sim.parseIntString true (Server.bytes [194; 160; 52; 50]%N) = Some 42.
Proof. by vm_compute. Qed.
